(** * Managed-group request pipeline of the controller

    A shallow embedding of
    [internal/servers/controller/handlers/managed_groups/managed_group_service.go]:
    the five handlers (List, Get, Create, Update, Delete), the repository
    helpers behind them, the authorization resolver [parentAndAuthResult],
    the output projector [toProto] and the request validators.

    Go values are modelled as follows.
    - A function returning [(T, error)] returns [Res T]: every such function
      of the file returns a nil value next to a non-nil error.
    - A pointer or interface that may be nil is an [option]; calling a method
      of a nil interface, or reading a field through a nil pointer, is a
      run-time panic, modelled by the outcome [Panic].
    - [map[string]string] is a [gmap string string].
    - The repository and the policy engine are collaborators living in other
      packages: they are the fields of an environment record [Env], and every
      call made to them is recorded, in order, in the trace of the world the
      handlers run in. *)

From stdpp Require Import base strings list gmap option pretty.

Set Warnings "-register-all".
Set Default Proof Using "Type".
Open Scope string_scope.
Open Scope list_scope.

(** ** Results, panics and errors *)

(** Modelled from the spec: package [codes] is outside this file; these are
    the status codes of the typed failures the operations return (spec 6). *)
Module codes.
Inductive Code :=
  | InvalidArgument | NotFound | PermissionDenied | Unauthenticated | Internal.

#[global] Instance Code_eq_dec : EqDecision Code.
Proof. solve_decision. Defined.
End codes.

(** Modelled from the spec: package [errors] is outside this file; these
    are the codes of the domain errors the file builds and tests for. *)
Module errors.
Inductive Code :=
  | InvalidParameter | RecordNotFound | Internal | Unknown.

#[global] Instance Code_eq_dec : EqDecision Code.
Proof. solve_decision. Defined.
End errors.

(** Modelled from the spec: the error types of packages [handlers] and
    [errors] are outside this file. An error is what its constructor was
    given: an API error built by [handlers.ApiErrorWithCodeAndMessage],
    [handlers.NotFoundErrorf] or [handlers.InvalidArgumentErrorf] (with its
    field-keyed detail map, spec 7), a domain error built by [errors.New], or
    an error wrapped by [errors.Wrap]. Messages are kept as their format
    strings. *)
Inductive Error :=
| ApiError (c : codes.Code) (msg : string) (details : gmap string string)
| DomainError (c : errors.Code) (op msg : string)
| Wrap (e : Error) (op : string) (msg : option string).

#[global] Instance Error_eq_dec : EqDecision Error.
Proof. solve_decision. Defined.

Inductive Res (A : Type) :=
| Ok (a : A)
| Err (e : Error).
Arguments Ok {A} a.
Arguments Err {A} e.

Inductive outcome (A : Type) :=
| Done (a : A)
| Panic.
Arguments Done {A} a.
Arguments Panic {A}.

(** Modelled from the spec: the constructors of API errors of package
    [handlers]; [NotFoundError] is the generic not-found error. *)
Module handlers_errors.
Definition NotFoundError : Error :=
  ApiError codes.NotFound "Resource not found." ∅.

Definition NotFoundErrorf (msg : string) : Error :=
  ApiError codes.NotFound msg ∅.

Definition InvalidArgumentErrorf (msg : string) (fields : gmap string string) : Error :=
  ApiError codes.InvalidArgument msg fields.

Definition ApiErrorWithCodeAndMessage (c : codes.Code) (msg : string) : Error :=
  ApiError c msg ∅.
End handlers_errors.
Import handlers_errors.

(** Modelled from the spec: the typed failure the caller sees (spec 6) is
    the status of the API error an error value carries, found by following
    the chain of wrapped errors, as Go's [errors.As] follows [Unwrap]. *)
Fixpoint apiStatus (e : Error) : option codes.Code :=
  match e with
  | ApiError c _ _ => Some c
  | DomainError _ _ _ => None
  | Wrap e' _ _ => apiStatus e'
  end.

(** ** Identifiers, subtypes and actions *)

(** Modelled from the spec: package [auth] is outside this file; the
    subtype of an id is Oidc, another known subtype, or Unknown (spec 4.1). *)
Module auth.
Inductive Subtype := UnknownSubtype | PasswordSubtype | OidcSubtype.

#[global] Instance Subtype_eq_dec : EqDecision Subtype.
Proof. solve_decision. Defined.

Definition String (s : Subtype) : string :=
  match s with
  | UnknownSubtype => "unknown"
  | PasswordSubtype => "password"
  | OidcSubtype => "oidc"
  end.
End auth.

(** Modelled from the spec: package [action] is outside this file; the
    actions of the resolver (spec 4.5) and the no-op action of [IdActions],
    with their names. *)
Module action.
Inductive Type_ := NoOp | List | Create | Read | Update | Delete.

#[global] Instance Type_eq_dec : EqDecision Type_.
Proof. solve_decision. Defined.

Definition String (a : Type_) : string :=
  match a with
  | NoOp => "no-op" | List => "list" | Create => "create"
  | Read => "read" | Update => "update" | Delete => "delete"
  end.

Definition ActionSet := list Type_.

(** [ActionSet.Strings]: one name per action, nil for an empty set. *)
Definition Strings (s : ActionSet) : list string := String <$> s.
End action.

(** [IdActions] and [CollectionActions] of the file. *)
Definition IdActions (s : auth.Subtype) : action.ActionSet :=
  match s with
  | auth.OidcSubtype => [action.NoOp; action.Read; action.Update; action.Delete]
  | _ => []
  end.

Definition CollectionActions : action.ActionSet := [action.Create; action.List].

(** Modelled from the spec: the field-name constants of package [globals]
    and the id prefixes of package [oidc], which are declared outside this
    file; their values are the wire names the spec uses. *)
Module globals.
Definition IdField := "id".
Definition AuthMethodIdField := "auth_method_id".
Definition DescriptionField := "description".
Definition NameField := "name".
Definition CreatedTimeField := "created_time".
Definition UpdatedTimeField := "updated_time".
Definition VersionField := "version".
Definition ScopeField := "scope".
Definition AuthorizedActionsField := "authorized_actions".
Definition TypeField := "type".
Definition AttributesField := "attributes".
Definition FilterField := "filter".
End globals.

Definition attrFilterField := "attributes.filter".

(** ** Entities and wire messages *)

(** Modelled from the spec: the timestamp of the wire format, declared
    outside this file. *)
Record Timestamp := { seconds : Z; nanos : Z }.

#[global] Instance Timestamp_eq_dec : EqDecision Timestamp.
Proof. solve_decision. Defined.

(** Modelled from the spec: package [structpb] is outside this file; the
    generic structured form of the attributes (spec 4.2). A number is kept
    as the bit pattern of its float64. *)
Module structpb.
Inductive Value :=
  | NullValue
  | NumberValue (bits : N)
  | StringValue (s : string)
  | BoolValue (b : bool)
  | StructValue (fields : gmap string Value)
  | ListValue (values : list Value).

Abbreviation Struct := (gmap string Value).
End structpb.

(** Modelled from the spec: package [oidc] is outside this file; the stored
    managed group with the fields of spec 3, its owning auth method as far
    as the handlers read it, and the prefixes of their ids. *)
Module oidc.
Definition ManagedGroupPrefix := "mgoidc".
Definition AuthMethodPrefix := "amoidc".

(** [oidc.ManagedGroup], the stored entity. *)
Record ManagedGroup := {
    PublicId : string;
    AuthMethodId : string;
    Name : string;
    Description : string;
    CreateTime : option Timestamp;
    UpdateTime : option Timestamp;
    Version : N;
    Filter : string
  }.

#[global] Instance ManagedGroup_eq_dec : EqDecision ManagedGroup.
Proof. solve_decision. Defined.

(** The owning auth method, as far as the handlers read it. *)
Record AuthMethod := {
    amPublicId : string;
    amScopeId : string
  }.

#[global] Instance AuthMethod_eq_dec : EqDecision AuthMethod.
Proof. solve_decision. Defined.
End oidc.

(** A non-nil value of the interface [auth.ManagedGroup]. Its only
    implementation today is [*oidc.ManagedGroup], a pointer that may itself
    be nil inside the interface; [OtherGroup] stands for any other
    implementation and carries what its common getters return. A value of
    the interface type is an [option ManagedGroup], [None] being the nil
    interface. *)
Inductive ManagedGroup :=
| OidcGroup (p : option oidc.ManagedGroup)
| OtherGroup (g : oidc.ManagedGroup).

(** Modelled from the spec: the generated wire messages of package [pb] are
    outside this file; a managed group has the fields the projector assigns,
    [Name] and [Description] being optional string wrappers. *)
Module pb.
Record ScopeInfo := {
    scId : string;
    scType : string;
    scName : string;
    scDescription : string;
    scParentScopeId : string
  }.

#[global] Instance ScopeInfo_eq_dec : EqDecision ScopeInfo.
Proof. solve_decision. Defined.

(** [pb.OidcManagedGroupAttributes]. *)
Record OidcManagedGroupAttributes := { Filter : string }.

#[global] Instance OidcManagedGroupAttributes_eq_dec :
    EqDecision OidcManagedGroupAttributes.
Proof. solve_decision. Defined.

(** [pb.ManagedGroup], the wire message; [Name] and [Description] are
    optional string wrappers. *)
Record ManagedGroup := {
    Id : string;
    AuthMethodId : string;
    Scope : option ScopeInfo;
    Name : option string;
    Description : option string;
    CreatedTime : option Timestamp;
    UpdatedTime : option Timestamp;
    Version : N;
    Type_ : string;
    Attributes : option structpb.Struct;
    AuthorizedActions : list string
  }.

End pb.

(** ** Requests and responses of package [pbs] *)

(** Modelled from the spec: the generated request and response messages of
    package [pbs] are outside this file; each carries the fields the
    handlers read or build. *)
Module pbs.
Record ListManagedGroupsRequest := {
  lAuthMethodId : string;
  lFilter : string
}.

Record GetManagedGroupRequest := { gId : string }.

Record CreateManagedGroupRequest := { cItem : option pb.ManagedGroup }.

Record UpdateManagedGroupRequest := {
  uId : string;
  uItem : option pb.ManagedGroup;
  uUpdateMask : option (list string)
}.

Record DeleteManagedGroupRequest := { dId : string }.

Record ListManagedGroupsResponse := { Items : list pb.ManagedGroup }.

Record GetManagedGroupResponse := { gItem : pb.ManagedGroup }.

Record CreateManagedGroupResponse := { crItem : pb.ManagedGroup; Uri : string }.

Record UpdateManagedGroupResponse := { upItem : pb.ManagedGroup }.

Inductive DeleteManagedGroupResponse := Deleted.
End pbs.

(** Nil-safe getters of the generated messages. *)
Definition GetItem_AuthMethodId (item : option pb.ManagedGroup) : string :=
  from_option pb.AuthMethodId "" item.

Definition GetItem_Type (item : option pb.ManagedGroup) : string :=
  from_option pb.Type_ "" item.

Definition GetItem_Attributes (item : option pb.ManagedGroup) : option structpb.Struct :=
  item ≫= pb.Attributes.

Definition GetItem_Version (item : option pb.ManagedGroup) : N :=
  from_option pb.Version 0%N item.

Definition GetPaths (mask : option (list string)) : list string :=
  default [] mask.

(** ** Collaborators *)

(** Modelled from the spec: packages [resource] and [perms] are outside this
    file; the resource of an authorization context has a scope, an id, the
    type ManagedGroup and a pin (spec 3). *)
Module resource.
Inductive Type_ := ManagedGroup.

#[global] Instance Type_eq_dec : EqDecision Type_.
Proof. solve_decision. Defined.
End resource.

Module perms.
Record Resource := {
  ScopeId : string;
  Id : string;
  Type_ : resource.Type_;
  Pin : string
}.
End perms.

(** Modelled from the spec: the options of [auth.Verify], declared in package
    [auth]: the fields of the authorization context (spec 3). *)
Module authopt.
Inductive Option_ :=
| WithType (t : resource.Type_)
| WithAction (a : action.Type_)
| WithId (id : string)
| WithScopeId (id : string)
| WithPin (id : string).

#[global] Instance Option_eq_dec : EqDecision Option_.
Proof. solve_decision. Defined.
End authopt.

(** Modelled from the spec: [auth.VerifyResults] is declared in package
    [auth]; the verdict of the policy engine carries an error, the resolved
    scope and the user (spec 6), which are the fields the handlers read. *)
Record VerifyResults := {
  vrError : option Error;
  vrScope : option pb.ScopeInfo;
  vrUserId : string
}.

Definition emptyVerifyResults : VerifyResults :=
  {| vrError := None; vrScope := None; vrUserId := "" |}.

(** Modelled from the spec: the options of [oidc.NewManagedGroup], declared
    in package [oidc]: the optional name and description (spec 3). *)
Module oidcopt.
Inductive Option_ :=
| WithName (s : string)
| WithDescription (s : string).
End oidcopt.

(** One entry of the trace: a call to the repository factory, to a method of
    the repository, or to the policy engine. *)
Inductive Event :=
| EvRepoFn
| EvLookupManagedGroup (id : string)
| EvLookupAuthMethod (id : string)
| EvCreateManagedGroup (scopeId : string) (mg : oidc.ManagedGroup)
| EvUpdateManagedGroup (scopeId : string) (mg : oidc.ManagedGroup)
    (version : N) (dbMask : list string)
| EvDeleteManagedGroup (scopeId id : string)
| EvListManagedGroups (authMethodId : string)
| EvVerify (opts : list authopt.Option_).

#[global] Instance Event_eq_dec : EqDecision Event.
Proof. solve_decision. Defined.

(** The calls of a method of the repository, which a spy repository would
    record, and among them those that change it. *)
Definition isRepoCall (ev : Event) : bool :=
  match ev with
  | EvRepoFn | EvVerify _ => false
  | _ => true
  end.

Definition isRepoMutation (ev : Event) : bool :=
  match ev with
  | EvCreateManagedGroup _ _ | EvUpdateManagedGroup _ _ _ _
  | EvDeleteManagedGroup _ _ => true
  | _ => false
  end.

Definition isVerify (ev : Event) : bool :=
  match ev with
  | EvVerify _ => true
  | _ => false
  end.

(** The functions of other packages the file calls. [St] is the state of the
    repository, [OF] the type [perms.OutputFieldsMap] and [Flt] a compiled
    list filter. The two lookups and the listing read the repository; create,
    update and delete may change it. Within one request the repository
    factory answers the same way at every call, and the policy engine is a
    function of the options it is given. [handlers.StructToProto] writes
    into a message it is handed and returns an error: [StructToProto] is the
    error, or the message after a call without error, and
    [StructToProtoPartial] is what the message holds after a call that
    failed. *)
Record Env (St OF Flt : Type) := {
  (* package auth *)
  SubtypeFromId : string → auth.Subtype;
  Verify : list authopt.Option_ → VerifyResults;
  FetchActionSetForId :
    VerifyResults → string → action.ActionSet → option perms.Resource →
    action.ActionSet;
  FetchOutputFields : VerifyResults → perms.Resource → action.Type_ → OF;
  SelfOrDefaults : OF → string → OF;
  Has : OF → string → bool;
  (* package handlers *)
  ValidId : string → string → bool;
  Translate : list string → list string;
  MaskContains : list string → string → bool;
  StructToProto : option structpb.Struct → Res pb.OidcManagedGroupAttributes;
  StructToProtoPartial : option structpb.Struct → pb.OidcManagedGroupAttributes;
  ProtoToStruct : pb.OidcManagedGroupAttributes → Res structpb.Struct;
  NewFilter : string → Res Flt;
  Match : Flt → pb.ManagedGroup → bool;
  ValidateGetRequest : gmap string string → string → string → option Error;
  ValidateCreateRequest :
    option pb.ManagedGroup → gmap string string → option Error;
  ValidateUpdateRequest :
    pbs.UpdateManagedGroupRequest → gmap string string → string → option Error;
  ValidateDeleteRequest : gmap string string → string → string → option Error;
  (* package bexpr *)
  CreateEvaluator : string → option Error;
  (* package errors *)
  IsNotFoundError : Error → bool;
  (* package oidc *)
  NewManagedGroup :
    string → string → list oidcopt.Option_ → Res oidc.ManagedGroup;
  (* the repository *)
  oidcRepoFn : option Error;
  LookupManagedGroup : St → string → Res (option oidc.ManagedGroup);
  LookupAuthMethod : St → string → Res (option oidc.AuthMethod);
  CreateManagedGroup :
    St → string → oidc.ManagedGroup → Res (option oidc.ManagedGroup) * St;
  UpdateManagedGroup :
    St → string → oidc.ManagedGroup → N → list string →
    Res (option oidc.ManagedGroup * Z) * St;
  DeleteManagedGroup : St → string → string → Res Z * St;
  ListManagedGroups : St → string → Res (list oidc.ManagedGroup)
}.

Arguments SubtypeFromId {St OF Flt}.
Arguments Verify {St OF Flt}.
Arguments FetchActionSetForId {St OF Flt}.
Arguments FetchOutputFields {St OF Flt}.
Arguments SelfOrDefaults {St OF Flt}.
Arguments Has {St OF Flt}.
Arguments ValidId {St OF Flt}.
Arguments Translate {St OF Flt}.
Arguments MaskContains {St OF Flt}.
Arguments StructToProto {St OF Flt}.
Arguments StructToProtoPartial {St OF Flt}.
Arguments ProtoToStruct {St OF Flt}.
Arguments NewFilter {St OF Flt}.
Arguments Match {St OF Flt}.
Arguments ValidateGetRequest {St OF Flt}.
Arguments ValidateCreateRequest {St OF Flt}.
Arguments ValidateUpdateRequest {St OF Flt}.
Arguments ValidateDeleteRequest {St OF Flt}.
Arguments CreateEvaluator {St OF Flt}.
Arguments IsNotFoundError {St OF Flt}.
Arguments NewManagedGroup {St OF Flt}.
Arguments oidcRepoFn {St OF Flt}.
Arguments LookupManagedGroup {St OF Flt}.
Arguments LookupAuthMethod {St OF Flt}.
Arguments CreateManagedGroup {St OF Flt}.
Arguments UpdateManagedGroup {St OF Flt}.
Arguments DeleteManagedGroup {St OF Flt}.
Arguments ListManagedGroups {St OF Flt}.

(** Modelled from the spec: [handlers.Option] and [handlers.GetOpts] are
    declared in package [handlers]; the options carry the requested output
    fields, the scope and the authorized actions of the projector
    (spec 4.4), and are applied in order to the default option record. *)
Module handlers.
Inductive Option_ (OF : Type) :=
| WithOutputFields (f : OF)
| WithScope (s : option pb.ScopeInfo)
| WithAuthorizedActions (acts : list string).
Arguments WithOutputFields {OF} f.
Arguments WithScope {OF} s.
Arguments WithAuthorizedActions {OF} acts.

Record options (OF : Type) := {
  withOutputFields : option OF;
  withScope : option pb.ScopeInfo;
  withAuthorizedActions : list string
}.
Arguments withOutputFields {OF}.
Arguments withScope {OF}.
Arguments withAuthorizedActions {OF}.

Definition getDefaultOptions {OF} : options OF :=
  {| withOutputFields := None; withScope := None; withAuthorizedActions := [] |}.

Definition apply {OF} (o : options OF) (opt : Option_ OF) : options OF :=
  match opt with
  | WithOutputFields f =>
      {| withOutputFields := Some f; withScope := withScope o;
         withAuthorizedActions := withAuthorizedActions o |}
  | WithScope s =>
      {| withOutputFields := withOutputFields o; withScope := s;
         withAuthorizedActions := withAuthorizedActions o |}
  | WithAuthorizedActions acts =>
      {| withOutputFields := withOutputFields o; withScope := withScope o;
         withAuthorizedActions := acts |}
  end.

Definition GetOpts {OF} (opt : list (Option_ OF)) : options OF :=
  foldl apply getDefaultOptions opt.
End handlers.

(** Assignments to the type and to the attributes of the message under
    construction. *)
Module pbset.
Definition setType (t : string) (m : pb.ManagedGroup) : pb.ManagedGroup :=
  {| pb.Id := pb.Id m; pb.AuthMethodId := pb.AuthMethodId m;
     pb.Scope := pb.Scope m; pb.Name := pb.Name m;
     pb.Description := pb.Description m; pb.CreatedTime := pb.CreatedTime m;
     pb.UpdatedTime := pb.UpdatedTime m; pb.Version := pb.Version m;
     pb.Type_ := t; pb.Attributes := pb.Attributes m;
     pb.AuthorizedActions := pb.AuthorizedActions m |}.

Definition setAttributes (st : option structpb.Struct) (m : pb.ManagedGroup) :
  pb.ManagedGroup :=
  {| pb.Id := pb.Id m; pb.AuthMethodId := pb.AuthMethodId m;
     pb.Scope := pb.Scope m; pb.Name := pb.Name m;
     pb.Description := pb.Description m; pb.CreatedTime := pb.CreatedTime m;
     pb.UpdatedTime := pb.UpdatedTime m; pb.Version := pb.Version m;
     pb.Type_ := pb.Type_ m; pb.Attributes := st;
     pb.AuthorizedActions := pb.AuthorizedActions m |}.
End pbset.

(** ** Panicking computations *)

Definition obind {A B} (c : outcome A) (k : A → outcome B) : outcome B :=
  match c with
  | Done a => k a
  | Panic => Panic
  end.

Notation "'let?' x := c 'in' k" := (obind c (fun x => k))
  (at level 10, x name, c at level 200, k at level 200).

(** Getters of the interface [auth.ManagedGroup]: a call through a nil
    interface, or on a nil [*oidc.ManagedGroup], panics. *)
Definition deref (in_ : option ManagedGroup) : outcome oidc.ManagedGroup :=
  match in_ with
  | Some (OidcGroup (Some g)) | Some (OtherGroup g) => Done g
  | Some (OidcGroup None) | None => Panic
  end.

Definition GetPublicId (in_ : option ManagedGroup) : outcome string :=
  let? g := deref in_ in Done (oidc.PublicId g).

Definition GetAuthMethodId (in_ : option ManagedGroup) : outcome string :=
  let? g := deref in_ in Done (oidc.AuthMethodId g).

Definition GetDescription (in_ : option ManagedGroup) : outcome string :=
  let? g := deref in_ in Done (oidc.Description g).

Definition GetName (in_ : option ManagedGroup) : outcome string :=
  let? g := deref in_ in Done (oidc.Name g).

Definition GetCreateTime (in_ : option ManagedGroup) : outcome (option Timestamp) :=
  let? g := deref in_ in Done (oidc.CreateTime g).

Definition GetUpdateTime (in_ : option ManagedGroup) : outcome (option Timestamp) :=
  let? g := deref in_ in Done (oidc.UpdateTime g).

Definition GetVersion (in_ : option ManagedGroup) : outcome N :=
  let? g := deref in_ in Done (oidc.Version g).

Definition GetFilter (i : option oidc.ManagedGroup) : outcome string :=
  match i with
  | Some g => Done (oidc.Filter g)
  | None => Panic
  end.

(** The wrapper of an optional string: present iff the string is not empty. *)
Definition nonEmpty (s : string) : option string :=
  if decide (s = "") then None else Some s.

(** ** The output projector *)

Section Projector.
Context {St OF Flt : Type} (E : Env St OF Flt).

(** [toProto]. Error messages are kept as their format strings. *)
Definition toProto (in_ : option ManagedGroup)
    (opt : list (handlers.Option_ OF)) : outcome (Res pb.ManagedGroup) :=
  let opts := handlers.GetOpts opt in
  match handlers.withOutputFields opts with
  | None =>
      Done (Err (ApiErrorWithCodeAndMessage codes.Internal
                   "output fields not found when building managed group proto"))
  | Some outputFields =>
      let has := Has E outputFields in
      let? id := (if has globals.IdField then GetPublicId in_ else Done "") in
      let? amId := (if has globals.AuthMethodIdField
                then GetAuthMethodId in_ else Done "") in
      let? desc := (if has globals.DescriptionField
                then let? d := GetDescription in_ in Done (nonEmpty d)
                else Done None) in
      let? name := (if has globals.NameField
                then let? n := GetName in_ in Done (nonEmpty n)
                else Done None) in
      let? created := (if has globals.CreatedTimeField
                   then GetCreateTime in_ else Done None) in
      let? updated := (if has globals.UpdatedTimeField
                   then GetUpdateTime in_ else Done None) in
      let? version := (if has globals.VersionField
                   then GetVersion in_ else Done 0%N) in
      let scope :=
        if has globals.ScopeField then handlers.withScope opts else None in
      let acts :=
        if has globals.AuthorizedActionsField
        then handlers.withAuthorizedActions opts else [] in
      let out :=
        {| pb.Id := id; pb.AuthMethodId := amId; pb.Scope := scope;
           pb.Name := name; pb.Description := desc;
           pb.CreatedTime := created; pb.UpdatedTime := updated;
           pb.Version := version; pb.Type_ := ""; pb.Attributes := None;
           pb.AuthorizedActions := acts |} in
      match in_ with
      | Some (OidcGroup i) =>
          let out :=
            if has globals.TypeField
            then pbset.setType (auth.String auth.OidcSubtype) out else out in
          if negb (has globals.AttributesField) then Done (Ok out)
          else
            let? f := GetFilter i in
            match ProtoToStruct E {| pb.Filter := f |} with
            | Err err =>
                Done (Err (ApiErrorWithCodeAndMessage codes.Internal
                             "failed building oidc attribute struct: %v"))
            | Ok st => Done (Ok (pbset.setAttributes (Some st) out))
            end
      | _ => Done (Ok out)
      end
  end.

(** The fields of a wire message that carry a value, by name: a field that
    was never assigned still has the zero value of its type. *)
Definition populated (m : pb.ManagedGroup) : list string :=
  (if decide (pb.Id m = "") then [] else [globals.IdField]) ++
  (if decide (pb.AuthMethodId m = "") then [] else [globals.AuthMethodIdField]) ++
  (if pb.Description m is Some _ then [globals.DescriptionField] else []) ++
  (if pb.Name m is Some _ then [globals.NameField] else []) ++
  (if pb.CreatedTime m is Some _ then [globals.CreatedTimeField] else []) ++
  (if pb.UpdatedTime m is Some _ then [globals.UpdatedTimeField] else []) ++
  (if decide (pb.Version m = 0%N) then [] else [globals.VersionField]) ++
  (if pb.Scope m is Some _ then [globals.ScopeField] else []) ++
  (if pb.AuthorizedActions m is [] then [] else [globals.AuthorizedActionsField]) ++
  (if decide (pb.Type_ m = "") then [] else [globals.TypeField]) ++
  (if pb.Attributes m is Some _ then [globals.AttributesField] else []).

End Projector.

(** ** The world the handlers run in *)

Record World (St : Type) := {
  store : St;
  trace : list Event
}.
Arguments store {St}.
Arguments trace {St}.

Definition M (St A : Type) : Type := World St → outcome A * World St.

Definition ret {St A} (a : A) : M St A := λ w, (Done a, w).

Definition bind {St A B} (c : M St A) (k : A → M St B) : M St B :=
  λ w, match c w with
       | (Done a, w') => k a w'
       | (Panic, w') => (Panic, w')
       end.

Definition panic {St A} : M St A := λ w, (Panic, w).

Definition liftO {St A} (c : outcome A) : M St A := λ w, (c, w).

Definition log {St} (w : World St) (ev : Event) : World St :=
  {| store := store w; trace := trace w ++ [ev] |}.

Notation "'let*' x := c 'in' k" := (bind c (fun x => k))
  (at level 10, x name, c at level 200, k at level 200).

Definition setError (err : Error) (res : VerifyResults) : VerifyResults :=
  {| vrError := Some err; vrScope := vrScope res; vrUserId := vrUserId res |}.

Definition setId (id : string) (res : perms.Resource) : perms.Resource :=
  {| perms.ScopeId := perms.ScopeId res; perms.Id := id;
     perms.Type_ := perms.Type_ res; perms.Pin := perms.Pin res |}.

(** [authResults.Scope.GetId()], a nil-safe getter. *)
Definition Scope_GetId (res : VerifyResults) : string :=
  from_option pb.scId "" (vrScope res).

(** ** The service *)

Section Service.
Context {St OF Flt : Type} (E : Env St OF Flt).

(** Calls to the collaborators, each leaving its entry in the trace. *)
Definition repoFn : M St (option Error) :=
  λ w, (Done (oidcRepoFn E), log w EvRepoFn).

Definition repoLookupManagedGroup (id : string) :
  M St (Res (option oidc.ManagedGroup)) :=
  λ w, (Done (LookupManagedGroup E (store w) id),
        log w (EvLookupManagedGroup id)).

Definition repoLookupAuthMethod (id : string) :
  M St (Res (option oidc.AuthMethod)) :=
  λ w, (Done (LookupAuthMethod E (store w) id),
        log w (EvLookupAuthMethod id)).

Definition repoListManagedGroups (authMethodId : string) :
  M St (Res (list oidc.ManagedGroup)) :=
  λ w, (Done (ListManagedGroups E (store w) authMethodId),
        log w (EvListManagedGroups authMethodId)).

Definition repoCreateManagedGroup (scopeId : string) (mg : oidc.ManagedGroup) :
  M St (Res (option oidc.ManagedGroup)) :=
  λ w, let (r, st) := CreateManagedGroup E (store w) scopeId mg in
       (Done r, {| store := st;
                   trace := trace w ++ [EvCreateManagedGroup scopeId mg] |}).

Definition repoUpdateManagedGroup (scopeId : string) (mg : oidc.ManagedGroup)
    (version : N) (dbMask : list string) :
  M St (Res (option oidc.ManagedGroup * Z)) :=
  λ w, let (r, st) := UpdateManagedGroup E (store w) scopeId mg version dbMask in
       (Done r,
        {| store := st;
           trace := trace w ++ [EvUpdateManagedGroup scopeId mg version dbMask] |}).

Definition repoDeleteManagedGroup (scopeId id : string) : M St (Res Z) :=
  λ w, let (r, st) := DeleteManagedGroup E (store w) scopeId id in
       (Done r, {| store := st;
                   trace := trace w ++ [EvDeleteManagedGroup scopeId id] |}).

Definition authVerify (opts : list authopt.Option_) : M St VerifyResults :=
  λ w, (Done (Verify E opts), log w (EvVerify opts)).

(** [getFromRepo]. *)
Definition getFromRepo (id : string) : M St (Res (option ManagedGroup)) :=
  match SubtypeFromId E id with
  | auth.OidcSubtype =>
      let* r := repoFn in
      match r with
      | Some err => ret (Err err)
      | None =>
          let* l := repoLookupManagedGroup id in
          match l with
          | Err err =>
              if IsNotFoundError E err
              then ret (Err (NotFoundErrorf "ManagedGroup %q doesn't exist."))
              else ret (Err err)
          | Ok mg => ret (Ok (Some (OidcGroup mg)))
          end
      end
  | _ => ret (Err (NotFoundErrorf "Unrecognized id."))
  end.

(** [createOidcInRepo]. When the attributes cannot be decoded the function
    returns before it reads them. *)
Definition createOidcInRepo (am : option oidc.AuthMethod)
    (item : option pb.ManagedGroup) : M St (Res (option oidc.ManagedGroup)) :=
  let op := "managed_groups.(Service).createOidcInRepo" in
  match item with
  | None => ret (Err (DomainError errors.InvalidParameter op "missing item"))
  | Some it =>
      let opts :=
        (if pb.Name it is Some n then [oidcopt.WithName n] else []) ++
        (if pb.Description it is Some d then [oidcopt.WithDescription d] else []) in
      match StructToProto E (pb.Attributes it) with
      | Err _ =>
          ret (Err (InvalidArgumentErrorf "Error in provided request."
                      {[ "attributes" :=
                           "Attribute fields do not match the expected format." ]}))
      | Ok attrs =>
          match am with
          | None => panic
          | Some a =>
              match NewManagedGroup E (oidc.amPublicId a) (pb.Filter attrs) opts with
              | Err _ =>
                  ret (Err (ApiErrorWithCodeAndMessage codes.Internal
                              "Unable to build user for creation: %v."))
              | Ok mg =>
                  let* r := repoFn in
                  match r with
                  | Some err => ret (Err err)
                  | None =>
                      let* out := repoCreateManagedGroup (oidc.amScopeId a) mg in
                      match out with
                      | Err err =>
                          ret (Err (Wrap err op (Some "unable to create managed group")))
                      | Ok None =>
                          ret (Err (ApiErrorWithCodeAndMessage codes.Internal
                                      "Unable to create managed group but no error returned from repository."))
                      | Ok (Some o) => ret (Ok (Some o))
                      end
                  end
              end
          end
      end
  end.

(** [createInRepo]. *)
Definition createInRepo (am : option oidc.AuthMethod)
    (item : option pb.ManagedGroup) : M St (Res (option ManagedGroup)) :=
  let op := "managed_groups.(Service).createInRepo" in
  match item with
  | None => ret (Err (DomainError errors.InvalidParameter op "missing item"))
  | Some _ =>
      match am with
      | None => panic
      | Some a =>
          match SubtypeFromId E (oidc.amPublicId a) with
          | auth.OidcSubtype =>
              let* r := createOidcInRepo am item in
              match r with
              | Err err => ret (Err (Wrap err op None))
              | Ok None =>
                  ret (Err (ApiErrorWithCodeAndMessage codes.Internal
                              "Unable to create managed group but no error returned from repository."))
              | Ok (Some o) => ret (Ok (Some (OidcGroup (Some o))))
              end
          | _ => ret (Ok None)
          end
      end
  end.

(** [updateOidcInRepo]. The group handed to the repository is the zero group
    of [oidc.AllocManagedGroup] with the id, and the name, description and
    filter of the item, assigned. *)
Definition updateOidcInRepo (scopeId amId id : string) (mask : list string)
    (item : option pb.ManagedGroup) : M St (Res (option oidc.ManagedGroup)) :=
  let op := "managed_groups.(Service).updateOidcInRepo" in
  match item with
  | None => ret (Err (DomainError errors.InvalidParameter op "nil managed group."))
  | Some it =>
      let name := if pb.Name it is Some n then n else "" in
      let description := if pb.Description it is Some d then d else "" in
      let decoded :=
        match pb.Attributes it with
        | Some apiAttr =>
            match StructToProto E (Some apiAttr) with
            | Err _ =>
                Err (InvalidArgumentErrorf "Error in provided request."
                       {[ globals.AttributesField :=
                            "Attribute fields do not match the expected format." ]})
            | Ok attrs => Ok (pb.Filter attrs)
            end
        | None => Ok ""
        end in
      match decoded with
      | Err err => ret (Err err)
      | Ok filter =>
          let mg :=
            {| oidc.PublicId := id; oidc.AuthMethodId := "";
               oidc.Name := name; oidc.Description := description;
               oidc.CreateTime := None; oidc.UpdateTime := None;
               oidc.Version := 0%N; oidc.Filter := filter |} in
          let version := pb.Version it in
          let dbMask := Translate E mask in
          if decide (length dbMask = 0) then
            ret (Err (InvalidArgumentErrorf
                        "No valid fields included in the update mask."
                        {[ "update_mask" :=
                             "No valid fields provided in the update mask." ]}))
          else
            let* r := repoFn in
            match r with
            | Some err => ret (Err (Wrap err op None))
            | None =>
                let* u := repoUpdateManagedGroup scopeId mg version dbMask in
                match u with
                | Err err =>
                    ret (Err (Wrap err op (Some "unable to update managed group")))
                | Ok (out, rowsUpdated) =>
                    if decide (rowsUpdated = 0%Z) then
                      ret (Err (NotFoundErrorf
                                  "Managed Group %q doesn't exist or incorrect version provided."))
                    else ret (Ok out)
                end
            end
      end
  end.

(** [updateInRepo]; the getters of the request are nil-safe. *)
Definition updateInRepo (scopeId authMethodId : string)
    (req : option pbs.UpdateManagedGroupRequest) :
  M St (Res (option ManagedGroup)) :=
  let op := "managed_groups.(Service).updateInRepo" in
  let id := from_option pbs.uId "" req in
  match SubtypeFromId E id with
  | auth.OidcSubtype =>
      let* r := updateOidcInRepo scopeId authMethodId id
                  (GetPaths (req ≫= pbs.uUpdateMask)) (req ≫= pbs.uItem) in
      match r with
      | Err err => ret (Err (Wrap err op None))
      | Ok None =>
          ret (Err (ApiErrorWithCodeAndMessage codes.Internal
                      "Unable to update managed group but no error returned from repository."))
      | Ok (Some mg) => ret (Ok (Some (OidcGroup (Some mg))))
      end
  | _ => ret (Ok None)
  end.

(** [deleteFromRepo]. *)
Definition deleteFromRepo (scopeId id : string) : M St (Res bool) :=
  let op := "managed_groups.(Service).deleteFromRepo" in
  match SubtypeFromId E id with
  | auth.OidcSubtype =>
      let* r := repoFn in
      match r with
      | Some iErr => ret (Err iErr)
      | None =>
          let* d := repoDeleteManagedGroup scopeId id in
          match d with
          | Err err =>
              if IsNotFoundError E err then ret (Ok false)
              else ret (Err (Wrap err op None))
          | Ok rows => ret (Ok (bool_decide (rows > 0)%Z))
          end
      end
  | _ => ret (Ok (bool_decide (0 > 0)%Z))
  end.

(** [listFromRepo]: every group of the repository's list is appended as an
    [auth.ManagedGroup]. *)
Definition listFromRepo (authMethodId : string) :
  M St (Res (list (option ManagedGroup))) :=
  let op := "managed_groups.(Service).listFromRepo" in
  match SubtypeFromId E authMethodId with
  | auth.OidcSubtype =>
      let* r := repoFn in
      match r with
      | Some err => ret (Err (Wrap err op None))
      | None =>
          let* l := repoListManagedGroups authMethodId in
          match l with
          | Err err => ret (Err (Wrap err op None))
          | Ok oidcl => ret (Ok ((λ a, Some (OidcGroup (Some a))) <$> oidcl))
          end
      end
  | _ => ret (Ok [])
  end.

(** [parentAndAuthResult]. The first stage resolves the parent id and the
    options; the second looks the parent up; [authMeth.GetScopeId()] on a nil
    [auth.AuthMethod] panics. *)
Definition parentAndAuthResult (id : string) (a : action.Type_) :
  M St (option oidc.AuthMethod * VerifyResults) :=
  let res := emptyVerifyResults in
  let* r := repoFn in
  match r with
  | Some err => ret (None, setError err res)
  | None =>
      let opts := [authopt.WithType resource.ManagedGroup; authopt.WithAction a] in
      let* parent :=
        match a with
        | action.List | action.Create => ret (Ok (id, opts))
        | _ =>
            match SubtypeFromId E id with
            | auth.OidcSubtype =>
                let* l := repoLookupManagedGroup id in
                match l with
                | Err err => ret (Err err)
                | Ok None => ret (Err NotFoundError)
                | Ok (Some acct) =>
                    ret (Ok (oidc.AuthMethodId acct, opts ++ [authopt.WithId id]))
                end
            | _ => ret (Ok ("", opts ++ [authopt.WithId id]))
            end
        end in
      match parent with
      | Err err => ret (None, setError err res)
      | Ok (parentId, opts) =>
          let* found :=
            match SubtypeFromId E parentId with
            | auth.OidcSubtype =>
                let* l := repoLookupAuthMethod parentId in
                match l with
                | Err err => ret (Err err)
                | Ok None => ret (Err NotFoundError)
                | Ok (Some am) => ret (Ok (Some am))
                end
            | _ => ret (Ok None)
            end in
          match found with
          | Err err => ret (None, setError err res)
          | Ok None => panic
          | Ok (Some authMeth) =>
              let* v := authVerify
                          (opts ++ [authopt.WithScopeId (oidc.amScopeId authMeth);
                                    authopt.WithPin parentId]) in
              ret (Some authMeth, v)
          end
      end
  end.

(** ** Validators *)

Definition validateGetRequest (req : option pbs.GetManagedGroupRequest) :
  option Error :=
  let op := "managed_groups.validateGetRequest" in
  match req with
  | None => Some (DomainError errors.InvalidParameter op "nil request")
  | Some r => ValidateGetRequest E ∅ (pbs.gId r) oidc.ManagedGroupPrefix
  end.

(** The message [attrs] a validator reads once [handlers.StructToProto] has
    returned: the validator goes on after a failed call, with whatever the
    call left in the message. *)
Definition decodedAttrs (st : option structpb.Struct) :
  pb.OidcManagedGroupAttributes :=
  match StructToProto E st with
  | Ok attrs => attrs
  | Err _ => StructToProtoPartial E st
  end.

Definition createBadFields (item : option pb.ManagedGroup) : gmap string string :=
  let badFields : gmap string string := ∅ in
  let badFields :=
    if decide (GetItem_AuthMethodId item = "")
    then <[globals.AuthMethodIdField := "This field is required."]> badFields
    else badFields in
  match SubtypeFromId E (GetItem_AuthMethodId item) with
  | auth.OidcSubtype =>
      let badFields :=
        if decide (GetItem_Type item ≠ "" ∧
                   GetItem_Type item ≠ auth.String auth.OidcSubtype)
        then <[globals.TypeField := "Doesn't match the parent resource's type."]> badFields
        else badFields in
      let decoded := StructToProto E (GetItem_Attributes item) in
      let badFields :=
        if decoded is Err _
        then <[globals.AttributesField :=
                 "Attribute fields do not match the expected format."]> badFields
        else badFields in
      let attrs := decodedAttrs (GetItem_Attributes item) in
      if decide (pb.Filter attrs = "")
      then <[attrFilterField := "This field is required."]> badFields
      else
        if CreateEvaluator E (pb.Filter attrs) is Some _
        then <[attrFilterField :=
                 "Error evaluating submitted filter expression: %v."]> badFields
        else badFields
  | _ =>
      <[globals.AuthMethodIdField := "Unknown auth method type from ID."]> badFields
  end.

Definition validateCreateRequest (req : option pbs.CreateManagedGroupRequest) :
  option Error :=
  let op := "managed_groups.validateCreateRequest" in
  match req with
  | None => Some (DomainError errors.InvalidParameter op "nil request")
  | Some r => ValidateCreateRequest E (pbs.cItem r) (createBadFields (pbs.cItem r))
  end.

Definition updateBadFields (req : pbs.UpdateManagedGroupRequest) :
  gmap string string :=
  let badFields : gmap string string := ∅ in
  let item := pbs.uItem req in
  match SubtypeFromId E (pbs.uId req) with
  | auth.OidcSubtype =>
      let badFields :=
        if decide (GetItem_Type item ≠ "" ∧
                   GetItem_Type item ≠ auth.String auth.OidcSubtype)
        then <[globals.TypeField := "Cannot modify the resource type."]> badFields
        else badFields in
      let decoded := StructToProto E (GetItem_Attributes item) in
      let badFields :=
        if decoded is Err _
        then <[globals.AttributesField :=
                 "Attribute fields do not match the expected format."]> badFields
        else badFields in
      let attrs := decodedAttrs (GetItem_Attributes item) in
      if MaskContains E (GetPaths (pbs.uUpdateMask req)) attrFilterField then
        if decide (pb.Filter attrs = "")
        then <[attrFilterField := "Field cannot be empty."]> badFields
        else
          if CreateEvaluator E (pb.Filter attrs) is Some _
          then <[attrFilterField :=
                   "Error evaluating submitted filter expression: %v."]> badFields
          else badFields
      else badFields
  | _ => badFields
  end.

Definition validateUpdateRequest (req : option pbs.UpdateManagedGroupRequest) :
  option Error :=
  let op := "managed_groups.validateUpdateRequest" in
  match req with
  | None => Some (DomainError errors.InvalidParameter op "nil request")
  | Some r => ValidateUpdateRequest E r (updateBadFields r) oidc.ManagedGroupPrefix
  end.

Definition validateDeleteRequest (req : option pbs.DeleteManagedGroupRequest) :
  option Error :=
  let op := "managed_groups.validateDeleteRequest" in
  match req with
  | None => Some (DomainError errors.InvalidParameter op "nil request")
  | Some r => ValidateDeleteRequest E ∅ (pbs.dId r) oidc.ManagedGroupPrefix
  end.

Definition validateListRequest (req : option pbs.ListManagedGroupsRequest) :
  option Error :=
  let op := "managed_groups.validateListRequest" in
  match req with
  | None => Some (DomainError errors.InvalidParameter op "nil request")
  | Some r =>
      let badFields : gmap string string := ∅ in
      let badFields :=
        if negb (ValidId E (pbs.lAuthMethodId r) oidc.AuthMethodPrefix)
        then <[globals.AuthMethodIdField := "Invalid formatted identifier."]> badFields
        else badFields in
      let badFields :=
        if NewFilter E (pbs.lFilter r) is Err _
        then <[globals.FilterField := "This field could not be parsed. %v"]> badFields
        else badFields in
      if decide (0 < size badFields)
      then Some (InvalidArgumentErrorf "Error in provided request." badFields)
      else None
  end.

(** ** Handlers *)

(** The request context, as far as [requests.OutputFields] reads it. *)
Record Ctx := { ctxOutputFields : option OF }.

(** The options of the projector for a single item, as the handlers of Get,
    Create and Update build them. *)
Definition outputOpts (outputFields : OF) (authResults : VerifyResults)
    (mg : option ManagedGroup) : outcome (list (handlers.Option_ OF)) :=
  let opts := [handlers.WithOutputFields outputFields] in
  let opts :=
    if Has E outputFields globals.ScopeField
    then opts ++ [handlers.WithScope (vrScope authResults)] else opts in
  if Has E outputFields globals.AuthorizedActionsField then
    let? id := GetPublicId mg in
    Done (opts ++
          [handlers.WithAuthorizedActions
             (action.Strings
                (FetchActionSetForId E authResults id
                   (IdActions (SubtypeFromId E id)) None))])
  else Done opts.

(** The end of [GetManagedGroup], [CreateManagedGroup] and
    [UpdateManagedGroup], which the three repeat word for word: the output
    fields are taken from the request context and the item is projected. *)
Definition buildItem (op : string) (ctx : Ctx) (authResults : VerifyResults)
    (mg : option ManagedGroup) : outcome (Res pb.ManagedGroup) :=
  match ctxOutputFields ctx with
  | None => Done (Err (DomainError errors.Internal op "no request context found"))
  | Some outputFields =>
      let? opts := outputOpts outputFields authResults mg in
      toProto E mg opts
  end.

(** The authorized actions of one listed group, as names. *)
Definition listAuthorizedActions (authResults : VerifyResults)
    (res : perms.Resource) (id : string) : list string :=
  action.Strings
    (FetchActionSetForId E authResults id (IdActions (SubtypeFromId E id))
       (Some (setId id res))).

(** The options of the projector for one listed group. *)
Definition listOutputOpts (authResults : VerifyResults) (res : perms.Resource)
    (authorizedActions : list string) : list (handlers.Option_ OF) :=
  let outputFields :=
    SelfOrDefaults E (FetchOutputFields E authResults res action.List)
      (vrUserId authResults) in
  [handlers.WithOutputFields outputFields] ++
  (if Has E outputFields globals.ScopeField
   then [handlers.WithScope (vrScope authResults)] else []) ++
  (if Has E outputFields globals.AuthorizedActionsField
   then [handlers.WithAuthorizedActions authorizedActions] else []).

(** The loop of [ListManagedGroups] over the groups of the repository;
    [res] is the resource whose id the loop overwrites at every turn. *)
Fixpoint listLoop (authResults : VerifyResults) (filter : Flt)
    (res : perms.Resource) (ul : list (option ManagedGroup))
    (finalItems : list pb.ManagedGroup) : outcome (Res (list pb.ManagedGroup)) :=
  match ul with
  | [] => Done (Ok finalItems)
  | mg :: rest =>
      let? id := GetPublicId mg in
      let authorizedActions := listAuthorizedActions authResults res id in
      let res := setId id res in
      if decide (length authorizedActions = 0)
      then listLoop authResults filter res rest finalItems
      else
        let? r := toProto E mg (listOutputOpts authResults res authorizedActions) in
        match r with
        | Err err => Done (Err err)
        | Ok item =>
            if Match E filter item
            then listLoop authResults filter res rest (finalItems ++ [item])
            else listLoop authResults filter res rest finalItems
        end
  end.

(** [ListManagedGroups]. *)
Definition ServiceListManagedGroups (ctx : Ctx)
    (req : option pbs.ListManagedGroupsRequest) :
  M St (Res pbs.ListManagedGroupsResponse) :=
  match validateListRequest req with
  | Some err => ret (Err err)
  | None =>
      let authMethodId := from_option pbs.lAuthMethodId "" req in
      let* pr := parentAndAuthResult authMethodId action.List in
      let authResults := pr.2 in
      match vrError authResults with
      | Some err => ret (Err err)
      | None =>
          let* l := listFromRepo authMethodId in
          match l with
          | Err err => ret (Err err)
          | Ok ul =>
              if decide (length ul = 0)
              then ret (Ok {| pbs.Items := [] |})
              else
                match NewFilter E (from_option pbs.lFilter "" req) with
                | Err err => ret (Err err)
                | Ok filter =>
                    match vrScope authResults with
                    | None => panic
                    | Some scope =>
                        let res :=
                          {| perms.ScopeId := pb.scId scope; perms.Id := "";
                             perms.Type_ := resource.ManagedGroup;
                             perms.Pin := authMethodId |} in
                        let* r := liftO (listLoop authResults filter res ul []) in
                        match r with
                        | Err err => ret (Err err)
                        | Ok finalItems => ret (Ok {| pbs.Items := finalItems |})
                        end
                    end
                end
          end
      end
  end.

(** [GetManagedGroup]. *)
Definition ServiceGetManagedGroup (ctx : Ctx)
    (req : option pbs.GetManagedGroupRequest) :
  M St (Res pbs.GetManagedGroupResponse) :=
  let op := "managed_groups.(Service).GetManagedGroup" in
  match validateGetRequest req with
  | Some err => ret (Err err)
  | None =>
      let id := from_option pbs.gId "" req in
      let* pr := parentAndAuthResult id action.Read in
      let authResults := pr.2 in
      match vrError authResults with
      | Some err => ret (Err err)
      | None =>
          let* g := getFromRepo id in
          match g with
          | Err err => ret (Err err)
          | Ok mg =>
              let* r := liftO (buildItem op ctx authResults mg) in
              match r with
              | Err err => ret (Err err)
              | Ok item => ret (Ok {| pbs.gItem := item |})
              end
          end
      end
  end.

(** [CreateManagedGroup]. *)
Definition ServiceCreateManagedGroup (ctx : Ctx)
    (req : option pbs.CreateManagedGroupRequest) :
  M St (Res pbs.CreateManagedGroupResponse) :=
  let op := "managed_groups.(Service).CreateManagedGroup" in
  match validateCreateRequest req with
  | Some err => ret (Err err)
  | None =>
      let item := req ≫= pbs.cItem in
      let* pr := parentAndAuthResult (GetItem_AuthMethodId item) action.Create in
      let authMeth := pr.1 in
      let authResults := pr.2 in
      match vrError authResults with
      | Some err => ret (Err err)
      | None =>
          let* c := createInRepo authMeth item in
          match c with
          | Err err => ret (Err err)
          | Ok mg =>
              let* r := liftO (buildItem op ctx authResults mg) in
              match r with
              | Err err => ret (Err err)
              | Ok item =>
                  ret (Ok {| pbs.crItem := item;
                             pbs.Uri := "managed-groups/" +:+ pb.Id item |})
              end
          end
      end
  end.

(** [UpdateManagedGroup]. *)
Definition ServiceUpdateManagedGroup (ctx : Ctx)
    (req : option pbs.UpdateManagedGroupRequest) :
  M St (Res pbs.UpdateManagedGroupResponse) :=
  let op := "managed_groups.(Service).UpdateManagedGroup" in
  match validateUpdateRequest req with
  | Some err => ret (Err err)
  | None =>
      let* pr := parentAndAuthResult (from_option pbs.uId "" req) action.Update in
      let authMeth := pr.1 in
      let authResults := pr.2 in
      match vrError authResults with
      | Some err => ret (Err err)
      | None =>
          match authMeth with
          | None => panic
          | Some am =>
              let* u := updateInRepo (Scope_GetId authResults)
                          (oidc.amPublicId am) req in
              match u with
              | Err err => ret (Err err)
              | Ok mg =>
                  let* r := liftO (buildItem op ctx authResults mg) in
                  match r with
                  | Err err => ret (Err err)
                  | Ok item => ret (Ok {| pbs.upItem := item |})
                  end
              end
          end
      end
  end.

(** [DeleteManagedGroup]: the boolean of [deleteFromRepo] is dropped and the
    response is nil. *)
Definition ServiceDeleteManagedGroup (ctx : Ctx)
    (req : option pbs.DeleteManagedGroupRequest) :
  M St (Res (option pbs.DeleteManagedGroupResponse)) :=
  match validateDeleteRequest req with
  | Some err => ret (Err err)
  | None =>
      let id := from_option pbs.dId "" req in
      let* pr := parentAndAuthResult id action.Delete in
      let authResults := pr.2 in
      match vrError authResults with
      | Some err => ret (Err err)
      | None =>
          let* d := deleteFromRepo (Scope_GetId authResults) id in
          match d with
          | Err err => ret (Err err)
          | Ok _ => ret (Ok None)
          end
      end
  end.

End Service.

(** ** The attribute codec *)

Module codec.
(** Modelled from the spec: [handlers.ProtoToStruct] and
    [handlers.StructToProto] live in package [handlers], outside this file.
    The Oidc attributes have the single field [filter] (spec 4.2): encoding
    writes it under its wire name, an empty filter being the default of its
    type and leaving no entry; decoding reads it back, takes an absent or
    null entry as the default, and rejects an entry of another kind and any
    entry under another name as malformed. Decoding does not evaluate the
    filter. *)
Definition malformed : Error :=
  DomainError errors.InvalidParameter "handlers.StructToProto"
    "attributes do not match the expected format".

Definition encode (attrs : pb.OidcManagedGroupAttributes) : structpb.Struct :=
  if decide (pb.Filter attrs = "") then ∅
  else {[ globals.FilterField := structpb.StringValue (pb.Filter attrs) ]}.

Definition ProtoToStruct (attrs : pb.OidcManagedGroupAttributes) :
  Res structpb.Struct :=
  Ok (encode attrs).

Definition StructToProto (st : option structpb.Struct) :
  Res pb.OidcManagedGroupAttributes :=
  match st with
  | None => Ok {| pb.Filter := "" |}
  | Some fields =>
      if decide (dom fields ⊆ ({[ globals.FilterField ]} : gset string)) then
        match fields !! globals.FilterField with
        | None | Some structpb.NullValue => Ok {| pb.Filter := "" |}
        | Some (structpb.StringValue s) => Ok {| pb.Filter := s |}
        | Some _ => Err malformed
        end
      else Err malformed
  end.

(** Modelled from the spec: the spec does not say what a failed decoding
    leaves in the message. This decoder has by then written the filter, when
    the entry under [filter] is a string, and nothing otherwise. *)
Definition StructToProtoPartial (st : option structpb.Struct) :
  pb.OidcManagedGroupAttributes :=
  match st ≫= (.!! globals.FilterField) with
  | Some (structpb.StringValue s) => {| pb.Filter := s |}
  | _ => {| pb.Filter := "" |}
  end.
End codec.

(** ** A concrete environment

    An in-memory repository, a policy engine driven by a table and the
    helpers of package [handlers], on which the handlers can be run. *)

Module inmem.

Record Store := {
  groups : list oidc.ManagedGroup;
  methods : list oidc.AuthMethod
}.

(** Modelled from the spec: [auth.SubtypeFromId] lives in package [auth],
    outside this file; an id is classified by its structural prefix
    (spec 4.1). *)
Definition subtypeFromId (id : string) : auth.Subtype :=
  if String.prefix "ampw" id || String.prefix "acctpw" id
  then auth.PasswordSubtype
  else if String.prefix oidc.AuthMethodPrefix id
          || String.prefix "acctoidc" id
          || String.prefix oidc.ManagedGroupPrefix id
  then auth.OidcSubtype
  else auth.UnknownSubtype.

(** Modelled from the spec: [handlers.ValidId] lives in package [handlers];
    an id is well formed for a prefix when it starts with the prefix and an
    underscore. *)
Definition validId (id prefix : string) : bool :=
  String.prefix (prefix +:+ "_") id.

(** Modelled from the spec: the mask manager of the Oidc subtype lives in
    package [handlers]; a wire path translates to the storage field it
    updates, and any other path is dropped (spec 4.3). *)
Definition translateOne (path : string) : option string :=
  if decide (path = "name") then Some "Name"
  else if decide (path = "description") then Some "Description"
  else if decide (path = attrFilterField) then Some "Filter"
  else None.

Definition translate (paths : list string) : list string :=
  omap translateOne paths.

Definition reject (msg : string) (badFields : gmap string string) : option Error :=
  if decide (0 < size badFields)
  then Some (handlers_errors.InvalidArgumentErrorf msg badFields) else None.

(** Modelled from the spec: the request validators of package [handlers]
    check the shape of the request only (spec 4.7): the id against the
    prefix, the presence of the item, of the update mask and of the version,
    and the fields the caller's own check reports. *)
Definition validateIdRequest (badFields : gmap string string) (id prefix : string) :
  option Error :=
  reject "Improperly formatted identifier."
    (if validId id prefix then badFields
     else <["id" := "Invalid formatted identifier."]> badFields).

Definition validateCreateRequest (item : option pb.ManagedGroup)
    (badFields : gmap string string) : option Error :=
  reject "Error in provided request."
    (if item is Some _ then badFields
     else <["item" := "This field is required."]> badFields).

Definition validateUpdateRequest (req : pbs.UpdateManagedGroupRequest)
    (badFields : gmap string string) (prefix : string) : option Error :=
  let badFields :=
    if validId (pbs.uId req) prefix then badFields
    else <["id" := "Improperly formatted identifier."]> badFields in
  let badFields :=
    if pbs.uUpdateMask req is Some _ then badFields
    else <["update_mask" :=
             "UpdateMask not provided but is required to update this resource."]>
           badFields in
  let badFields :=
    if decide (GetItem_Version (pbs.uItem req) = 0%N)
    then <["version" :=
             "Existing resource version is required for an update."]> badFields
    else badFields in
  reject "Error in provided request." badFields.

(** Modelled from the spec: [errors.IsNotFoundError] lives in package
    [errors]; an error is a not-found error when the domain error at the end
    of its chain carries the record-not-found code. *)
Fixpoint isNotFoundError (e : Error) : bool :=
  match e with
  | DomainError c _ _ => bool_decide (c = errors.RecordNotFound)
  | Wrap e' _ _ => isNotFoundError e'
  | ApiError _ _ _ => false
  end.

(** Modelled from the spec: [oidc.NewManagedGroup] lives in package [oidc];
    a group needs its auth method and a non-empty filter (spec 3). *)
Definition newManagedGroup (authMethodId filter : string)
    (opts : list oidcopt.Option_) : Res oidc.ManagedGroup :=
  if decide (authMethodId = "") then
    Err (DomainError errors.InvalidParameter "oidc.NewManagedGroup" "missing auth method id")
  else if decide (filter = "") then
    Err (DomainError errors.InvalidParameter "oidc.NewManagedGroup" "missing filter")
  else
    Ok (foldl
          (λ g o,
             match o with
             | oidcopt.WithName n =>
                 {| oidc.PublicId := oidc.PublicId g;
                    oidc.AuthMethodId := oidc.AuthMethodId g;
                    oidc.Name := n; oidc.Description := oidc.Description g;
                    oidc.CreateTime := oidc.CreateTime g;
                    oidc.UpdateTime := oidc.UpdateTime g;
                    oidc.Version := oidc.Version g; oidc.Filter := oidc.Filter g |}
             | oidcopt.WithDescription d =>
                 {| oidc.PublicId := oidc.PublicId g;
                    oidc.AuthMethodId := oidc.AuthMethodId g;
                    oidc.Name := oidc.Name g; oidc.Description := d;
                    oidc.CreateTime := oidc.CreateTime g;
                    oidc.UpdateTime := oidc.UpdateTime g;
                    oidc.Version := oidc.Version g; oidc.Filter := oidc.Filter g |}
             end)
          {| oidc.PublicId := ""; oidc.AuthMethodId := authMethodId;
             oidc.Name := ""; oidc.Description := "";
             oidc.CreateTime := None; oidc.UpdateTime := None;
             oidc.Version := 0%N; oidc.Filter := filter |}
          opts).

(** Modelled from the spec: the repository is an external collaborator
    (spec 6): lookups by id, an insert that assigns the id and version 1, an
    update that applies the masked fields when id and version match and
    reports the rows it changed, a delete that reports the rows it removed,
    and a listing by parent id. *)
Definition lookupManagedGroup (s : Store) (id : string) :
  Res (option oidc.ManagedGroup) :=
  Ok (find (λ g, bool_decide (oidc.PublicId g = id)) (groups s)).

Definition lookupAuthMethod (s : Store) (id : string) :
  Res (option oidc.AuthMethod) :=
  Ok (find (λ m, bool_decide (oidc.amPublicId m = id)) (methods s)).

Definition listManagedGroups (s : Store) (authMethodId : string) :
  Res (list oidc.ManagedGroup) :=
  Ok (filter (λ g, oidc.AuthMethodId g = authMethodId) (groups s)).

Definition freshId (s : Store) : string :=
  "mgoidc_" +:+ pretty (length (groups s)).

Definition createManagedGroup (s : Store) (scopeId : string)
    (mg : oidc.ManagedGroup) : Res (option oidc.ManagedGroup) * Store :=
  let out :=
    {| oidc.PublicId := freshId s; oidc.AuthMethodId := oidc.AuthMethodId mg;
       oidc.Name := oidc.Name mg; oidc.Description := oidc.Description mg;
       oidc.CreateTime := Some {| seconds := 1; nanos := 0 |};
       oidc.UpdateTime := Some {| seconds := 1; nanos := 0 |};
       oidc.Version := 1%N; oidc.Filter := oidc.Filter mg |} in
  (Ok (Some out), {| groups := groups s ++ [out]; methods := methods s |}).

Definition applyMask (dbMask : list string) (new old : oidc.ManagedGroup) :
  oidc.ManagedGroup :=
  {| oidc.PublicId := oidc.PublicId old;
     oidc.AuthMethodId := oidc.AuthMethodId old;
     oidc.Name := if bool_decide ("Name" ∈ dbMask) then oidc.Name new else oidc.Name old;
     oidc.Description :=
       if bool_decide ("Description" ∈ dbMask)
       then oidc.Description new else oidc.Description old;
     oidc.CreateTime := oidc.CreateTime old;
     oidc.UpdateTime := oidc.UpdateTime old;
     oidc.Version := (oidc.Version old + 1)%N;
     oidc.Filter :=
       if bool_decide ("Filter" ∈ dbMask) then oidc.Filter new else oidc.Filter old |}.

Definition matches (id : string) (version : N) (g : oidc.ManagedGroup) : bool :=
  bool_decide (oidc.PublicId g = id) && bool_decide (oidc.Version g = version).

Definition updateManagedGroup (s : Store) (scopeId : string)
    (mg : oidc.ManagedGroup) (version : N) (dbMask : list string) :
  Res (option oidc.ManagedGroup * Z) * Store :=
  match find (matches (oidc.PublicId mg) version) (groups s) with
  | Some old =>
      let new := applyMask dbMask mg old in
      (Ok (Some new, 1%Z),
       {| groups :=
            (λ g, if matches (oidc.PublicId mg) version g then new else g)
              <$> groups s;
          methods := methods s |})
  | None => (Ok (None, 0%Z), s)
  end.

Definition deleteManagedGroup (s : Store) (scopeId id : string) : Res Z * Store :=
  let kept := filter (λ g, oidc.PublicId g ≠ id) (groups s) in
  (Ok (Z.of_nat (length (groups s) - length kept)),
   {| groups := kept; methods := methods s |}).

(** The policy engine: every request is permitted in one scope, and a table
    gives the actions granted on each id. *)
Definition scope : pb.ScopeInfo :=
  {| pb.scId := "o_1"; pb.scType := "org"; pb.scName := "";
     pb.scDescription := ""; pb.scParentScopeId := "global" |}.

Definition verify (opts : list authopt.Option_) : VerifyResults :=
  {| vrError := None; vrScope := Some scope; vrUserId := "u_1" |}.

(** The environment: the output fields are the list of requested names, the
    list filter accepts every item; [validateId] is the validator of the
    requests that carry an id, [grants] the table of the policy engine. *)
Definition envWith
    (validateId : gmap string string → string → string → option Error)
    (grants : string → action.ActionSet → action.ActionSet) :
  Env Store (list string) unit :=
  {| SubtypeFromId := subtypeFromId;
     Verify := verify;
     FetchActionSetForId := λ _ id set _, grants id set;
     FetchOutputFields := λ _ _ _,
       [globals.IdField; globals.NameField; globals.VersionField;
        globals.TypeField; globals.AttributesField;
        globals.AuthorizedActionsField];
     SelfOrDefaults := λ f _, f;
     Has := λ f name, bool_decide (name ∈ f);
     ValidId := validId;
     Translate := translate;
     MaskContains := λ paths f, bool_decide (f ∈ paths);
     StructToProto := codec.StructToProto;
     StructToProtoPartial := codec.StructToProtoPartial;
     ProtoToStruct := codec.ProtoToStruct;
     NewFilter := λ _, Ok ();
     Match := λ _ _, true;
     ValidateGetRequest := validateId;
     ValidateCreateRequest := validateCreateRequest;
     ValidateUpdateRequest := validateUpdateRequest;
     ValidateDeleteRequest := validateId;
     CreateEvaluator := λ _, None;
     IsNotFoundError := isNotFoundError;
     NewManagedGroup := newManagedGroup;
     oidcRepoFn := None;
     LookupManagedGroup := lookupManagedGroup;
     LookupAuthMethod := lookupAuthMethod;
     CreateManagedGroup := createManagedGroup;
     UpdateManagedGroup := updateManagedGroup;
     DeleteManagedGroup := deleteManagedGroup;
     ListManagedGroups := listManagedGroups |}.

Definition env (grants : string → action.ActionSet → action.ActionSet) :
  Env Store (list string) unit :=
  envWith validateIdRequest grants.

(** Every action of the candidate set is granted. *)
Definition grantAll (id : string) (set : action.ActionSet) : action.ActionSet := set.

End inmem.


(** ** Vocabulary of the properties *)

Section Vocabulary.
Context {St OF Flt : Type} (E : Env St OF Flt).

(** The events a run added to the trace. *)
Definition added (w w' : World St) : list Event :=
  drop (length (trace w)) (trace w').

(** A computation that leaves the store as it found it, and adds to the
    trace no call that changes the repository. *)
Definition readOnly {A} (c : M St A) : Prop :=
  ∀ w r w', c w = (r, w') →
    store w' = store w ∧
    ∃ evs, trace w' = trace w ++ evs ∧ Forall (λ ev, isRepoMutation ev = false) evs.

(** An event that is neither a change of the repository nor a call of the
    policy engine. *)
Definition quiet (ev : Event) : Prop :=
  isRepoMutation ev = false ∧ isVerify ev = false.

(** The errors the handlers build for a missed update, an empty mask and a
    missing request context. *)
Definition notFoundOrVersion : Error :=
  NotFoundErrorf "Managed Group %q doesn't exist or incorrect version provided.".

Definition noValidFields : Error :=
  InvalidArgumentErrorf "No valid fields included in the update mask."
    {[ "update_mask" := "No valid fields provided in the update mask." ]}.

Definition noRequestContext (op : string) : Error :=
  DomainError errors.Internal op "no request context found".

(** The constant [op] of the Update and of the Create handler. *)
Definition opUpdate := "managed_groups.(Service).UpdateManagedGroup".
Definition opCreate := "managed_groups.(Service).CreateManagedGroup".

(** What [updateInRepo] answers once the repository has answered the
    conditional update. *)
Definition updateAnswer (u : Res (option oidc.ManagedGroup * Z)) :
  Res (option ManagedGroup) :=
  let op := "managed_groups.(Service).updateInRepo" in
  match u with
  | Err err =>
      Err (Wrap (Wrap err "managed_groups.(Service).updateOidcInRepo"
                   (Some "unable to update managed group")) op None)
  | Ok (out, rows) =>
      if decide (rows = 0%Z) then Err (Wrap notFoundOrVersion op None)
      else match out with
           | None =>
               Err (ApiErrorWithCodeAndMessage codes.Internal
                      "Unable to update managed group but no error returned from repository.")
           | Some mg => Ok (Some (OidcGroup (Some mg)))
           end
  end.

(** What [createInRepo] answers once the repository has answered the
    insert. *)
Definition createAnswer (c : Res (option oidc.ManagedGroup)) :
  Res (option ManagedGroup) :=
  let op := "managed_groups.(Service).createInRepo" in
  match c with
  | Err err =>
      Err (Wrap (Wrap err "managed_groups.(Service).createOidcInRepo"
                   (Some "unable to create managed group")) op None)
  | Ok None =>
      Err (Wrap (ApiErrorWithCodeAndMessage codes.Internal
                   "Unable to create managed group but no error returned from repository.")
             op None)
  | Ok (Some mg) => Ok (Some (OidcGroup (Some mg)))
  end.

(** What a handler answers from the result of its repository helper: the
    error, or the projected item wrapped in the response. *)
Definition answer {R} (op : string) (ctx : Ctx) (authResults : VerifyResults)
    (wrap : pb.ManagedGroup → R) (u : Res (option ManagedGroup)) :
  outcome (Res R) :=
  match u with
  | Err err => Done (Err err)
  | Ok mg =>
      match buildItem E op ctx authResults mg with
      | Done (Ok item) => Done (Ok (wrap item))
      | Done (Err err) => Done (Err err)
      | Panic => Panic
      end
  end.

(** The actions the policy engine grants on one listed group. *)
Definition grantedActions (authResults : VerifyResults) (res : perms.Resource)
    (id : string) : action.ActionSet :=
  FetchActionSetForId E authResults id (IdActions (SubtypeFromId E id))
    (Some (setId id res)).

(** The groups the loop goes on with: those with a granted action, and those
    whose id cannot be read, on which the loop panics. *)
Definition kept (authResults : VerifyResults) (res : perms.Resource)
    (mg : option ManagedGroup) : bool :=
  match GetPublicId mg with
  | Done id => bool_decide (grantedActions authResults res id ≠ [])
  | Panic => true
  end.

End Vocabulary.

(** ** Sample data

    One auth method with two groups, and the requests the properties below
    are exercised on. *)

Module sample.

Definition am1 : oidc.AuthMethod :=
  {| oidc.amPublicId := "amoidc_1"; oidc.amScopeId := "o_1" |}.

Definition g1 : oidc.ManagedGroup :=
  {| oidc.PublicId := "mgoidc_a"; oidc.AuthMethodId := "amoidc_1";
     oidc.Name := "admins"; oidc.Description := "";
     oidc.CreateTime := None; oidc.UpdateTime := None;
     oidc.Version := 1%N; oidc.Filter := "f" |}.

Definition g2 : oidc.ManagedGroup :=
  {| oidc.PublicId := "mgoidc_b"; oidc.AuthMethodId := "amoidc_1";
     oidc.Name := "guests"; oidc.Description := "";
     oidc.CreateTime := None; oidc.UpdateTime := None;
     oidc.Version := 1%N; oidc.Filter := "g" |}.

(** A group whose parent is not an Oidc auth method. *)
Definition gStray : oidc.ManagedGroup :=
  {| oidc.PublicId := "mgoidc_x"; oidc.AuthMethodId := "ampw_1";
     oidc.Name := ""; oidc.Description := "";
     oidc.CreateTime := None; oidc.UpdateTime := None;
     oidc.Version := 1%N; oidc.Filter := "f" |}.

Definition w0 : World inmem.Store :=
  {| store := {| inmem.groups := [g1; g2]; inmem.methods := [am1] |};
     trace := [] |}.

Definition wStray : World inmem.Store :=
  {| store := {| inmem.groups := [gStray]; inmem.methods := [am1] |};
     trace := [] |}.

(** The policy grants nothing on the second group. *)
Definition hideB (id : string) (set : action.ActionSet) : action.ActionSet :=
  if decide (id = "mgoidc_b") then [] else set.

Definition E0 : Env inmem.Store (list string) unit := inmem.env inmem.grantAll.

Definition EHide : Env inmem.Store (list string) unit := inmem.env hideB.

(** The same environment with a validator that accepts every id. *)
Definition ELax : Env inmem.Store (list string) unit :=
  inmem.envWith (λ _ _ _, None) inmem.grantAll.

Definition ctx0 : Ctx (OF := list string) :=
  {| ctxOutputFields := Some [globals.IdField; globals.VersionField] |}.

Definition ctxNone : Ctx (OF := list string) := {| ctxOutputFields := None |}.

Definition item (version : N) (name : string) : pb.ManagedGroup :=
  {| pb.Id := ""; pb.AuthMethodId := "amoidc_1"; pb.Scope := None;
     pb.Name := Some name; pb.Description := None; pb.CreatedTime := None;
     pb.UpdatedTime := None; pb.Version := version; pb.Type_ := "";
     pb.Attributes := None; pb.AuthorizedActions := [] |}.

(** An update of the first group at a stale version. *)
Definition updStale : pbs.UpdateManagedGroupRequest :=
  {| pbs.uId := "mgoidc_a"; pbs.uItem := Some (item 7 "ops");
     pbs.uUpdateMask := Some ["name"] |}.

(** An update of the first group at its version. *)
Definition updName : pbs.UpdateManagedGroupRequest :=
  {| pbs.uId := "mgoidc_a"; pbs.uItem := Some (item 1 "ops");
     pbs.uUpdateMask := Some ["name"] |}.

(** An update whose mask names no field of the group. *)
Definition updBogus : pbs.UpdateManagedGroupRequest :=
  {| pbs.uId := "mgoidc_a"; pbs.uItem := Some (item 1 "ops");
     pbs.uUpdateMask := Some ["bogus.path"] |}.

Definition createItem : pb.ManagedGroup :=
  {| pb.Id := ""; pb.AuthMethodId := "amoidc_1"; pb.Scope := None;
     pb.Name := Some "ops"; pb.Description := None; pb.CreatedTime := None;
     pb.UpdatedTime := None; pb.Version := 0%N; pb.Type_ := "";
     pb.Attributes := Some {[ globals.FilterField := structpb.StringValue "f" ]};
     pb.AuthorizedActions := [] |}.

Definition createReq : pbs.CreateManagedGroupRequest :=
  {| pbs.cItem := Some createItem |}.

Definition listReq : pbs.ListManagedGroupsRequest :=
  {| pbs.lAuthMethodId := "amoidc_1"; pbs.lFilter := "" |}.

End sample.

(** ** Vocabulary of the further properties *)

Section Vocabulary2.
Context {St OF Flt : Type} (E : Env St OF Flt).

(** A computation that only adds to the trace, and only events that
    satisfy [P]. *)
Definition emits {A} (P : Event → Prop) (c : M St A) : Prop :=
  ∀ w r w', c w = (r, w') →
    ∃ evs, trace w' = trace w ++ evs ∧ Forall P evs.

(** The type tag of an item is consistent with the Oidc subtype: it is empty
    or it is "oidc". *)
Definition typeOk (item : option pb.ManagedGroup) : Prop :=
  GetItem_Type item = "" ∨ GetItem_Type item = auth.String auth.OidcSubtype.

(** The names of the fields the projector reads off the entity through a
    getter of the interface. *)
Definition entityFields : list string :=
  [globals.IdField; globals.AuthMethodIdField; globals.DescriptionField;
   globals.NameField; globals.CreatedTimeField; globals.UpdatedTimeField;
   globals.VersionField].

(** An event that is not a call of the policy engine. *)
Definition notVerify (ev : Event) : Prop := isVerify ev = false.

(** The options the resolver hands to the policy engine for a request on a
    managed group, and for a request on the collection of an auth method. *)
Definition groupContext (a : action.Type_) (id : string) (am : oidc.AuthMethod)
    (parentId : string) : list authopt.Option_ :=
  [authopt.WithType resource.ManagedGroup; authopt.WithAction a;
   authopt.WithId id; authopt.WithScopeId (oidc.amScopeId am);
   authopt.WithPin parentId].

Definition collectionContext (a : action.Type_) (am : oidc.AuthMethod)
    (parentId : string) : list authopt.Option_ :=
  [authopt.WithType resource.ManagedGroup; authopt.WithAction a;
   authopt.WithScopeId (oidc.amScopeId am); authopt.WithPin parentId].

(** The same environment with another answer of the repository factory, and
    with another policy engine. *)
Definition withFactory (r : option Error) : Env St OF Flt :=
  {| SubtypeFromId := SubtypeFromId E;
     Verify := Verify E;
     FetchActionSetForId := FetchActionSetForId E;
     FetchOutputFields := FetchOutputFields E;
     SelfOrDefaults := SelfOrDefaults E;
     Has := Has E;
     ValidId := ValidId E;
     Translate := Translate E;
     MaskContains := MaskContains E;
     StructToProto := StructToProto E;
     StructToProtoPartial := StructToProtoPartial E;
     ProtoToStruct := ProtoToStruct E;
     NewFilter := NewFilter E;
     Match := Match E;
     ValidateGetRequest := ValidateGetRequest E;
     ValidateCreateRequest := ValidateCreateRequest E;
     ValidateUpdateRequest := ValidateUpdateRequest E;
     ValidateDeleteRequest := ValidateDeleteRequest E;
     CreateEvaluator := CreateEvaluator E;
     IsNotFoundError := IsNotFoundError E;
     NewManagedGroup := NewManagedGroup E;
     oidcRepoFn := r;
     LookupManagedGroup := LookupManagedGroup E;
     LookupAuthMethod := LookupAuthMethod E;
     CreateManagedGroup := CreateManagedGroup E;
     UpdateManagedGroup := UpdateManagedGroup E;
     DeleteManagedGroup := DeleteManagedGroup E;
     ListManagedGroups := ListManagedGroups E |}.

Definition withVerify (v : list authopt.Option_ → VerifyResults) :
  Env St OF Flt :=
  {| SubtypeFromId := SubtypeFromId E;
     Verify := v;
     FetchActionSetForId := FetchActionSetForId E;
     FetchOutputFields := FetchOutputFields E;
     SelfOrDefaults := SelfOrDefaults E;
     Has := Has E;
     ValidId := ValidId E;
     Translate := Translate E;
     MaskContains := MaskContains E;
     StructToProto := StructToProto E;
     StructToProtoPartial := StructToProtoPartial E;
     ProtoToStruct := ProtoToStruct E;
     NewFilter := NewFilter E;
     Match := Match E;
     ValidateGetRequest := ValidateGetRequest E;
     ValidateCreateRequest := ValidateCreateRequest E;
     ValidateUpdateRequest := ValidateUpdateRequest E;
     ValidateDeleteRequest := ValidateDeleteRequest E;
     CreateEvaluator := CreateEvaluator E;
     IsNotFoundError := IsNotFoundError E;
     NewManagedGroup := NewManagedGroup E;
     oidcRepoFn := oidcRepoFn E;
     LookupManagedGroup := LookupManagedGroup E;
     LookupAuthMethod := LookupAuthMethod E;
     CreateManagedGroup := CreateManagedGroup E;
     UpdateManagedGroup := UpdateManagedGroup E;
     DeleteManagedGroup := DeleteManagedGroup E;
     ListManagedGroups := ListManagedGroups E |}.

(** The same environment with a repository whose two lookups and whose
    delete are replaced. *)
Definition withRepository
    (lookupGroup : St → string → Res (option oidc.ManagedGroup))
    (lookupMethod : St → string → Res (option oidc.AuthMethod))
    (delete : St → string → string → Res Z * St) : Env St OF Flt :=
  {| SubtypeFromId := SubtypeFromId E;
     Verify := Verify E;
     FetchActionSetForId := FetchActionSetForId E;
     FetchOutputFields := FetchOutputFields E;
     SelfOrDefaults := SelfOrDefaults E;
     Has := Has E;
     ValidId := ValidId E;
     Translate := Translate E;
     MaskContains := MaskContains E;
     StructToProto := StructToProto E;
     StructToProtoPartial := StructToProtoPartial E;
     ProtoToStruct := ProtoToStruct E;
     NewFilter := NewFilter E;
     Match := Match E;
     ValidateGetRequest := ValidateGetRequest E;
     ValidateCreateRequest := ValidateCreateRequest E;
     ValidateUpdateRequest := ValidateUpdateRequest E;
     ValidateDeleteRequest := ValidateDeleteRequest E;
     CreateEvaluator := CreateEvaluator E;
     IsNotFoundError := IsNotFoundError E;
     NewManagedGroup := NewManagedGroup E;
     oidcRepoFn := oidcRepoFn E;
     LookupManagedGroup := lookupGroup;
     LookupAuthMethod := lookupMethod;
     CreateManagedGroup := CreateManagedGroup E;
     UpdateManagedGroup := UpdateManagedGroup E;
     DeleteManagedGroup := delete;
     ListManagedGroups := ListManagedGroups E |}.

(** The shape the five handlers share: the verdict of the validator, then
    the resolver, then, when the verdict of the policy engine carries no
    error, the rest of the handler, which is given the auth method and the
    verdict. *)
Definition guarded {R} (v : option Error) (id : string) (a : action.Type_)
    (rest : option oidc.AuthMethod → VerifyResults → M St (Res R)) :
  M St (Res R) :=
  match v with
  | Some err => ret (Err err)
  | None =>
      let* pr := parentAndAuthResult E id a in
      match vrError pr.2 with
      | Some err => ret (Err err)
      | None => rest pr.1 pr.2
      end
  end.

(** The rest of each handler, as it is written in the handler. *)
Definition listRest (req : option pbs.ListManagedGroupsRequest)
    (authMeth : option oidc.AuthMethod) (authResults : VerifyResults) :
  M St (Res pbs.ListManagedGroupsResponse) :=
  let authMethodId := from_option pbs.lAuthMethodId "" req in
  let* l := listFromRepo E authMethodId in
  match l with
  | Err err => ret (Err err)
  | Ok ul =>
      if decide (length ul = 0)
      then ret (Ok {| pbs.Items := [] |})
      else
        match NewFilter E (from_option pbs.lFilter "" req) with
        | Err err => ret (Err err)
        | Ok filter =>
            match vrScope authResults with
            | None => panic
            | Some scope =>
                let res :=
                  {| perms.ScopeId := pb.scId scope; perms.Id := "";
                     perms.Type_ := resource.ManagedGroup;
                     perms.Pin := authMethodId |} in
                let* r := liftO (listLoop E authResults filter res ul []) in
                match r with
                | Err err => ret (Err err)
                | Ok finalItems => ret (Ok {| pbs.Items := finalItems |})
                end
            end
        end
  end.

Definition getRest (ctx : Ctx) (id : string)
    (authMeth : option oidc.AuthMethod) (authResults : VerifyResults) :
  M St (Res pbs.GetManagedGroupResponse) :=
  let* g := getFromRepo E id in
  match g with
  | Err err => ret (Err err)
  | Ok mg =>
      let* r := liftO (buildItem E "managed_groups.(Service).GetManagedGroup"
                         ctx authResults mg) in
      match r with
      | Err err => ret (Err err)
      | Ok item => ret (Ok {| pbs.gItem := item |})
      end
  end.

Definition createRest (ctx : Ctx) (item : option pb.ManagedGroup)
    (authMeth : option oidc.AuthMethod) (authResults : VerifyResults) :
  M St (Res pbs.CreateManagedGroupResponse) :=
  let* c := createInRepo E authMeth item in
  match c with
  | Err err => ret (Err err)
  | Ok mg =>
      let* r := liftO (buildItem E opCreate ctx authResults mg) in
      match r with
      | Err err => ret (Err err)
      | Ok item =>
          ret (Ok {| pbs.crItem := item;
                     pbs.Uri := "managed-groups/" +:+ pb.Id item |})
      end
  end.

Definition updateRest (ctx : Ctx) (req : option pbs.UpdateManagedGroupRequest)
    (authMeth : option oidc.AuthMethod) (authResults : VerifyResults) :
  M St (Res pbs.UpdateManagedGroupResponse) :=
  match authMeth with
  | None => panic
  | Some am =>
      let* u := updateInRepo E (Scope_GetId authResults) (oidc.amPublicId am) req in
      match u with
      | Err err => ret (Err err)
      | Ok mg =>
          let* r := liftO (buildItem E opUpdate ctx authResults mg) in
          match r with
          | Err err => ret (Err err)
          | Ok item => ret (Ok {| pbs.upItem := item |})
          end
      end
  end.

Definition deleteRest (id : string)
    (authMeth : option oidc.AuthMethod) (authResults : VerifyResults) :
  M St (Res (option pbs.DeleteManagedGroupResponse)) :=
  let* d := deleteFromRepo E (Scope_GetId authResults) id in
  match d with
  | Err err => ret (Err err)
  | Ok _ => ret (Ok None)
  end.

(** A handler for which a verdict of the policy engine that carries an
    error is the end of the run: the handler answers that error, the
    repository is as it was, and the verdict is the last call. *)
Definition verdictErrorFinal {R} (c : M St (Res R)) : Prop :=
  ∀ w o w' opts err,
    c w = (o, w') →
    EvVerify opts ∈ added w w' →
    vrError (Verify E opts) = Some err →
    o = Done (Err err) ∧ store w' = store w ∧
    ∃ pre, added w w' = pre ++ [EvVerify opts] ∧ Forall quiet pre.

(** A handler that changes the repository only after the policy engine has
    given its one verdict, and only if that verdict carries no error. *)
Definition mutatesAfterVerdict {R} (c : M St (Res R)) : Prop :=
  ∀ w o w' ev,
    c w = (o, w') →
    ev ∈ added w w' → isRepoMutation ev = true →
    ∃ pre opts post,
      added w w' = pre ++ EvVerify opts :: post ∧
      Forall quiet pre ∧ Forall notVerify post ∧
      vrError (Verify E opts) = None ∧ ev ∈ post.

End Vocabulary2.

(** ** More sample data *)

Module sample2.
Import sample.

Definition forbidden : Error := ApiError codes.PermissionDenied "Forbidden." ∅.

Definition unavailable : Error :=
  DomainError errors.Unknown "db.Open" "repository unavailable".

(** The policy engine refuses everything. *)
Definition EDeny : Env inmem.Store (list string) unit :=
  withVerify E0
    (λ _, {| vrError := Some forbidden; vrScope := None; vrUserId := "u_1" |}).

(** The repository factory fails. *)
Definition EDown : Env inmem.Store (list string) unit :=
  withFactory E0 (Some unavailable).

(** A world whose only group names an auth method the repository does not
    have. *)
Definition gOrphan : oidc.ManagedGroup :=
  {| oidc.PublicId := "mgoidc_o"; oidc.AuthMethodId := "amoidc_gone";
     oidc.Name := ""; oidc.Description := "";
     oidc.CreateTime := None; oidc.UpdateTime := None;
     oidc.Version := 1%N; oidc.Filter := "f" |}.

Definition wOrphan : World inmem.Store :=
  {| store := {| inmem.groups := [gOrphan]; inmem.methods := [am1] |};
     trace := [] |}.

(** The policy engine permits everything but names no scope. *)
Definition ENoScope : Env inmem.Store (list string) unit :=
  withVerify E0
    (λ _, {| vrError := None; vrScope := None; vrUserId := "u_1" |}).

(** The group [oidc.NewManagedGroup] builds from [createItem] under the
    first auth method. *)
Definition draftOps : oidc.ManagedGroup :=
  {| oidc.PublicId := ""; oidc.AuthMethodId := "amoidc_1";
     oidc.Name := "ops"; oidc.Description := "";
     oidc.CreateTime := None; oidc.UpdateTime := None;
     oidc.Version := 0%N; oidc.Filter := "f" |}.

(** An item whose attributes carry a field the Oidc attributes do not
    have, and an item without a filter. *)
Definition itemOddAttributes : pb.ManagedGroup :=
  {| pb.Id := ""; pb.AuthMethodId := "amoidc_1"; pb.Scope := None;
     pb.Name := None; pb.Description := None; pb.CreatedTime := None;
     pb.UpdatedTime := None; pb.Version := 0%N; pb.Type_ := "";
     pb.Attributes := Some {[ "issuer" := structpb.StringValue "x" ]};
     pb.AuthorizedActions := [] |}.

Definition itemNoFilter : pb.ManagedGroup :=
  {| pb.Id := ""; pb.AuthMethodId := "amoidc_1"; pb.Scope := None;
     pb.Name := None; pb.Description := None; pb.CreatedTime := None;
     pb.UpdatedTime := None; pb.Version := 0%N; pb.Type_ := "";
     pb.Attributes := None; pb.AuthorizedActions := [] |}.

(** An item whose attributes do not decode, though they carry a filter. *)
Definition itemOddFilter : pb.ManagedGroup :=
  {| pb.Id := ""; pb.AuthMethodId := "amoidc_1"; pb.Scope := None;
     pb.Name := None; pb.Description := None; pb.CreatedTime := None;
     pb.UpdatedTime := None; pb.Version := 0%N; pb.Type_ := "";
     pb.Attributes := Some {[ globals.FilterField := structpb.StringValue "f";
                              "issuer" := structpb.StringValue "x" ]};
     pb.AuthorizedActions := [] |}.

(** The lookup of a group fails; the lookup of an auth method fails; the
    delete fails. *)
Definition EGroupLookupFails : Env inmem.Store (list string) unit :=
  withRepository E0 (λ _ _, Err unavailable) (LookupAuthMethod E0)
    (DeleteManagedGroup E0).

Definition EMethodLookupFails : Env inmem.Store (list string) unit :=
  withRepository E0 (LookupManagedGroup E0) (λ _ _, Err unavailable)
    (DeleteManagedGroup E0).

Definition EDeleteFails : Env inmem.Store (list string) unit :=
  withRepository E0 (LookupManagedGroup E0) (LookupAuthMethod E0)
    (λ s _ _, (Err unavailable, s)).

(** The options of the policy engine for a request on the first group. *)
Definition optsOn (a : action.Type_) : list authopt.Option_ :=
  groupContext a "mgoidc_a" am1 "amoidc_1".

End sample2.

(** * Properties *)

(** ** The output projector *)

Section ProjectorFacts.
Context {St OF Flt : Type} (E : Env St OF Flt).

(** A gated assignment leaves the zero value unless its gate is open. *)
Lemma gated_value {A} (b : bool) (c : outcome A) (z v : A) :
  (if b then c else Done z) = Done v → v ≠ z → b = true.
Proof. destruct b; [done|]. intros [= ->]. done. Qed.

Local Tactic Notation "gate" hyp(H) ident(v) ident(Hv) :=
  match type of H with
  | obind (if ?b then ?c else Done ?z) _ = _ =>
      destruct (if b then c else Done z) as [v|] eqn:Hv;
      simpl in H; [|discriminate H];
      let H' := fresh in
      pose proof (gated_value _ _ _ _ Hv) as H'; clear Hv; rename H' into Hv
  end.

(** C1: whatever the entity and the options, a field of the message built by
    [toProto] carries a value only if the requested output fields have its
    name: the populated fields are among the requested ones. *)
Theorem toProto_populated_subset_requested
    (in_ : option ManagedGroup) (opt : list (handlers.Option_ OF))
    (out : pb.ManagedGroup) :
  toProto E in_ opt = Done (Ok out) →
  ∃ outputFields,
    handlers.withOutputFields (handlers.GetOpts opt) = Some outputFields ∧
    ∀ f, f ∈ populated out → Has E outputFields f = true.
Proof.
  unfold toProto. intros H.
  destruct (handlers.withOutputFields (handlers.GetOpts opt))
    as [outputFields|]; [|discriminate H].
  exists outputFields. split; [done|].
  gate H id Hid. gate H amId HamId. gate H desc Hdesc. gate H name Hname.
  gate H created Hcreated. gate H updated Hupdated. gate H version Hversion.
  set (has := Has E outputFields) in *.
  assert (∃ ty attrs,
    out = pbset.setAttributes attrs (pbset.setType ty
            {| pb.Id := id; pb.AuthMethodId := amId;
               pb.Scope := if has globals.ScopeField
                           then handlers.withScope (handlers.GetOpts opt) else None;
               pb.Name := name; pb.Description := desc;
               pb.CreatedTime := created; pb.UpdatedTime := updated;
               pb.Version := version; pb.Type_ := ""; pb.Attributes := None;
               pb.AuthorizedActions :=
                 if has globals.AuthorizedActionsField
                 then handlers.withAuthorizedActions (handlers.GetOpts opt)
                 else [] |}) ∧
    (ty ≠ "" → has globals.TypeField = true) ∧
    (attrs ≠ None → has globals.AttributesField = true))
    as (ty & attrs & -> & Hty & Hattrs).
  { destruct in_ as [[i|g]|]; simpl in H.
    - destruct (has globals.TypeField) eqn:Ht,
        (has globals.AttributesField) eqn:Ha; simpl in H.
      + destruct (GetFilter i) as [f|]; simpl in H; [|discriminate H].
        destruct (ProtoToStruct E _) as [st|]; [|discriminate H].
        injection H as <-. by exists "oidc", (Some st).
      + injection H as <-. by exists "oidc", None.
      + destruct (GetFilter i) as [f|]; simpl in H; [|discriminate H].
        destruct (ProtoToStruct E _) as [st|]; [|discriminate H].
        injection H as <-. by exists "", (Some st).
      + injection H as <-. by exists "", None.
    - injection H as <-. by exists "", None.
    - injection H as <-. by exists "", None. }
  clear H. intros f. unfold populated; simpl. rewrite !elem_of_app.
  intros Hf.
  repeat match type of Hf with
         | _ ∨ _ => destruct Hf as [Hf|Hf]
         end;
    match type of Hf with
    | f ∈ (if ?c then _ else _) => destruct c eqn:Hc
    | f ∈ match ?c with _ => _ end => destruct c eqn:Hc
    end;
    try (by apply elem_of_nil in Hf);
    apply list_elem_of_singleton in Hf; subst f;
    first [ by eauto
          | by (apply Hdesc || apply Hname || apply Hcreated || apply Hupdated
                || apply Hattrs); rewrite Hc
          | match goal with |- ?b = true => by destruct b end ].
Qed.

End ProjectorFacts.

(** ** The attribute codec *)

(** The decoder reads back what the encoder wrote. *)
Lemma StructToProto_encode (attrs : pb.OidcManagedGroupAttributes) :
  codec.StructToProto (Some (codec.encode attrs)) = Ok attrs.
Proof.
  destruct attrs as [f]. unfold codec.StructToProto, codec.encode; simpl.
  destruct (decide (f = "")) as [->|Hf].
  - rewrite decide_True by (rewrite dom_empty_L; set_solver).
    by rewrite lookup_empty.
  - rewrite decide_True by (rewrite dom_singleton_L; set_solver).
    by rewrite lookup_singleton_eq.
Qed.

(** C8: decoding the encoded form of Oidc attributes gives the attributes
    back: whatever the filter, the encoder produces a struct and the decoder
    maps that struct to the original attributes. *)
Theorem codec_round_trip (attrs : pb.OidcManagedGroupAttributes) :
  ∃ st, codec.ProtoToStruct attrs = Ok st ∧
        codec.StructToProto (Some st) = Ok attrs.
Proof.
  exists (codec.encode attrs). split; [reflexivity|].
  apply StructToProto_encode.
Qed.

(** With this codec the attributes block built by [toProto] decodes to the
    filter of the stored group. *)
Lemma toProto_attributes_decode {St OF Flt} (E : Env St OF Flt)
    (g : oidc.ManagedGroup) (opt : list (handlers.Option_ OF))
    (out : pb.ManagedGroup) (st : structpb.Struct) :
  ProtoToStruct E = codec.ProtoToStruct →
  toProto E (Some (OidcGroup (Some g))) opt = Done (Ok out) →
  pb.Attributes out = Some st →
  codec.StructToProto (Some st) = Ok {| pb.Filter := oidc.Filter g |}.
Proof.
  intros HE H Hst. unfold toProto in H.
  destruct (handlers.withOutputFields _) as [outputFields|]; [|discriminate H].
  repeat match type of H with
         | obind (if ?b then _ else _) _ = _ => destruct b; simpl in H
         end;
    (destruct (Has E outputFields globals.AttributesField); simpl in H;
     [|injection H as <-; by destruct (Has E _ _)]);
    rewrite HE in H; unfold codec.ProtoToStruct in H; injection H as <-;
    (assert (st = codec.encode {| pb.Filter := oidc.Filter g |}) as ->
       by (destruct (Has E _ _); simpl in Hst; congruence));
    apply StructToProto_encode.
Qed.

(** ** Runs of the handlers *)

Section Runs.
Context {St OF Flt : Type} (E : Env St OF Flt).

Lemma readOnly_ret {A} (a : A) : readOnly (St:=St) (ret a).
Proof. intros w r w' [= <- <-]. split; [done|]. exists []. by rewrite app_nil_r. Qed.

Lemma readOnly_panic {A} : readOnly (St:=St) (@panic St A).
Proof. intros w r w' [= <- <-]. split; [done|]. exists []. by rewrite app_nil_r. Qed.

Lemma readOnly_liftO {A} (c : outcome A) : readOnly (St:=St) (liftO (St:=St) c).
Proof. intros w r w' [= <- <-]. split; [done|]. exists []. by rewrite app_nil_r. Qed.

Lemma readOnly_bind {A B} (c : M St A) (k : A → M St B) :
  readOnly (St:=St) c → (∀ a, readOnly (St:=St) (k a)) → readOnly (St:=St) (bind c k).
Proof.
  intros Hc Hk w r w' H. unfold bind in H.
  destruct (c w) as [[a|] w1] eqn:Hcw.
  - destruct (Hc _ _ _ Hcw) as (Hs1 & evs1 & Ht1 & Hf1).
    destruct (Hk a _ _ _ H) as (Hs2 & evs2 & Ht2 & Hf2).
    split; [congruence|]. exists (evs1 ++ evs2).
    rewrite Ht2, Ht1, <-app_assoc. split; [done|]. by apply Forall_app.
  - injection H as <- <-. exact (Hc _ _ _ Hcw).
Qed.

Lemma readOnly_log {A} (f : St → A) (ev : Event) :
  isRepoMutation ev = false → readOnly (St:=St) (λ w, (Done (f (store w)), log w ev)).
Proof.
  intros Hev w r w' [= <- <-]. split; [done|]. exists [ev]. split; [done|].
  by constructor.
Qed.

Lemma readOnly_repoFn : readOnly (St:=St) (repoFn E).
Proof. by apply (readOnly_log (λ _, oidcRepoFn E)). Qed.

Lemma readOnly_repoLookupManagedGroup id : readOnly (St:=St) (repoLookupManagedGroup E id).
Proof. by apply (readOnly_log (λ s, LookupManagedGroup E s id)). Qed.

Lemma readOnly_repoLookupAuthMethod id : readOnly (St:=St) (repoLookupAuthMethod E id).
Proof. by apply (readOnly_log (λ s, LookupAuthMethod E s id)). Qed.

Lemma readOnly_repoListManagedGroups id : readOnly (St:=St) (repoListManagedGroups E id).
Proof. by apply (readOnly_log (λ s, ListManagedGroups E s id)). Qed.

Lemma readOnly_authVerify opts : readOnly (St:=St) (authVerify E opts).
Proof. by apply (readOnly_log (λ _, Verify E opts)). Qed.

Local Ltac read_only :=
  repeat first
    [ apply readOnly_ret | apply readOnly_panic | apply readOnly_liftO
    | apply readOnly_repoFn | apply readOnly_repoLookupManagedGroup
    | apply readOnly_repoLookupAuthMethod | apply readOnly_repoListManagedGroups
    | apply readOnly_authVerify
    | apply readOnly_bind; [|intros ?]
    | match goal with
      | |- readOnly (St:=St) (match ?x with _ => _ end) => destruct x
      | |- readOnly (St:=St) (if ?x then _ else _) => destruct x
      | |- readOnly (St:=St) (let (_, _) := ?x in _) => destruct x
      end ].

Lemma readOnly_parentAndAuthResult id a : readOnly (St:=St) (parentAndAuthResult E id a).
Proof. unfold parentAndAuthResult. read_only. Qed.

Lemma readOnly_getFromRepo id : readOnly (St:=St) (getFromRepo E id).
Proof. unfold getFromRepo. read_only. Qed.

Lemma readOnly_listFromRepo id : readOnly (St:=St) (listFromRepo E id).
Proof. unfold listFromRepo. read_only. Qed.

End Runs.

(** ** The authorization resolver *)

Section Resolver.
Context {St OF Flt : Type} (E : Env St OF Flt).

Lemma added_app (w w' : World St) evs :
  trace w' = trace w ++ evs → added w w' = evs.
Proof. unfold added. intros ->. by rewrite drop_app_length. Qed.

Local Ltac run_resolver H :=
  unfold parentAndAuthResult, bind, ret, panic, repoFn, repoLookupManagedGroup,
    repoLookupAuthMethod, authVerify, log in H; simpl in H.

(** Whenever the resolver reaches the policy engine, the parent auth method
    has been found in the repository, and the options carry its scope and
    its id as pin. *)
Lemma verify_has_resolved_parent id a (w : World St) out w' opts :
  parentAndAuthResult E id a w = (out, w') →
  EvVerify opts ∈ added w w' →
  ∃ parentId am,
    LookupAuthMethod E (store w) parentId = Ok (Some am) ∧
    authopt.WithScopeId (oidc.amScopeId am) ∈ opts ∧
    authopt.WithPin parentId ∈ opts.
Proof.
  intros H Hin. run_resolver H.
  repeat case_match; simplify_eq; simpl in *;
    (erewrite added_app in Hin by (simpl; rewrite <-?app_assoc; simpl; done));
    set_unfold in Hin; destruct_or?; simplify_eq;
    eexists _, _; (split; [eassumption|]); set_solver.
Qed.

(** The three ways a run of the resolver ends: a panic, an error found
    before the policy engine is reached, or the verdict of the policy engine,
    which is then its last call; the repository is only read. *)
Lemma resolver_cases id a (w : World St) o w' :
  parentAndAuthResult E id a w = (o, w') →
  store w' = store w ∧
  ∃ pre,
    Forall (λ ev, isRepoMutation ev = false ∧ isVerify ev = false) pre ∧
    ((o = Panic ∧ trace w' = trace w ++ pre) ∨
     (∃ err, o = Done (None, setError err emptyVerifyResults) ∧
             trace w' = trace w ++ pre) ∨
     (∃ am opts, o = Done (Some am, Verify E opts) ∧
                 trace w' = trace w ++ pre ++ [EvVerify opts])).
Proof.
  intros H. run_resolver H.
  repeat case_match; simplify_eq; simpl; (split; [done|]);
    rewrite <-?app_assoc; simpl;
    solve
      [ (eexists [_] + eexists [_; _] + eexists [_; _; _]);
        (split;
         [|first [ left; split; [done|reflexivity]
                 | right; left; eexists; split; [done|reflexivity]
                 | right; right; eexists _, _; split; [done|reflexivity] ]]);
        repeat constructor ].
Qed.

(** The resolver on a group the repository does not have. *)
Lemma resolver_absent_group id a (w : World St) :
  a ≠ action.List → a ≠ action.Create →
  SubtypeFromId E id = auth.OidcSubtype →
  oidcRepoFn E = None →
  LookupManagedGroup E (store w) id = Ok None →
  parentAndAuthResult E id a w =
    (Done (None, setError NotFoundError emptyVerifyResults),
     {| store := store w;
        trace := trace w ++ [EvRepoFn; EvLookupManagedGroup id] |}).
Proof.
  intros HL HC Hsub Hfn Hlook.
  unfold parentAndAuthResult, bind, ret, repoFn, repoLookupManagedGroup, log.
  simpl. rewrite Hfn.
  destruct a; try done; simpl; rewrite Hsub; simpl; rewrite Hlook; simpl;
    by rewrite <-app_assoc.
Qed.

(** The resolver when the repository has the group and its auth method. *)
Lemma resolver_group_run id a (w : World St) acct am :
  a ≠ action.List → a ≠ action.Create →
  oidcRepoFn E = None →
  SubtypeFromId E id = auth.OidcSubtype →
  LookupManagedGroup E (store w) id = Ok (Some acct) →
  SubtypeFromId E (oidc.AuthMethodId acct) = auth.OidcSubtype →
  LookupAuthMethod E (store w) (oidc.AuthMethodId acct) = Ok (Some am) →
  parentAndAuthResult E id a w =
    (Done (Some am, Verify E (groupContext a id am (oidc.AuthMethodId acct))),
     {| store := store w;
        trace := trace w ++
          [EvRepoFn; EvLookupManagedGroup id;
           EvLookupAuthMethod (oidc.AuthMethodId acct);
           EvVerify (groupContext a id am (oidc.AuthMethodId acct))] |}).
Proof.
  intros HL HC Hfn Hsub Hg Hsub' Ham.
  unfold parentAndAuthResult, bind, ret, panic, repoFn, repoLookupManagedGroup,
    repoLookupAuthMethod, authVerify, log; simpl. rewrite Hfn.
  destruct a; try done; simpl; rewrite Hsub; simpl; rewrite Hg; simpl;
    rewrite Hsub'; simpl; rewrite Ham; simpl; by rewrite <-!app_assoc.
Qed.

(** The resolver on the collection of an auth method the repository has. *)
Lemma resolver_collection_run id a (w : World St) am :
  a = action.List ∨ a = action.Create →
  oidcRepoFn E = None →
  SubtypeFromId E id = auth.OidcSubtype →
  LookupAuthMethod E (store w) id = Ok (Some am) →
  parentAndAuthResult E id a w =
    (Done (Some am, Verify E (collectionContext a am id)),
     {| store := store w;
        trace := trace w ++
          [EvRepoFn; EvLookupAuthMethod id;
           EvVerify (collectionContext a am id)] |}).
Proof.
  intros Ha Hfn Hsub Ham.
  unfold parentAndAuthResult, bind, ret, panic, repoFn, repoLookupManagedGroup,
    repoLookupAuthMethod, authVerify, log; simpl. rewrite Hfn.
  destruct Ha as [-> | ->]; simpl; rewrite Hsub; simpl; rewrite Ham; simpl;
    by rewrite <-!app_assoc.
Qed.

(** A List whose resolver ends with a verdict that carries no error: the
    repository was at hand, the id of the request is recognized as Oidc,
    and the verdict is the one the policy engine gave for the collection of
    the auth method of the request, which the repository has. *)
Lemma resolver_list_verdict id (w : World St) am vr w1 :
  parentAndAuthResult E id action.List w = (Done (am, vr), w1) →
  vrError vr = None →
  oidcRepoFn E = None ∧
  SubtypeFromId E id = auth.OidcSubtype ∧
  ∃ am', am = Some am' ∧
    LookupAuthMethod E (store w) id = Ok (Some am') ∧
    vr = Verify E (collectionContext action.List am' id).
Proof.
  intros H He. run_resolver H.
  repeat case_match; simplify_eq; simpl in *; try done;
    split_and!; try done; by eexists.
Qed.

(** C4: for a Read, Update or Delete whose managed group the repository does
    not have, the resolver answers NotFound after the repository factory and
    the lookup only, the policy engine not being called; and in every run
    the policy engine is called only with the scope of a parent auth method
    the repository has resolved. *)
Theorem absent_group_not_found_before_policy id a (w : World St) :
  a ≠ action.List → a ≠ action.Create →
  SubtypeFromId E id = auth.OidcSubtype →
  oidcRepoFn E = None →
  LookupManagedGroup E (store w) id = Ok None →
  parentAndAuthResult E id a w =
    (Done (None, setError NotFoundError emptyVerifyResults),
     {| store := store w;
        trace := trace w ++ [EvRepoFn; EvLookupManagedGroup id] |}) ∧
  ∀ id' a' (w1 : World St) out w2 opts,
    parentAndAuthResult E id' a' w1 = (out, w2) →
    EvVerify opts ∈ added w1 w2 →
    ∃ parentId am,
      LookupAuthMethod E (store w1) parentId = Ok (Some am) ∧
      authopt.WithScopeId (oidc.amScopeId am) ∈ opts ∧
      authopt.WithPin parentId ∈ opts.
Proof.
  intros HL HC Hsub Hfn Hlook. split.
  - by apply resolver_absent_group.
  - intros. by eapply verify_has_resolved_parent.
Qed.

(** What the validators of List and Create require of the auth-method id:
    the List validator accepts a request only if [handlers.ValidId] accepts
    the id for the Oidc prefix, and the check of the Create validator
    reports the id of a parent that is not recognized as Oidc. *)
Lemma validateListRequest_valid_id (r : pbs.ListManagedGroupsRequest) :
  validateListRequest E (Some r) = None →
  ValidId E (pbs.lAuthMethodId r) oidc.AuthMethodPrefix = true.
Proof.
  unfold validateListRequest.
  destruct (ValidId E _ _); [done|]. simpl.
  destruct (NewFilter E _); simpl;
    (rewrite decide_True; [done|]);
    apply Nat.neq_0_lt_0, map_size_non_empty_iff, insert_non_empty.
Qed.

Lemma createBadFields_unrecognized_parent (item : option pb.ManagedGroup) :
  SubtypeFromId E (GetItem_AuthMethodId item) ≠ auth.OidcSubtype →
  createBadFields E item !! globals.AuthMethodIdField
  = Some "Unknown auth method type from ID.".
Proof.
  intros Hsub. unfold createBadFields.
  destruct (SubtypeFromId E _); [..|done]; by rewrite lookup_insert_eq.
Qed.

(** C9, amended: a request on a recognized Oidc id never makes the resolver
    call a method of a nil auth method, provided that, for Read, Update and
    Delete, the group the repository returns names a parent that is itself
    recognized as Oidc; the resolver then returns an auth method or an
    error. *)
Theorem resolver_no_nil_dereference id a (w : World St) :
  SubtypeFromId E id = auth.OidcSubtype →
  (a ≠ action.List → a ≠ action.Create →
   ∀ acct, LookupManagedGroup E (store w) id = Ok (Some acct) →
           SubtypeFromId E (oidc.AuthMethodId acct) = auth.OidcSubtype) →
  ∃ authMeth res w',
    parentAndAuthResult E id a w = (Done (authMeth, res), w') ∧
    (is_Some authMeth ∨ is_Some (vrError res)).
Proof.
  intros Hsub Hparent.
  unfold parentAndAuthResult, bind, ret, panic, repoFn, repoLookupManagedGroup,
    repoLookupAuthMethod, authVerify, log; simpl.
  destruct (oidcRepoFn E); [by eauto 7|].
  destruct a; rewrite ?Hsub; simpl;
    try (destruct (LookupManagedGroup E (store w) id) as [[acct|]|] eqn:Hl;
         [rewrite (Hparent ltac:(done) ltac:(done) acct eq_refl)| |];
         simpl; try by eauto 7);
    try (destruct (LookupAuthMethod E (store w) _) as [[am|]|]; by eauto 7).
Qed.

End Resolver.

(** ** The repository helpers *)

Section Helpers.
Context {St OF Flt : Type} (E : Env St OF Flt).

Local Ltac stops :=
  left; simplify_eq; simpl;
  split_and!; [done | (by left) || (by right) | by eauto 6].

(** A run of [updateInRepo] either stops before the conditional update,
    leaving the repository alone, or calls it once, as its last call, with
    the id and the version of the request and a translated mask that is not
    empty. *)
Lemma updateInRepo_run scopeId amId req (w : World St) o w' :
  updateInRepo E scopeId amId req w = (o, w') →
  (store w' = store w ∧
   (trace w' = trace w ∨ trace w' = trace w ++ [EvRepoFn]) ∧
   ((∃ e, o = Done (Err e)) ∨
    (o = Done (Ok None) ∧
     SubtypeFromId E (from_option pbs.uId "" req) ≠ auth.OidcSubtype))) ∨
  (∃ mg dbMask,
     let version := GetItem_Version (req ≫= pbs.uItem) in
     let u := UpdateManagedGroup E (store w) scopeId mg version dbMask in
     oidc.PublicId mg = from_option pbs.uId "" req ∧
     dbMask = Translate E (GetPaths (req ≫= pbs.uUpdateMask)) ∧
     dbMask ≠ [] ∧
     trace w' = trace w ++ [EvRepoFn; EvUpdateManagedGroup scopeId mg version dbMask] ∧
     store w' = u.2 ∧
     o = Done (updateAnswer u.1)).
Proof.
  unfold updateInRepo, updateOidcInRepo, bind, ret, repoFn,
    repoUpdateManagedGroup, log. simpl. intros H.
  destruct (SubtypeFromId E _);
    [stops..|].
  destruct (req ≫= pbs.uItem) as [it|] eqn:Hit;
    [|stops].
  match type of H with
  | context [match ?d with Ok _ => _ | Err _ => _ end] =>
      destruct d as [filter|err] eqn:Hd
  end; [|stops].
  destruct (decide (length (Translate E _) = 0)) as [Hm|Hm];
    [stops|].
  destruct (oidcRepoFn E) as [err|];
    [stops|].
  right. simpl in H.
  match type of H with
  | context [UpdateManagedGroup E ?s ?sc ?mg ?v ?m] =>
      exists mg, m; destruct (UpdateManagedGroup E s sc mg v m) as [u st] eqn:Hu
  end.
  assert (Translate E (GetPaths (req ≫= pbs.uUpdateMask)) ≠ []) as Hne.
  { intros Hnil. by rewrite Hnil in Hm. }
  unfold GetItem_Version; simpl. rewrite Hu; simpl. unfold updateAnswer.
  destruct u as [[[out|] rows]|err]; simpl in H;
    repeat case_decide; simpl in H; simplify_eq; simpl;
    rewrite <-?app_assoc; by split_and!.
Qed.

(** When the mask translates to nothing, a present item with decodable
    attributes is rejected by [updateOidcInRepo] before the repository
    factory is even called. *)
Lemma updateOidcInRepo_empty_mask scopeId amId id mask it (w : World St) :
  Translate E mask = [] →
  (∀ apiAttr, pb.Attributes it = Some apiAttr →
              ∃ attrs, StructToProto E (Some apiAttr) = Ok attrs) →
  updateOidcInRepo E scopeId amId id mask (Some it) w = (Done (Err noValidFields), w).
Proof.
  intros Hm Hdec. unfold updateOidcInRepo. rewrite Hm; simpl.
  destruct (pb.Attributes it) as [apiAttr|]; [|done].
  destruct (Hdec apiAttr eq_refl) as [attrs ->]. done.
Qed.

(** A run of [createInRepo] either stops before the insert, leaving the
    repository alone, or calls it once, as its last call. *)
Lemma createInRepo_run am item (w : World St) o w' :
  createInRepo E am item w = (o, w') →
  (store w' = store w ∧
   (trace w' = trace w ∨ trace w' = trace w ++ [EvRepoFn]) ∧
   (o = Panic ∨ (∃ e, o = Done (Err e)) ∨ o = Done (Ok None))) ∨
  (∃ a mg,
     let c := CreateManagedGroup E (store w) (oidc.amScopeId a) mg in
     am = Some a ∧
     trace w' = trace w ++ [EvRepoFn; EvCreateManagedGroup (oidc.amScopeId a) mg] ∧
     store w' = c.2 ∧
     o = Done (createAnswer c.1)).
Proof.
  unfold createInRepo, createOidcInRepo, bind, ret, panic, repoFn,
    repoCreateManagedGroup, log. simpl. intros H.
  destruct item as [it|]; [|stops].
  destruct am as [a|]; [|stops].
  destruct (SubtypeFromId E _);
    [stops..|].
  destruct (StructToProto E _) as [attrs|err];
    [|stops].
  destruct (NewManagedGroup E _ _ _) as [mg|err];
    [|stops].
  destruct (oidcRepoFn E) as [err|];
    [stops|].
  right. exists a, mg. simpl in *.
  destruct (CreateManagedGroup E (store w) (oidc.amScopeId a) mg)
    as [[[out|]|err] st] eqn:Hc; simplify_eq; simpl;
    by rewrite <-?app_assoc.
Qed.

(** [updateInRepo] on a recognized id, an item whose attributes decode and a
    mask that translates to a field. *)
Lemma updateInRepo_success scopeId amId (r : pbs.UpdateManagedGroupRequest) it
    (w : World St) flt :
  SubtypeFromId E (pbs.uId r) = auth.OidcSubtype →
  pbs.uItem r = Some it →
  (pb.Attributes it = None ∧ flt = "") ∨
  (∃ apiAttr attrs, pb.Attributes it = Some apiAttr ∧
     StructToProto E (Some apiAttr) = Ok attrs ∧ flt = pb.Filter attrs) →
  Translate E (GetPaths (pbs.uUpdateMask r)) ≠ [] →
  oidcRepoFn E = None →
  let mg :=
    {| oidc.PublicId := pbs.uId r; oidc.AuthMethodId := "";
       oidc.Name := if pb.Name it is Some n then n else "";
       oidc.Description := if pb.Description it is Some d then d else "";
       oidc.CreateTime := None; oidc.UpdateTime := None;
       oidc.Version := 0%N; oidc.Filter := flt |} in
  let dbMask := Translate E (GetPaths (pbs.uUpdateMask r)) in
  let u := UpdateManagedGroup E (store w) scopeId mg (pb.Version it) dbMask in
  updateInRepo E scopeId amId (Some r) w =
    (Done (updateAnswer u.1),
     {| store := u.2;
        trace := trace w ++
          [EvRepoFn; EvUpdateManagedGroup scopeId mg (pb.Version it) dbMask] |}).
Proof.
  intros Hsub Hit Hdec Hm Hfn mg dbMask u.
  unfold updateInRepo, updateOidcInRepo, bind, ret, repoFn,
    repoUpdateManagedGroup, log. simpl. rewrite Hsub, Hit. simpl.
  assert (match pb.Attributes it with
          | Some apiAttr =>
              match StructToProto E (Some apiAttr) with
              | Err _ =>
                  Err (InvalidArgumentErrorf "Error in provided request."
                         {[ globals.AttributesField :=
                              "Attribute fields do not match the expected format." ]})
              | Ok attrs => Ok (pb.Filter attrs)
              end
          | None => Ok ""
          end = Ok flt) as ->.
  { destruct Hdec as [[-> ->]|(apiAttr & attrs & -> & -> & ->)]; done. }
  rewrite decide_False
    by (intros Hz; apply Hm; by apply length_zero_iff_nil).
  rewrite Hfn. simpl. fold mg dbMask u. unfold updateAnswer.
  destruct u as [[[[out|] rows]|err] st]; simpl;
    repeat case_decide; simpl; by rewrite <-?app_assoc.
Qed.

(** [createInRepo] for an Oidc parent, attributes that decode and a group
    the constructor accepts. *)
Lemma createInRepo_success a it (w : World St) attrs mg :
  SubtypeFromId E (oidc.amPublicId a) = auth.OidcSubtype →
  StructToProto E (pb.Attributes it) = Ok attrs →
  NewManagedGroup E (oidc.amPublicId a) (pb.Filter attrs)
    ((if pb.Name it is Some n then [oidcopt.WithName n] else []) ++
     (if pb.Description it is Some d then [oidcopt.WithDescription d] else []))
    = Ok mg →
  oidcRepoFn E = None →
  let c := CreateManagedGroup E (store w) (oidc.amScopeId a) mg in
  createInRepo E (Some a) (Some it) w =
    (Done (createAnswer c.1),
     {| store := c.2;
        trace := trace w ++
          [EvRepoFn; EvCreateManagedGroup (oidc.amScopeId a) mg] |}).
Proof.
  intros Hsub Hdec Hnew Hfn. unfold createInRepo, createOidcInRepo, bind, ret,
    repoFn, repoCreateManagedGroup, log. rewrite Hsub. simpl.
  rewrite Hdec, Hnew. simpl. rewrite Hfn. simpl.
  destruct (CreateManagedGroup E (store w) (oidc.amScopeId a) mg)
    as [[[out|]|err] st]; simpl; by rewrite <-app_assoc.
Qed.

(** [deleteFromRepo] on a recognized id: the repository factory, then the
    delete, whose zero rows and whose not-found error both come back as
    "not deleted". *)
Lemma deleteFromRepo_run scopeId id (w : World St) :
  SubtypeFromId E id = auth.OidcSubtype →
  oidcRepoFn E = None →
  let d := DeleteManagedGroup E (store w) scopeId id in
  deleteFromRepo E scopeId id w =
    (Done match d.1 with
          | Ok rows => Ok (bool_decide (rows > 0)%Z)
          | Err err =>
              if IsNotFoundError E err then Ok false
              else Err (Wrap err "managed_groups.(Service).deleteFromRepo" None)
          end,
     {| store := d.2;
        trace := trace w ++ [EvRepoFn; EvDeleteManagedGroup scopeId id] |}).
Proof.
  intros Hsub Hfn. unfold deleteFromRepo, bind, ret, repoFn,
    repoDeleteManagedGroup, log. simpl. rewrite Hsub, Hfn. simpl.
  destruct (DeleteManagedGroup E (store w) scopeId id) as [[rows|err] st]; simpl;
    [|destruct (IsNotFoundError E err)]; by rewrite <-app_assoc.
Qed.

End Helpers.

(** ** The handlers *)

Section Handlers.
Context {St OF Flt : Type} (E : Env St OF Flt).

Lemma added_after_verify (w w1 w' : World St) pre opts :
  trace w1 = trace w ++ pre ++ [EvVerify opts] →
  trace w' = trace w1 ∨ trace w' = trace w1 ++ [EvRepoFn] →
  ∃ tl, added w w' = pre ++ EvVerify opts :: tl ∧ (tl = [] ∨ tl = [EvRepoFn]).
Proof.
  intros Ht1 [Ht|Ht].
  - exists []. split; [|by left]. apply added_app. by rewrite Ht, Ht1.
  - exists [EvRepoFn]. split; [|by right]. apply added_app.
    by rewrite Ht, Ht1, <-!app_assoc.
Qed.

Lemma no_mutation_around_verify pre opts tl :
  Forall quiet pre → tl = [] ∨ tl = [EvRepoFn] →
  Forall (λ ev, isRepoMutation ev = false) (pre ++ EvVerify opts :: tl).
Proof.
  intros Hpre Htl. apply Forall_app. split.
  - eapply Forall_impl; [exact Hpre|]. by intros ev [? ?].
  - destruct Htl as [-> | ->]; by repeat constructor.
Qed.

Lemma verify_around_verify pre opts tl opts' :
  Forall quiet pre → tl = [] ∨ tl = [EvRepoFn] →
  EvVerify opts' ∈ pre ++ EvVerify opts :: tl → opts' = opts.
Proof.
  intros Hpre Htl Hin. apply elem_of_app in Hin as [Hin|Hin].
  - rewrite Forall_forall in Hpre. by destruct (Hpre _ Hin) as [_ ?].
  - destruct Htl as [-> | ->]; set_unfold in Hin; destruct_or!; by simplify_eq.
Qed.

(** A run of the Update handler either ends before [updateInRepo], with an
    error or a panic and the repository only read, or reaches it after a
    verdict of the policy engine that carries no error. *)
Lemma update_handler_run ctx req (w : World St) o w' :
  ServiceUpdateManagedGroup E ctx req w = (o, w') →
  (store w' = store w ∧
   (o = Panic ∨ ∃ e, o = Done (Err e)) ∧
   ∃ evs, trace w' = trace w ++ evs ∧
          Forall (λ ev, isRepoMutation ev = false) evs ∧
          ∀ opts, EvVerify opts ∈ evs → is_Some (vrError (Verify E opts))) ∨
  (∃ am opts pre w1 u,
     validateUpdateRequest E req = None ∧
     store w1 = store w ∧
     trace w1 = trace w ++ pre ++ [EvVerify opts] ∧
     Forall quiet pre ∧
     vrError (Verify E opts) = None ∧
     updateInRepo E (Scope_GetId (Verify E opts)) (oidc.amPublicId am) req w1
       = (Done u, w') ∧
     o = answer E opUpdate ctx (Verify E opts)
           (λ item, {| pbs.upItem := item |}) u).
Proof.
  unfold ServiceUpdateManagedGroup. intros H.
  destruct (validateUpdateRequest E req) as [err|] eqn:Hv.
  { left. injection H as <- <-. split_and!; [done|by eauto|].
    exists []. rewrite app_nil_r. split_and!; [done|constructor|].
    intros opts Hin. by apply elem_of_nil in Hin. }
  unfold bind in H.
  destruct (parentAndAuthResult E _ action.Update w) as [o1 w1] eqn:Hp.
  destruct (resolver_cases E _ _ _ _ _ Hp) as (Hs1 & pre & Hpre & Hcase).
  destruct Hcase as [[-> Ht]|[(err & -> & Ht)|(am & opts & -> & Ht)]].
  - left. injection H as <- <-. split_and!; [done|by left|].
    exists pre. split_and!; [done| |].
    + eapply Forall_impl; [exact Hpre|]. by intros ev [? ?].
    + intros opts Hin. rewrite Forall_forall in Hpre.
      by destruct (Hpre _ Hin) as [_ ?].
  - left. simpl in H. injection H as <- <-. split_and!; [done|by eauto|].
    exists pre. split_and!; [done| |].
    + eapply Forall_impl; [exact Hpre|]. by intros ev [? ?].
    + intros opts Hin. rewrite Forall_forall in Hpre.
      by destruct (Hpre _ Hin) as [_ ?].
  - simpl in H. destruct (vrError (Verify E opts)) as [err|] eqn:He.
    + left. injection H as <- <-. split_and!; [done|by eauto|].
      exists (pre ++ [EvVerify opts]). split_and!; [done| |].
      * apply Forall_app. split; [|by repeat constructor].
        eapply Forall_impl; [exact Hpre|]. by intros ev [? ?].
      * intros opts' Hin. apply elem_of_app in Hin as [Hin|Hin].
        -- rewrite Forall_forall in Hpre. by destruct (Hpre _ Hin) as [_ ?].
        -- apply list_elem_of_singleton in Hin. injection Hin as ->.
           rewrite He. by eexists.
    + right.
      destruct (updateInRepo E _ _ req w1) as [o2 w2] eqn:Hu.
      assert (∃ u, o2 = Done u) as [u ->].
      { destruct (updateInRepo_run E _ _ _ _ _ _ Hu)
          as [(_ & _ & [[e ->]|[-> _]])|(mg & m & _ & _ & _ & _ & _ & ->)];
          by eexists. }
      exists am, opts, pre, w1, u. unfold answer, opUpdate.
      destruct u as [mg|err]; simpl in H.
      * unfold liftO, ret in H.
        destruct (buildItem E _ ctx _ mg) as [[item|err]|]; simplify_eq;
          by split_and!.
      * unfold ret in H. simplify_eq. by split_and!.
Qed.

(** The same for the Create handler, whose helper may panic. *)
Lemma create_handler_run ctx req (w : World St) o w' :
  ServiceCreateManagedGroup E ctx req w = (o, w') →
  (store w' = store w ∧
   (o = Panic ∨ ∃ e, o = Done (Err e)) ∧
   ∃ evs, trace w' = trace w ++ evs ∧
          Forall (λ ev, isRepoMutation ev = false) evs ∧
          ∀ opts, EvVerify opts ∈ evs → is_Some (vrError (Verify E opts))) ∨
  (∃ am opts pre w1 o2,
     validateCreateRequest E req = None ∧
     store w1 = store w ∧
     trace w1 = trace w ++ pre ++ [EvVerify opts] ∧
     Forall quiet pre ∧
     vrError (Verify E opts) = None ∧
     createInRepo E (Some am) (req ≫= pbs.cItem) w1 = (o2, w') ∧
     o = match o2 with
         | Panic => Panic
         | Done u =>
             answer E opCreate ctx (Verify E opts)
               (λ item, {| pbs.crItem := item;
                           pbs.Uri := "managed-groups/" +:+ pb.Id item |}) u
         end).
Proof.
  unfold ServiceCreateManagedGroup. intros H.
  destruct (validateCreateRequest E req) as [err|] eqn:Hv.
  { left. injection H as <- <-. split_and!; [done|by eauto|].
    exists []. rewrite app_nil_r. split_and!; [done|constructor|].
    intros opts Hin. by apply elem_of_nil in Hin. }
  unfold bind in H.
  destruct (parentAndAuthResult E _ action.Create w) as [o1 w1] eqn:Hp.
  destruct (resolver_cases E _ _ _ _ _ Hp) as (Hs1 & pre & Hpre & Hcase).
  destruct Hcase as [[-> Ht]|[(err & -> & Ht)|(am & opts & -> & Ht)]].
  - left. injection H as <- <-. split_and!; [done|by left|].
    exists pre. split_and!; [done| |].
    + eapply Forall_impl; [exact Hpre|]. by intros ev [? ?].
    + intros opts Hin. rewrite Forall_forall in Hpre.
      by destruct (Hpre _ Hin) as [_ ?].
  - left. simpl in H. injection H as <- <-. split_and!; [done|by eauto|].
    exists pre. split_and!; [done| |].
    + eapply Forall_impl; [exact Hpre|]. by intros ev [? ?].
    + intros opts Hin. rewrite Forall_forall in Hpre.
      by destruct (Hpre _ Hin) as [_ ?].
  - simpl in H. destruct (vrError (Verify E opts)) as [err|] eqn:He.
    + left. injection H as <- <-. split_and!; [done|by eauto|].
      exists (pre ++ [EvVerify opts]). split_and!; [done| |].
      * apply Forall_app. split; [|by repeat constructor].
        eapply Forall_impl; [exact Hpre|]. by intros ev [? ?].
      * intros opts' Hin. apply elem_of_app in Hin as [Hin|Hin].
        -- rewrite Forall_forall in Hpre. by destruct (Hpre _ Hin) as [_ ?].
        -- apply list_elem_of_singleton in Hin. injection Hin as ->.
           rewrite He. by eexists.
    + right.
      destruct (createInRepo E _ _ w1) as [o2 w2] eqn:Hu.
      exists am, opts, pre, w1, o2. unfold answer, opCreate.
      destruct o2 as [[mg|err]|]; simpl in H; unfold liftO, ret in H.
      * destruct (buildItem E _ ctx _ mg) as [[item|err]|]; simplify_eq;
          by split_and!.
      * simplify_eq. by split_and!.
      * simplify_eq. by split_and!.
Qed.

(** Without a request context the projection step answers the Internal
    error, whatever the group. *)
Lemma buildItem_no_context op ctx authResults mg :
  ctxOutputFields ctx = None →
  buildItem E op ctx authResults mg = Done (Err (noRequestContext op)).
Proof. intros H. unfold buildItem. by rewrite H. Qed.

(** C2: when the repository reports zero rows for the conditional update of
    the request's id and version, whether the row is absent or its version
    differs, the Update handler answers one and the same NotFound error. A
    request that passes the validator, the resolver and the policy engine,
    with an item whose attributes decode and a mask that translates to a
    field, reaches the repository's update, and the zero rows are answered
    with the NotFound error of [updateOidcInRepo], wrapped by [updateInRepo],
    whatever the repository returns beside the zero. And in no run does the
    handler succeed: once the update has been called that error is the only
    answer. *)
Theorem update_zero_rows_not_found ctx (req : pbs.UpdateManagedGroupRequest)
    (w : World St) :
  SubtypeFromId E (pbs.uId req) = auth.OidcSubtype →
  let notFound :=
    Wrap notFoundOrVersion "managed_groups.(Service).updateInRepo" None in
  apiStatus notFound = Some codes.NotFound ∧
  (∀ it g am flt out st',
     let id := pbs.uId req in
     let opts := groupContext action.Update id am (oidc.AuthMethodId g) in
     let mg :=
       {| oidc.PublicId := id; oidc.AuthMethodId := "";
          oidc.Name := if pb.Name it is Some n then n else "";
          oidc.Description := if pb.Description it is Some d then d else "";
          oidc.CreateTime := None; oidc.UpdateTime := None;
          oidc.Version := 0%N; oidc.Filter := flt |} in
     let dbMask := Translate E (GetPaths (pbs.uUpdateMask req)) in
     validateUpdateRequest E (Some req) = None →
     oidcRepoFn E = None →
     LookupManagedGroup E (store w) id = Ok (Some g) →
     SubtypeFromId E (oidc.AuthMethodId g) = auth.OidcSubtype →
     LookupAuthMethod E (store w) (oidc.AuthMethodId g) = Ok (Some am) →
     vrError (Verify E opts) = None →
     pbs.uItem req = Some it →
     (pb.Attributes it = None ∧ flt = "") ∨
     (∃ apiAttr attrs, pb.Attributes it = Some apiAttr ∧
        StructToProto E (Some apiAttr) = Ok attrs ∧ flt = pb.Filter attrs) →
     dbMask ≠ [] →
     UpdateManagedGroup E (store w) (Scope_GetId (Verify E opts)) mg
       (pb.Version it) dbMask = (Ok (out, 0%Z), st') →
     ServiceUpdateManagedGroup E ctx (Some req) w =
       (Done (Err notFound),
        {| store := st';
           trace := trace w ++
             [EvRepoFn; EvLookupManagedGroup id;
              EvLookupAuthMethod (oidc.AuthMethodId g); EvVerify opts;
              EvRepoFn;
              EvUpdateManagedGroup (Scope_GetId (Verify E opts)) mg
                (pb.Version it) dbMask] |})) ∧
  (∀ r w',
     (∀ scopeId mg dbMask,
        oidc.PublicId mg = pbs.uId req →
        ∃ out st',
          UpdateManagedGroup E (store w) scopeId mg
            (GetItem_Version (pbs.uItem req)) dbMask = (Ok (out, 0%Z), st')) →
     ServiceUpdateManagedGroup E ctx (Some req) w = (Done r, w') →
     ∃ e, r = Err e ∧
          ∀ ev, ev ∈ added w w' → isRepoMutation ev = true → e = notFound).
Proof.
  intros Hsub notFound. split_and!; [done| |].
  - intros it g am flt out st' id opts mg dbMask
      Hv Hfn Hg Hsub' Ham He Hit Hdec Hm Hz.
    subst id opts mg dbMask.
    unfold ServiceUpdateManagedGroup. rewrite Hv. unfold bind. simpl.
    rewrite (resolver_group_run E _ action.Update w g am) by done.
    simpl. rewrite He.
    rewrite (updateInRepo_success E _ _ req it _ flt) by done. simpl.
    rewrite Hz. simpl. unfold ret. by rewrite <-app_assoc.
  - intros r w' Hzero H.
    destruct (update_handler_run _ _ _ _ _ H)
      as [(_ & Ho & evs & Ht & Hev & _)
         |(am & opts & pre & w1 & u & _ & Hs1 & Ht1 & Hpre & _ & Hu & Ho)].
    + destruct Ho as [?|[e [= ->]]]; [done|]. exists e. split; [done|].
      intros ev Hin Hmut. rewrite (added_app _ _ _ Ht) in Hin.
      rewrite Forall_forall in Hev. by rewrite (Hev _ Hin) in Hmut.
    + destruct (updateInRepo_run E _ _ _ _ _ _ Hu)
        as [(_ & Ht & [[e [= ->]]|[_ Hno]])
           |(mg & m & Hid & _ & _ & Ht & _ & [= ->])]; [| |].
      * exists e. simpl in Ho. injection Ho as ->. split; [done|].
        intros ev Hin Hmut. exfalso.
        destruct (added_after_verify _ _ _ _ _ Ht1 Ht) as (tl & Hadd & Htl).
        rewrite Hadd in Hin.
        pose proof (no_mutation_around_verify pre opts tl Hpre Htl) as Hno.
        rewrite Forall_forall in Hno. by rewrite (Hno _ Hin) in Hmut.
      * by destruct Hno.
      * simpl in Hid. rewrite Hs1 in Ho.
        destruct (Hzero (Scope_GetId (Verify E opts)) mg m Hid)
          as (out & st' & Hz).
        simpl in Ho. rewrite Hz in Ho. simpl in Ho. injection Ho as ->.
        eexists. split; [done|]. by intros.
Qed.

Lemma mutation_is_last pre opts last ev :
  Forall quiet pre →
  ev ∈ pre ++ [EvVerify opts; EvRepoFn; last] →
  isRepoMutation ev = true → ev = last.
Proof.
  intros Hpre Hin Hmut. apply elem_of_app in Hin as [Hin|Hin].
  - rewrite Forall_forall in Hpre. destruct (Hpre _ Hin) as [Hq _].
    by rewrite Hq in Hmut.
  - set_unfold in Hin. destruct_or!; by subst.
Qed.

(** C3, amended: when the update mask of a request translates to no storage
    field, the repository's update is never called and the repository is
    left as it was; and if the run reached a verdict of the policy engine
    that carries no error, on a recognized Oidc id and an item whose
    attributes decode, the handler answers the InvalidArgument error of the
    empty mask and nothing was called after the verdict. The lookups the
    resolver makes before the verdict do reach the repository. *)
Theorem empty_mask_rejected_without_mutation ctx
    (req : pbs.UpdateManagedGroupRequest) (w : World St) o w' :
  Translate E (GetPaths (pbs.uUpdateMask req)) = [] →
  ServiceUpdateManagedGroup E ctx (Some req) w = (o, w') →
  store w' = store w ∧
  Forall (λ ev, isRepoMutation ev = false) (added w w') ∧
  ∀ opts it,
    EvVerify opts ∈ added w w' →
    vrError (Verify E opts) = None →
    SubtypeFromId E (pbs.uId req) = auth.OidcSubtype →
    pbs.uItem req = Some it →
    (∀ apiAttr, pb.Attributes it = Some apiAttr →
                ∃ attrs, StructToProto E (Some apiAttr) = Ok attrs) →
    o = Done (Err (Wrap noValidFields "managed_groups.(Service).updateInRepo" None)) ∧
    ∃ pre, added w w' = pre ++ [EvVerify opts].
Proof.
  intros Hm H.
  destruct (update_handler_run _ _ _ _ _ H)
    as [(Hs & _ & evs & Ht & Hev & Hver)
       |(am & opts & pre & w1 & u & _ & Hs1 & Ht1 & Hpre & Hok & Hu & Ho)].
  - rewrite (added_app _ _ _ Ht). split_and!; [done..|].
    intros opts it Hin Hnone. destruct (Hver _ Hin) as [err Herr]. congruence.
  - destruct (updateInRepo_run E _ _ _ _ _ _ Hu)
      as [(Hs & Ht & _)|(mg & m & _ & -> & Hne & _)]; [|done].
    destruct (added_after_verify _ _ _ _ _ Ht1 Ht) as (tl & Hadd & Htl).
    rewrite Hadd. split_and!; [congruence|by apply no_mutation_around_verify|].
    intros opts' it Hin Hnone Hsub Hit Hdec.
    apply verify_around_verify in Hin as ->; [|done..].
    unfold updateInRepo, bind in Hu. simpl in Hu. rewrite Hsub, Hit in Hu.
    rewrite (updateOidcInRepo_empty_mask E _ _ _ _ it w1 Hm Hdec) in Hu.
    injection Hu as <- <-. simpl in Ho. split; [done|].
    exists pre. rewrite <-Hadd. apply added_app. by rewrite Ht1.
Qed.

(** C10: Create and Update change the repository before they look for the
    output fields in the request context. Without a request context, a
    Create that passes the validator, the resolver and the policy engine
    makes the insert, and an insert that succeeds is answered with the
    Internal error of the missing context while the store is the one the
    repository left; the same holds of an Update and its conditional
    update. And in every run without a request context the handler ends in
    an error, and once the insert or the update is in the trace the store
    is the one the repository left: the change is not undone. *)
Theorem mutation_survives_missing_context ctx :
  ctxOutputFields ctx = None →
  (∀ it (w : World St) am attrs mg out st',
     let amId := pb.AuthMethodId it in
     let opts := collectionContext action.Create am amId in
     validateCreateRequest E (Some {| pbs.cItem := Some it |}) = None →
     oidcRepoFn E = None →
     SubtypeFromId E amId = auth.OidcSubtype →
     LookupAuthMethod E (store w) amId = Ok (Some am) →
     vrError (Verify E opts) = None →
     SubtypeFromId E (oidc.amPublicId am) = auth.OidcSubtype →
     StructToProto E (pb.Attributes it) = Ok attrs →
     NewManagedGroup E (oidc.amPublicId am) (pb.Filter attrs)
       ((if pb.Name it is Some n then [oidcopt.WithName n] else []) ++
        (if pb.Description it is Some d then [oidcopt.WithDescription d] else []))
       = Ok mg →
     CreateManagedGroup E (store w) (oidc.amScopeId am) mg
       = (Ok (Some out), st') →
     ServiceCreateManagedGroup E ctx (Some {| pbs.cItem := Some it |}) w =
       (Done (Err (noRequestContext opCreate)),
        {| store := st';
           trace := trace w ++
             [EvRepoFn; EvLookupAuthMethod amId; EvVerify opts;
              EvRepoFn; EvCreateManagedGroup (oidc.amScopeId am) mg] |})) ∧
  (∀ (req : pbs.UpdateManagedGroupRequest) it (w : World St) g am flt
      out rows st',
     let id := pbs.uId req in
     let opts := groupContext action.Update id am (oidc.AuthMethodId g) in
     let mg :=
       {| oidc.PublicId := id; oidc.AuthMethodId := "";
          oidc.Name := if pb.Name it is Some n then n else "";
          oidc.Description := if pb.Description it is Some d then d else "";
          oidc.CreateTime := None; oidc.UpdateTime := None;
          oidc.Version := 0%N; oidc.Filter := flt |} in
     let dbMask := Translate E (GetPaths (pbs.uUpdateMask req)) in
     validateUpdateRequest E (Some req) = None →
     oidcRepoFn E = None →
     SubtypeFromId E id = auth.OidcSubtype →
     LookupManagedGroup E (store w) id = Ok (Some g) →
     SubtypeFromId E (oidc.AuthMethodId g) = auth.OidcSubtype →
     LookupAuthMethod E (store w) (oidc.AuthMethodId g) = Ok (Some am) →
     vrError (Verify E opts) = None →
     pbs.uItem req = Some it →
     (pb.Attributes it = None ∧ flt = "") ∨
     (∃ apiAttr attrs, pb.Attributes it = Some apiAttr ∧
        StructToProto E (Some apiAttr) = Ok attrs ∧ flt = pb.Filter attrs) →
     dbMask ≠ [] →
     UpdateManagedGroup E (store w) (Scope_GetId (Verify E opts)) mg
       (pb.Version it) dbMask = (Ok (Some out, rows), st') →
     rows ≠ 0%Z →
     ServiceUpdateManagedGroup E ctx (Some req) w =
       (Done (Err (noRequestContext opUpdate)),
        {| store := st';
           trace := trace w ++
             [EvRepoFn; EvLookupManagedGroup id;
              EvLookupAuthMethod (oidc.AuthMethodId g); EvVerify opts;
              EvRepoFn;
              EvUpdateManagedGroup (Scope_GetId (Verify E opts)) mg
                (pb.Version it) dbMask] |})) ∧
  (∀ req (w : World St) r w',
     ServiceCreateManagedGroup E ctx req w = (Done r, w') →
     (∃ e, r = Err e) ∧
     ∀ scopeId mg,
       EvCreateManagedGroup scopeId mg ∈ added w w' →
       store w' = (CreateManagedGroup E (store w) scopeId mg).2 ∧
       ∀ out, (CreateManagedGroup E (store w) scopeId mg).1 = Ok (Some out) →
              r = Err (noRequestContext opCreate)) ∧
  (∀ req (w : World St) r w',
     ServiceUpdateManagedGroup E ctx req w = (Done r, w') →
     (∃ e, r = Err e) ∧
     ∀ scopeId mg version dbMask,
       EvUpdateManagedGroup scopeId mg version dbMask ∈ added w w' →
       store w' = (UpdateManagedGroup E (store w) scopeId mg version dbMask).2 ∧
       ∀ out rows,
         (UpdateManagedGroup E (store w) scopeId mg version dbMask).1
           = Ok (Some out, rows) →
         rows ≠ 0%Z →
         r = Err (noRequestContext opUpdate)).
Proof.
  intros Hctx. split_and!.
  - intros it w am attrs mg out st' amId opts
      Hv Hfn Hsub Ham He Hsub' Hdec Hnew Hc.
    subst amId opts.
    unfold ServiceCreateManagedGroup. rewrite Hv. unfold bind. simpl.
    rewrite (resolver_collection_run E _ action.Create w am)
      by (done || by right).
    simpl. rewrite He.
    rewrite (createInRepo_success E am it _ attrs mg) by done. simpl.
    rewrite Hc. simpl. unfold liftO.
    rewrite buildItem_no_context by done. simpl. unfold ret.
    by rewrite <-app_assoc.
  - intros req it w g am flt out rows st' id opts mg dbMask
      Hv Hfn Hsub Hg Hsub' Ham He Hit Hdec Hm Hu Hrows.
    subst id opts mg dbMask.
    unfold ServiceUpdateManagedGroup. rewrite Hv. unfold bind. simpl.
    rewrite (resolver_group_run E _ action.Update w g am) by done.
    simpl. rewrite He.
    rewrite (updateInRepo_success E _ _ req it _ flt) by done. simpl.
    rewrite Hu. simpl. rewrite decide_False by done. simpl. unfold liftO.
    rewrite buildItem_no_context by done. simpl. unfold ret.
    by rewrite <-app_assoc.
  - intros req w r w' H.
    destruct (create_handler_run _ _ _ _ _ H)
      as [(_ & Ho & evs & Ht & Hev & _)
         |(am & opts & pre & w1 & o2 & _ & Hs1 & Ht1 & Hpre & _ & Hc & Ho)].
    { destruct Ho as [?|[e [= ->]]]; [done|]. split; [by eexists|].
      intros scopeId mg Hin. rewrite (added_app _ _ _ Ht) in Hin.
      rewrite Forall_forall in Hev. by specialize (Hev _ Hin). }
    destruct (createInRepo_run E _ _ _ _ _ Hc)
      as [(_ & Ht & Ho2)|(a & mg & _ & Ht & Hs & ->)].
    + destruct (added_after_verify _ _ _ _ _ Ht1 Ht) as (tl & Hadd & Htl).
      split.
      * destruct Ho2 as [->|[[e ->]| ->]]; [done| |]; simpl in Ho.
        -- injection Ho as ->. by eexists.
        -- rewrite buildItem_no_context in Ho by done.
           injection Ho as ->. by eexists.
      * intros scopeId mg Hin. rewrite Hadd in Hin.
        pose proof (no_mutation_around_verify pre opts tl Hpre Htl) as Hno.
        rewrite Forall_forall in Hno. by specialize (Hno _ Hin).
    + rewrite Hs1 in Hs. simpl in Ho.
      assert (added w w' =
              pre ++ [EvVerify opts; EvRepoFn;
                      EvCreateManagedGroup (oidc.amScopeId a) mg]) as Hadd.
      { apply added_app. by rewrite Ht, Ht1, <-!app_assoc. }
      destruct (CreateManagedGroup E (store w) (oidc.amScopeId a) mg)
        as [c st] eqn:Hcr.
      assert (r = match c with
                  | Ok (Some _) => Err (noRequestContext opCreate)
                  | _ => r
                  end ∧ ∃ e, r = Err e) as [Hr He].
      { rewrite Hs1, Hcr in Ho. destruct c as [[out|]|err]; simpl in Ho.
        - rewrite buildItem_no_context in Ho by done.
          injection Ho as ->. split; [done|by eexists].
        - injection Ho as ->. split; [done|by eexists].
        - injection Ho as ->. split; [done|by eexists]. }
      split; [done|]. intros scopeId mg' Hin. rewrite Hadd in Hin.
      apply mutation_is_last in Hin; [|done..]. injection Hin as -> ->.
      rewrite Hcr. simpl in *. split; [done|].
      intros out ->. exact Hr.
  - intros req w r w' H.
    destruct (update_handler_run _ _ _ _ _ H)
      as [(_ & Ho & evs & Ht & Hev & _)
         |(am & opts & pre & w1 & u & _ & Hs1 & Ht1 & Hpre & _ & Hu & Ho)].
    { destruct Ho as [?|[e [= ->]]]; [done|]. split; [by eexists|].
      intros scopeId mg version dbMask Hin. rewrite (added_app _ _ _ Ht) in Hin.
      rewrite Forall_forall in Hev. by specialize (Hev _ Hin). }
    destruct (updateInRepo_run E _ _ _ _ _ _ Hu)
      as [(_ & Ht & Ho2)|(mg & m & _ & _ & _ & Ht & Hs & [= ->])].
    + destruct (added_after_verify _ _ _ _ _ Ht1 Ht) as (tl & Hadd & Htl).
      split.
      * destruct Ho2 as [[e [= ->]]|[[= ->] _]]; simpl in Ho.
        -- injection Ho as ->. by eexists.
        -- rewrite buildItem_no_context in Ho by done.
           injection Ho as ->. by eexists.
      * intros scopeId mg version dbMask Hin. rewrite Hadd in Hin.
        pose proof (no_mutation_around_verify pre opts tl Hpre Htl) as Hno.
        rewrite Forall_forall in Hno. by specialize (Hno _ Hin).
    + rewrite Hs1 in Hs.
      assert (added w w' =
              pre ++ [EvVerify opts; EvRepoFn;
                      EvUpdateManagedGroup (Scope_GetId (Verify E opts)) mg
                        (GetItem_Version (req ≫= pbs.uItem)) m]) as Hadd.
      { apply added_app. by rewrite Ht, Ht1, <-!app_assoc. }
      destruct (UpdateManagedGroup E (store w) (Scope_GetId (Verify E opts)) mg
                  (GetItem_Version (req ≫= pbs.uItem)) m) as [c st] eqn:Hup.
      assert (r = match c with
                  | Ok (Some _, rows) =>
                      if decide (rows = 0%Z) then r
                      else Err (noRequestContext opUpdate)
                  | _ => r
                  end ∧ ∃ e, r = Err e) as [Hr He].
      { rewrite Hs1, Hup in Ho. unfold updateAnswer in Ho.
        destruct c as [[[out|] rows]|err]; simpl in Ho;
          repeat case_decide; simpl in Ho;
          rewrite ?buildItem_no_context in Ho by done;
          injection Ho as ->; (split; [done|by eexists]). }
      split; [done|]. intros scopeId mg' version dbMask Hin. rewrite Hadd in Hin.
      apply mutation_is_last in Hin; [|done..]. injection Hin as -> -> -> ->.
      rewrite Hup. simpl in *. split; [done|].
      intros out rows -> Hrows. by rewrite decide_False in Hr.
Qed.

(** C6, amended: for an id classified as Unknown, [getFromRepo] answers
    NotFound without calling the repository; and the Get, Update and Delete
    handlers answer the error of their validator, when it rejects the
    request, before any call to the repository or to the policy engine. *)
Theorem unknown_id_outcomes id (w : World St) :
  SubtypeFromId E id = auth.UnknownSubtype →
  getFromRepo E id w = (Done (Err (NotFoundErrorf "Unrecognized id.")), w) ∧
  (∀ ctx err,
     ValidateGetRequest E ∅ id oidc.ManagedGroupPrefix = Some err →
     ServiceGetManagedGroup E ctx (Some {| pbs.gId := id |}) w
       = (Done (Err err), w)) ∧
  (∀ ctx req err,
     pbs.uId req = id →
     ValidateUpdateRequest E req (updateBadFields E req) oidc.ManagedGroupPrefix
       = Some err →
     ServiceUpdateManagedGroup E ctx (Some req) w = (Done (Err err), w)) ∧
  (∀ ctx err,
     ValidateDeleteRequest E ∅ id oidc.ManagedGroupPrefix = Some err →
     ServiceDeleteManagedGroup E ctx (Some {| pbs.dId := id |}) w
       = (Done (Err err), w)).
Proof.
  intros Hsub. split_and!.
  - unfold getFromRepo. by rewrite Hsub.
  - intros ctx err Hv. unfold ServiceGetManagedGroup, validateGetRequest.
    simpl. by rewrite Hv.
  - intros ctx req err _ Hv. unfold ServiceUpdateManagedGroup, validateUpdateRequest.
    by rewrite Hv.
  - intros ctx err Hv. unfold ServiceDeleteManagedGroup, validateDeleteRequest.
    simpl. by rewrite Hv.
Qed.

(** C7, amended: on a recognized Oidc id, [deleteFromRepo] answers
    "not deleted", and no error, when the repository's delete reports zero
    rows or fails with a not-found error; any other failure of the delete
    is answered as an error, wrapped once, and a delete of at least one row
    as "deleted"; the Delete handler answers NotFound, from the resolver,
    when the repository does not have the group; and when the handler
    succeeds its response is nil. *)
Theorem delete_absent_outcomes scopeId id (w : World St) :
  SubtypeFromId E id = auth.OidcSubtype →
  oidcRepoFn E = None →
  (∀ st',
     DeleteManagedGroup E (store w) scopeId id = (Ok 0%Z, st') ∨
     (∃ err, DeleteManagedGroup E (store w) scopeId id = (Err err, st') ∧
             IsNotFoundError E err = true) →
     deleteFromRepo E scopeId id w =
       (Done (Ok false),
        {| store := st';
           trace := trace w ++ [EvRepoFn; EvDeleteManagedGroup scopeId id] |})) ∧
  (∀ err st',
     DeleteManagedGroup E (store w) scopeId id = (Err err, st') →
     IsNotFoundError E err = false →
     deleteFromRepo E scopeId id w =
       (Done (Err (Wrap err "managed_groups.(Service).deleteFromRepo" None)),
        {| store := st';
           trace := trace w ++ [EvRepoFn; EvDeleteManagedGroup scopeId id] |})) ∧
  (∀ rows st',
     DeleteManagedGroup E (store w) scopeId id = (Ok rows, st') →
     (rows > 0)%Z →
     deleteFromRepo E scopeId id w =
       (Done (Ok true),
        {| store := st';
           trace := trace w ++ [EvRepoFn; EvDeleteManagedGroup scopeId id] |})) ∧
  (∀ ctx,
     validateDeleteRequest E (Some {| pbs.dId := id |}) = None →
     LookupManagedGroup E (store w) id = Ok None →
     ServiceDeleteManagedGroup E ctx (Some {| pbs.dId := id |}) w =
       (Done (Err NotFoundError),
        {| store := store w;
           trace := trace w ++ [EvRepoFn; EvLookupManagedGroup id] |})) ∧
  (∀ ctx req r w',
     ServiceDeleteManagedGroup E ctx req w = (Done (Ok r), w') → r = None).
Proof.
  intros Hsub Hfn. split_and!.
  - intros st' Hd. rewrite deleteFromRepo_run by done.
    destruct Hd as [->|(err & -> & Hnf)]; simpl; [done|]. by rewrite Hnf.
  - intros err st' Hd Hnf. rewrite deleteFromRepo_run by done.
    rewrite Hd. simpl. by rewrite Hnf.
  - intros rows st' Hd Hrows. rewrite deleteFromRepo_run by done.
    rewrite Hd. simpl. by rewrite bool_decide_eq_true_2.
  - intros ctx Hv Hlook. unfold ServiceDeleteManagedGroup. rewrite Hv.
    unfold bind. simpl.
    by rewrite (resolver_absent_group E id action.Delete w).
  - intros ctx req r w' H. unfold ServiceDeleteManagedGroup, bind, ret in H.
    repeat case_match; by simplify_eq.
Qed.

End Handlers.

(** ** Listing *)

Section Listing.
Context {St OF Flt : Type} (E : Env St OF Flt).

Lemma setId_setId id id' res : setId id (setId id' res) = setId id res.
Proof. done. Qed.

Lemma listAuthorizedActions_setId authResults res id id' :
  listAuthorizedActions E authResults (setId id' res) id
  = listAuthorizedActions E authResults res id.
Proof. done. Qed.

Lemma listAuthorizedActions_nil authResults res id :
  length (listAuthorizedActions E authResults res id) = 0
  ↔ grantedActions E authResults res id = [].
Proof.
  unfold listAuthorizedActions, grantedActions, action.Strings.
  rewrite length_fmap. apply length_zero_iff_nil.
Qed.

(** The loop reads of [res] everything but its id. *)
Lemma listLoop_setId authResults flt res id ul acc :
  listLoop E authResults flt (setId id res) ul acc
  = listLoop E authResults flt res ul acc.
Proof.
  revert res id acc. induction ul as [|mg ul IH]; intros res id acc; [done|].
  simpl. destruct (GetPublicId mg) as [id'|]; [|done]. simpl.
  rewrite listAuthorizedActions_setId, !setId_setId.
  by repeat case_match.
Qed.

(** A group without a granted action is skipped before it is projected and
    before the filter sees it: the loop gives the same result without it. *)
Lemma listLoop_drops authResults flt res ul acc :
  listLoop E authResults flt res ul acc
  = listLoop E authResults flt res
      (filter (λ mg, kept E authResults res mg = true) ul) acc.
Proof.
  revert res acc. induction ul as [|mg ul IH]; intros res acc; [done|].
  rewrite filter_cons.
  destruct (GetPublicId mg) as [id|] eqn:Hid.
  - assert (kept E authResults res mg
            = bool_decide (grantedActions E authResults res id ≠ [])) as Hk.
    { unfold kept. by rewrite Hid. }
    pose proof (listAuthorizedActions_nil authResults res id) as Hnil.
    destruct (decide (grantedActions E authResults res id = [])) as [Hz|Hz].
    + rewrite decide_False
        by (rewrite Hk, bool_decide_eq_true; tauto).
      cbn [listLoop]. rewrite Hid. cbn [obind].
      rewrite decide_True by (by apply Hnil).
      rewrite listLoop_setId. apply IH.
    + rewrite decide_True by (by rewrite Hk, bool_decide_eq_true).
      cbn [listLoop]. rewrite Hid. cbn [obind].
      rewrite !decide_False by (by rewrite Hnil).
      destruct (toProto E mg _) as [[item|err]|]; cbn [obind]; [|done..].
      rewrite !listLoop_setId, <-!IH. by destruct (Match E flt item).
  - rewrite decide_True by (unfold kept; by rewrite Hid).
    cbn [listLoop]. by rewrite Hid.
Qed.

(** Every item the loop adds is the projection of a group of the list on
    which the policy engine grants an action. *)
Lemma listLoop_items authResults flt res ul acc items :
  listLoop E authResults flt res ul acc = Done (Ok items) →
  ∃ new, items = acc ++ new ∧
    Forall (λ item,
      ∃ mg id, mg ∈ ul ∧ GetPublicId mg = Done id ∧
        grantedActions E authResults res id ≠ [] ∧
        toProto E mg
          (listOutputOpts E authResults (setId id res)
             (listAuthorizedActions E authResults res id)) = Done (Ok item) ∧
        Match E flt item = true) new.
Proof.
  revert res acc. induction ul as [|mg ul IH]; intros res acc H; simpl in H.
  { injection H as <-. exists []. by rewrite app_nil_r. }
  destruct (GetPublicId mg) as [id|] eqn:Hid; [|done]. simpl in H.
  assert (∀ new,
    Forall (λ item,
      ∃ mg' id', mg' ∈ ul ∧ GetPublicId mg' = Done id' ∧
        grantedActions E authResults (setId id res) id' ≠ [] ∧
        toProto E mg'
          (listOutputOpts E authResults (setId id' (setId id res))
             (listAuthorizedActions E authResults (setId id res) id'))
          = Done (Ok item) ∧
        Match E flt item = true) new →
    Forall (λ item,
      ∃ mg' id', mg' ∈ mg :: ul ∧ GetPublicId mg' = Done id' ∧
        grantedActions E authResults res id' ≠ [] ∧
        toProto E mg'
          (listOutputOpts E authResults (setId id' res)
             (listAuthorizedActions E authResults res id')) = Done (Ok item) ∧
        Match E flt item = true) new) as Hlift.
  { intros new Hnew. eapply Forall_impl; [exact Hnew|]. simpl.
    intros item (mg' & id' & Hin & Hid' & Hg & Hp & Hm).
    exists mg', id'. split_and!; try done. by right. }
  destruct (decide (length (listAuthorizedActions E authResults res id) = 0))
    as [Hz|Hz].
  - destruct (IH _ _ H) as (new & -> & Hnew). exists new. split; [done|].
    by apply Hlift.
  - destruct (toProto E mg _) as [[item|err]|] eqn:Hp; simpl in H; [|done..].
    destruct (Match E flt item) eqn:Hm.
    + destruct (IH _ _ H) as (new & -> & Hnew). exists (item :: new).
      split; [by rewrite <-app_assoc|]. constructor; [|by apply Hlift].
      exists mg, id. split_and!; try done; [by left|].
      by rewrite <-listAuthorizedActions_nil.
    + destruct (IH _ _ H) as (new & -> & Hnew). exists new. split; [done|].
      by apply Hlift.
Qed.

Lemma listFromRepo_run id (w : World St) o w' :
  listFromRepo E id w = (o, w') →
  store w' = store w ∧
  ∀ ul, o = Done (Ok ul) →
    ul = [] ∨
    ∃ groups, ListManagedGroups E (store w) id = Ok groups ∧
              ul = (λ a, Some (OidcGroup (Some a))) <$> groups.
Proof.
  unfold listFromRepo, bind, ret, repoFn, repoListManagedGroups, log.
  simpl. intros H.
  repeat case_match; simplify_eq; simpl; (split; [done|]);
    intros ul [= <-]; eauto.
Qed.

(** [listFromRepo] on a recognized id, with a repository at hand. *)
Lemma listFromRepo_success id (w : World St) :
  SubtypeFromId E id = auth.OidcSubtype →
  oidcRepoFn E = None →
  listFromRepo E id w =
    (Done match ListManagedGroups E (store w) id with
          | Ok oidcl => Ok ((λ a, Some (OidcGroup (Some a))) <$> oidcl)
          | Err err => Err (Wrap err "managed_groups.(Service).listFromRepo" None)
          end,
     {| store := store w;
        trace := trace w ++ [EvRepoFn; EvListManagedGroups id] |}).
Proof.
  intros Hsub Hfn. unfold listFromRepo, bind, ret, repoFn,
    repoListManagedGroups, log. rewrite Hsub. simpl. rewrite Hfn. simpl.
  destruct (ListManagedGroups E (store w) id); simpl; by rewrite <-app_assoc.
Qed.

(** C5: every item of a List response is the projection of a group of the
    repository's list on which the policy engine grants at least one action,
    the actions being asked of the verdict the resolver obtained for the
    collection of the request's auth method, about the group's id, within
    the scope of that verdict and with the auth method as pin. A response
    is empty when the repository's list is, and is otherwise exactly what
    the loop returns under that verdict. And a group without a granted
    action is skipped before the projection and before the filter, the loop
    giving the same result without it. *)
Theorem list_returns_only_authorized_items ctx req (w : World St) resp w' :
  ServiceListManagedGroups E ctx req w = (Done (Ok resp), w') →
  let amId := from_option pbs.lAuthMethodId "" req in
  (∃ am groups,
     LookupAuthMethod E (store w) amId = Ok (Some am) ∧
     ListManagedGroups E (store w) amId = Ok groups ∧
     let authResults := Verify E (collectionContext action.List am amId) in
     vrError authResults = None ∧
     ((groups = [] ∧ pbs.Items resp = []) ∨
      ∃ scope flt,
        let res := {| perms.ScopeId := pb.scId scope; perms.Id := "";
                      perms.Type_ := resource.ManagedGroup;
                      perms.Pin := amId |} in
        groups ≠ [] ∧
        vrScope authResults = Some scope ∧
        NewFilter E (from_option pbs.lFilter "" req) = Ok flt ∧
        listLoop E authResults flt res
          ((λ a, Some (OidcGroup (Some a))) <$> groups) []
          = Done (Ok (pbs.Items resp)) ∧
        Forall (λ item,
          ∃ g,
            g ∈ groups ∧
            FetchActionSetForId E authResults (oidc.PublicId g)
              (IdActions (SubtypeFromId E (oidc.PublicId g)))
              (Some (setId (oidc.PublicId g) res)) ≠ [] ∧
            toProto E (Some (OidcGroup (Some g)))
              (listOutputOpts E authResults (setId (oidc.PublicId g) res)
                 (listAuthorizedActions E authResults res (oidc.PublicId g)))
              = Done (Ok item) ∧
            Match E flt item = true)
          (pbs.Items resp))) ∧
  ∀ authResults flt res ul acc,
    listLoop E authResults flt res ul acc
    = listLoop E authResults flt res
        (filter (λ mg, kept E authResults res mg = true) ul) acc.
Proof.
  intros H amId. split; [|intros; apply listLoop_drops].
  unfold ServiceListManagedGroups in H. fold amId in H.
  destruct (validateListRequest E req); [done|].
  unfold bind in H.
  destruct (parentAndAuthResult E amId action.List w) as [[[am ar]|] w1] eqn:Hp;
    [|done].
  destruct (readOnly_parentAndAuthResult E _ _ _ _ _ Hp) as [Hs1 _].
  simpl in H. destruct (vrError ar) eqn:He; [done|].
  destruct (resolver_list_verdict E _ _ _ _ _ Hp He)
    as (Hfn & Hsub & am' & -> & Ham & ->).
  rewrite listFromRepo_success in H by done. rewrite Hs1 in H. simpl in H.
  destruct (ListManagedGroups E (store w) amId) as [groups|err] eqn:Hgroups;
    [|done].
  exists am', groups. split_and!; [done..|]. simpl in *. split; [done|].
  rewrite length_fmap in H.
  destruct (decide (length groups = 0)) as [Hz|Hz].
  { injection H as <- _. left. split; [|done]. by apply length_zero_iff_nil. }
  destruct (NewFilter E _) as [flt|] eqn:Hflt; [|done].
  destruct (vrScope _) as [scope|] eqn:Hsc; [|done].
  unfold liftO, ret in H.
  match type of H with
  | context [listLoop E ?ar flt ?res ?ul []] =>
      destruct (listLoop E ar flt res ul []) as [[items|err]|] eqn:Hloop;
      [|done..]
  end.
  injection H as <- _. simpl. right. exists scope, flt.
  split_and!; [by intros ->|done..|].
  destruct (listLoop_items _ _ _ _ _ _ Hloop) as (new & -> & Hnew). simpl.
  eapply Forall_impl; [exact Hnew|]. simpl.
  intros item (mg & id & Hin & Hid & Hg & Hproj & Hm).
  apply list_elem_of_fmap in Hin as (g & -> & Hin).
  injection Hid as <-. by exists g.
Qed.

End Listing.

(** ** The properties on the sample data *)

Section Samples.
Import sample sample2.

(** At a stale version the in-memory repository updates no row. *)
Lemma stale_version_zero_rows scopeId mg dbMask :
  oidc.PublicId mg = pbs.uId updStale →
  ∃ out st',
    UpdateManagedGroup E0 (store w0) scopeId mg
      (GetItem_Version (pbs.uItem updStale)) dbMask = (Ok (out, 0%Z), st').
Proof.
  intros Hid. simpl. unfold inmem.updateManagedGroup. rewrite Hid. simpl.
  by eexists _, _.
Qed.

(** The first group projected on its id and version. *)
Lemma toProto_populated_subset_requested_witness :
  let opt := [handlers.WithOutputFields [globals.IdField; globals.VersionField]] in
  let out := pbset.setAttributes None
               {| pb.Id := "mgoidc_a"; pb.AuthMethodId := ""; pb.Scope := None;
                  pb.Name := None; pb.Description := None;
                  pb.CreatedTime := None; pb.UpdatedTime := None;
                  pb.Version := 1%N; pb.Type_ := ""; pb.Attributes := None;
                  pb.AuthorizedActions := [] |} in
  toProto E0 (Some (OidcGroup (Some g1))) opt = Done (Ok out) ∧
  ∃ outputFields,
    handlers.withOutputFields (handlers.GetOpts opt) = Some outputFields ∧
    ∀ f, f ∈ populated out → Has E0 outputFields f = true.
Proof.
  split; [reflexivity|].
  apply (toProto_populated_subset_requested E0 (Some (OidcGroup (Some g1)))).
  reflexivity.
Defined.

(** An update of the first group at a stale version: the update is called,
    no row is changed and the answer is NotFound. *)
Lemma update_zero_rows_not_found_witness :
  let run := ServiceUpdateManagedGroup E0 ctx0 (Some updStale) w0 in
  let notFound :=
    Wrap notFoundOrVersion "managed_groups.(Service).updateInRepo" None in
  let mg :=
    {| oidc.PublicId := "mgoidc_a"; oidc.AuthMethodId := "";
       oidc.Name := "ops"; oidc.Description := "";
       oidc.CreateTime := None; oidc.UpdateTime := None;
       oidc.Version := 0%N; oidc.Filter := "" |} in
  SubtypeFromId E0 (pbs.uId updStale) = auth.OidcSubtype ∧
  UpdateManagedGroup E0 (store w0) "o_1" mg 7%N ["Name"]
    = (Ok (None, 0%Z), store w0) ∧
  apiStatus notFound = Some codes.NotFound ∧
  run =
    (Done (Err notFound),
     {| store := store w0;
        trace := trace w0 ++
          [EvRepoFn; EvLookupManagedGroup "mgoidc_a";
           EvLookupAuthMethod "amoidc_1"; EvVerify (optsOn action.Update);
           EvRepoFn; EvUpdateManagedGroup "o_1" mg 7%N ["Name"]] |}) ∧
  ∃ r, run.1 = Done r ∧
    ∃ e, r = Err e ∧
      ∀ ev, ev ∈ added w0 run.2 → isRepoMutation ev = true → e = notFound.
Proof.
  intros run notFound mg.
  pose proof (update_zero_rows_not_found E0 ctx0 updStale w0 eq_refl)
    as (Hstatus & Hcalled & Hnever).
  split_and!; [reflexivity|reflexivity|exact Hstatus| |].
  - apply (Hcalled (item 7 "ops") g1 am1 "" None (store w0));
      [reflexivity..|by left|discriminate|reflexivity].
  - exists (Err notFound). split; [reflexivity|].
    apply (Hnever (Err notFound) run.2);
      [apply stale_version_zero_rows|reflexivity].
Defined.

(** An update of the first group whose mask names no field. *)
Lemma empty_mask_rejected_without_mutation_witness :
  let run := ServiceUpdateManagedGroup E0 ctx0 (Some updBogus) w0 in
  Translate E0 (GetPaths (pbs.uUpdateMask updBogus)) = [] ∧
  store run.2 = store w0 ∧
  Forall (λ ev, isRepoMutation ev = false) (added w0 run.2) ∧
  ∀ opts it,
    EvVerify opts ∈ added w0 run.2 →
    vrError (Verify E0 opts) = None →
    SubtypeFromId E0 (pbs.uId updBogus) = auth.OidcSubtype →
    pbs.uItem updBogus = Some it →
    (∀ apiAttr, pb.Attributes it = Some apiAttr →
                ∃ attrs, StructToProto E0 (Some apiAttr) = Ok attrs) →
    run.1 = Done (Err (Wrap noValidFields "managed_groups.(Service).updateInRepo" None)) ∧
    ∃ pre, added w0 run.2 = pre ++ [EvVerify opts].
Proof.
  intros run. split; [reflexivity|].
  apply (empty_mask_rejected_without_mutation E0 ctx0 updBogus w0).
  - reflexivity.
  - apply surjective_pairing.
Defined.

(** A delete of a group the repository does not have. *)
Lemma absent_group_not_found_before_policy_witness :
  LookupManagedGroup E0 (store w0) "mgoidc_zz" = Ok None ∧
  parentAndAuthResult E0 "mgoidc_zz" action.Delete w0 =
    (Done (None, setError NotFoundError emptyVerifyResults),
     {| store := store w0;
        trace := trace w0 ++ [EvRepoFn; EvLookupManagedGroup "mgoidc_zz"] |}).
Proof.
  split; [reflexivity|].
  apply (absent_group_not_found_before_policy E0 "mgoidc_zz" action.Delete w0);
    [discriminate | discriminate | reflexivity | reflexivity | reflexivity].
Defined.

(** A listing of the two groups under a policy that grants nothing on the
    second: the response has the first only, and the actions were asked of
    the verdict of the resolver. *)
Lemma list_returns_only_authorized_items_witness :
  let run := ServiceListManagedGroups EHide ctx0 (Some listReq) w0 in
  let verdict am := Verify EHide (collectionContext action.List am "amoidc_1") in
  let resource scope :=
    {| perms.ScopeId := pb.scId scope; perms.Id := "";
       perms.Type_ := resource.ManagedGroup; perms.Pin := "amoidc_1" |} in
  ∃ resp, run.1 = Done (Ok resp) ∧
    pb.Id <$> pbs.Items resp = ["mgoidc_a"] ∧
    FetchActionSetForId EHide (verdict am1) "mgoidc_b"
      (IdActions (SubtypeFromId EHide "mgoidc_b"))
      (Some (setId "mgoidc_b" (resource inmem.scope))) = [] ∧
    ∃ am groups,
      LookupAuthMethod EHide (store w0) "amoidc_1" = Ok (Some am) ∧
      ListManagedGroups EHide (store w0) "amoidc_1" = Ok groups ∧
      vrError (verdict am) = None ∧
      ((groups = [] ∧ pbs.Items resp = []) ∨
       ∃ scope flt,
         groups ≠ [] ∧
         vrScope (verdict am) = Some scope ∧
         NewFilter EHide "" = Ok flt ∧
         listLoop EHide (verdict am) flt (resource scope)
           ((λ a, Some (OidcGroup (Some a))) <$> groups) []
           = Done (Ok (pbs.Items resp)) ∧
         Forall (λ item,
           ∃ g,
             g ∈ groups ∧
             FetchActionSetForId EHide (verdict am) (oidc.PublicId g)
               (IdActions (SubtypeFromId EHide (oidc.PublicId g)))
               (Some (setId (oidc.PublicId g) (resource scope))) ≠ [] ∧
             toProto EHide (Some (OidcGroup (Some g)))
               (listOutputOpts EHide (verdict am)
                  (setId (oidc.PublicId g) (resource scope))
                  (listAuthorizedActions EHide (verdict am) (resource scope)
                     (oidc.PublicId g)))
               = Done (Ok item) ∧
             Match EHide flt item = true)
           (pbs.Items resp)).
Proof.
  intros run verdict resource.
  assert (∃ resp, run.1 = Done (Ok resp) ∧
                  pb.Id <$> pbs.Items resp = ["mgoidc_a"]) as (resp & Hr & Hids)
    by (vm_compute; by eexists).
  exists resp. split_and!; [exact Hr|exact Hids|reflexivity|].
  apply (list_returns_only_authorized_items EHide ctx0 (Some listReq) w0 resp run.2).
  rewrite <-Hr. apply surjective_pairing.
Defined.

(** An id without a known prefix. *)
Lemma unknown_id_outcomes_witness :
  SubtypeFromId E0 "bogus_1" = auth.UnknownSubtype ∧
  getFromRepo E0 "bogus_1" w0
    = (Done (Err (NotFoundErrorf "Unrecognized id.")), w0) ∧
  ∃ err,
    ValidateGetRequest E0 ∅ "bogus_1" oidc.ManagedGroupPrefix = Some err ∧
    apiStatus err = Some codes.InvalidArgument ∧
    ServiceGetManagedGroup E0 ctx0 (Some {| pbs.gId := "bogus_1" |}) w0
      = (Done (Err err), w0).
Proof.
  pose proof (unknown_id_outcomes E0 "bogus_1" w0 eq_refl) as (Hget & Hop & _).
  split_and!; [reflexivity|exact Hget|].
  eexists. split_and!; [reflexivity|reflexivity|].
  apply Hop. reflexivity.
Defined.

(** The delete helper on a group the repository does not have, on the first
    group, and on a repository whose delete fails. *)
Lemma delete_absent_outcomes_witness :
  let op := "managed_groups.(Service).deleteFromRepo" in
  SubtypeFromId E0 "mgoidc_zz" = auth.OidcSubtype ∧
  deleteFromRepo E0 "o_1" "mgoidc_zz" w0 =
    (Done (Ok false),
     {| store := store w0;
        trace := trace w0 ++ [EvRepoFn; EvDeleteManagedGroup "o_1" "mgoidc_zz"] |}) ∧
  deleteFromRepo E0 "o_1" "mgoidc_a" w0 =
    (Done (Ok true),
     {| store := {| inmem.groups := [g2]; inmem.methods := [am1] |};
        trace := trace w0 ++ [EvRepoFn; EvDeleteManagedGroup "o_1" "mgoidc_a"] |}) ∧
  IsNotFoundError EDeleteFails unavailable = false ∧
  deleteFromRepo EDeleteFails "o_1" "mgoidc_a" w0 =
    (Done (Err (Wrap unavailable op None)),
     {| store := store w0;
        trace := trace w0 ++ [EvRepoFn; EvDeleteManagedGroup "o_1" "mgoidc_a"] |}).
Proof.
  intros op. split_and!; [reflexivity| | |reflexivity|].
  - apply (delete_absent_outcomes E0 "o_1" "mgoidc_zz" w0);
      [reflexivity | reflexivity | left; reflexivity].
  - apply (proj1 (proj2 (proj2
             (delete_absent_outcomes E0 "o_1" "mgoidc_a" w0 eq_refl eq_refl)))
             1%Z);
      [reflexivity | done].
  - apply (proj1 (proj2
             (delete_absent_outcomes EDeleteFails "o_1" "mgoidc_a" w0
                eq_refl eq_refl)));
      reflexivity.
Defined.

(** The resolver on the first group, whose parent is an Oidc auth method. *)
Lemma resolver_no_nil_dereference_witness :
  SubtypeFromId E0 "mgoidc_a" = auth.OidcSubtype ∧
  ∃ authMeth res w',
    parentAndAuthResult E0 "mgoidc_a" action.Read w0 = (Done (authMeth, res), w') ∧
    (is_Some authMeth ∨ is_Some (vrError res)).
Proof.
  split; [reflexivity|].
  apply (resolver_no_nil_dereference E0 "mgoidc_a" action.Read w0);
    [reflexivity|].
  intros _ _ acct Hl. vm_compute in Hl. injection Hl as <-. reflexivity.
Defined.

(** A create and an update without a request context: the handler answers
    the Internal error, and the repository has the new group, and the new
    name. *)
Lemma mutation_survives_missing_context_witness :
  let create := ServiceCreateManagedGroup E0 ctxNone (Some createReq) w0 in
  let update := ServiceUpdateManagedGroup E0 ctxNone (Some updName) w0 in
  let c := CreateManagedGroup E0 (store w0) "o_1" draftOps in
  let mg :=
    {| oidc.PublicId := "mgoidc_a"; oidc.AuthMethodId := "";
       oidc.Name := "ops"; oidc.Description := "";
       oidc.CreateTime := None; oidc.UpdateTime := None;
       oidc.Version := 0%N; oidc.Filter := "" |} in
  let u := UpdateManagedGroup E0 (store w0) "o_1" mg 1%N ["Name"] in
  ctxOutputFields ctxNone = None ∧
  create =
    (Done (Err (noRequestContext opCreate)),
     {| store := c.2;
        trace := trace w0 ++
          [EvRepoFn; EvLookupAuthMethod "amoidc_1";
           EvVerify (collectionContext action.Create am1 "amoidc_1");
           EvRepoFn; EvCreateManagedGroup "o_1" draftOps] |}) ∧
  length (inmem.groups (store create.2)) = 3 ∧
  update =
    (Done (Err (noRequestContext opUpdate)),
     {| store := u.2;
        trace := trace w0 ++
          [EvRepoFn; EvLookupManagedGroup "mgoidc_a";
           EvLookupAuthMethod "amoidc_1"; EvVerify (optsOn action.Update);
           EvRepoFn; EvUpdateManagedGroup "o_1" mg 1%N ["Name"]] |}) ∧
  oidc.Name <$> inmem.groups (store update.2) = ["ops"; "guests"] ∧
  ∃ r, create.1 = Done r ∧ (∃ e, r = Err e) ∧
    ∀ scopeId mg',
      EvCreateManagedGroup scopeId mg' ∈ added w0 create.2 →
      store create.2 = (CreateManagedGroup E0 (store w0) scopeId mg').2 ∧
      ∀ out, (CreateManagedGroup E0 (store w0) scopeId mg').1 = Ok (Some out) →
             r = Err (noRequestContext opCreate).
Proof.
  intros create update c mg u.
  pose proof (mutation_survives_missing_context E0 ctxNone eq_refl)
    as (Hcreate & Hupdate & Hcreates & _).
  split_and!; [reflexivity| |reflexivity| |reflexivity|].
  - eapply (Hcreate createItem w0 am1 {| pb.Filter := "f" |} draftOps);
      reflexivity.
  - eapply (Hupdate updName (item 1 "ops") w0 g1 am1 "" _ 1%Z);
      [reflexivity..|by left|discriminate|reflexivity|discriminate].
  - exists (Err (noRequestContext opCreate)). split; [reflexivity|].
    apply (Hcreates (Some createReq) w0 _ create.2). reflexivity.
Defined.

(** C3, as stated, fails: an update whose mask translates to nothing is
    rejected with InvalidArgument only after the resolver has looked up the
    group and its auth method: a spy repository records two calls. *)
Lemma empty_mask_lookups_reach_repository :
  let run := ServiceUpdateManagedGroup E0 ctx0 (Some updBogus) w0 in
  Translate E0 (GetPaths (pbs.uUpdateMask updBogus)) = [] ∧
  (∃ e, run.1 = Done (Err e) ∧ apiStatus e = Some codes.InvalidArgument) ∧
  trace run.2 =
    [EvRepoFn; EvLookupManagedGroup "mgoidc_a"; EvLookupAuthMethod "amoidc_1";
     EvVerify [authopt.WithType resource.ManagedGroup;
               authopt.WithAction action.Update; authopt.WithId "mgoidc_a";
               authopt.WithScopeId "o_1"; authopt.WithPin "amoidc_1"]] ∧
  filter (λ ev, isRepoCall ev = true) (trace run.2) =
    [EvLookupManagedGroup "mgoidc_a"; EvLookupAuthMethod "amoidc_1"].
Proof.
  intros run. split_and!.
  - reflexivity.
  - vm_compute. by eexists.
  - reflexivity.
  - reflexivity.
Qed.

(** C6, as stated, fails: Get on an id of unknown subtype does not answer
    NotFound. When the validator rejects the id the handler answers the
    validator's InvalidArgument; were the validator to accept it, the
    resolver would panic; and for such an id the helpers of Update and
    Delete answer no error at all. *)
Lemma unknown_id_get_invalid_argument :
  SubtypeFromId E0 "bogus_1" = auth.UnknownSubtype ∧
  (∃ e, (ServiceGetManagedGroup E0 ctx0 (Some {| pbs.gId := "bogus_1" |}) w0).1
          = Done (Err e) ∧
        apiStatus e = Some codes.InvalidArgument ∧
        apiStatus e ≠ Some codes.NotFound) ∧
  (ServiceGetManagedGroup ELax ctx0 (Some {| pbs.gId := "bogus_1" |}) w0).1
    = Panic ∧
  deleteFromRepo E0 "o_1" "bogus_1" w0 = (Done (Ok false), w0) ∧
  updateInRepo E0 "o_1" "amoidc_1"
    (Some {| pbs.uId := "bogus_1"; pbs.uItem := None; pbs.uUpdateMask := None |})
    w0 = (Done (Ok None), w0).
Proof.
  split_and!; [reflexivity| |reflexivity..].
  vm_compute. eexists. split_and!; [reflexivity..|discriminate].
Qed.

(** C7, as stated, fails: Delete on a well-formed Oidc id the repository
    does not have answers the NotFound error of the resolver; the
    repository's delete is not even called. *)
Lemma delete_absent_group_not_found :
  validateDeleteRequest E0 (Some {| pbs.dId := "mgoidc_zz" |}) = None ∧
  LookupManagedGroup E0 (store w0) "mgoidc_zz" = Ok None ∧
  ServiceDeleteManagedGroup E0 ctx0 (Some {| pbs.dId := "mgoidc_zz" |}) w0 =
    (Done (Err NotFoundError),
     {| store := store w0;
        trace := [EvRepoFn; EvLookupManagedGroup "mgoidc_zz"] |}) ∧
  apiStatus NotFoundError = Some codes.NotFound.
Proof. split_and!; reflexivity. Qed.

(** C9, as stated, fails: a Get request accepted by its validator, on a
    group whose stored parent id is not recognized as Oidc, makes the
    resolver call [GetScopeId] on a nil auth method. *)
Lemma stray_parent_nil_dereference :
  validateGetRequest E0 (Some {| pbs.gId := "mgoidc_x" |}) = None ∧
  SubtypeFromId E0 "mgoidc_x" = auth.OidcSubtype ∧
  LookupManagedGroup E0 (store wStray) "mgoidc_x" = Ok (Some gStray) ∧
  parentAndAuthResult E0 "mgoidc_x" action.Read wStray =
    (Panic,
     {| store := store wStray;
        trace := [EvRepoFn; EvLookupManagedGroup "mgoidc_x"] |}) ∧
  (ServiceGetManagedGroup E0 ctx0 (Some {| pbs.gId := "mgoidc_x" |}) wStray).1
    = Panic.
Proof. split_and!; reflexivity. Qed.

End Samples.

(** * Further properties *)

(** ** The resolver, case by case *)

Section ResolverCases.
Context {St OF Flt : Type} (E : Env St OF Flt).

Local Ltac run_resolver :=
  unfold parentAndAuthResult, bind, ret, panic, repoFn, repoLookupManagedGroup,
    repoLookupAuthMethod, authVerify, log; simpl.

(** X1: for an action on a managed group (neither List nor Create), when the
    repository has the group and its auth method, the resolver makes three
    calls to the repository and then submits to the policy engine the type
    ManagedGroup, the action, the id of the group, the scope of the auth
    method, and the id of the auth method as pin; it returns the auth method
    and the verdict. *)
Theorem resolver_context_for_group id a (w : World St) acct am :
  a ≠ action.List → a ≠ action.Create →
  oidcRepoFn E = None →
  SubtypeFromId E id = auth.OidcSubtype →
  LookupManagedGroup E (store w) id = Ok (Some acct) →
  SubtypeFromId E (oidc.AuthMethodId acct) = auth.OidcSubtype →
  LookupAuthMethod E (store w) (oidc.AuthMethodId acct) = Ok (Some am) →
  let opts :=
    [authopt.WithType resource.ManagedGroup; authopt.WithAction a;
     authopt.WithId id; authopt.WithScopeId (oidc.amScopeId am);
     authopt.WithPin (oidc.AuthMethodId acct)] in
  parentAndAuthResult E id a w =
    (Done (Some am, Verify E opts),
     {| store := store w;
        trace := trace w ++
          [EvRepoFn; EvLookupManagedGroup id;
           EvLookupAuthMethod (oidc.AuthMethodId acct); EvVerify opts] |}).
Proof.
  intros HL HC Hfn Hsub Hg Hsub' Ham opts. subst opts. run_resolver.
  rewrite Hfn.
  destruct a; try done; simpl; rewrite Hsub; simpl; rewrite Hg; simpl;
    rewrite Hsub'; simpl; rewrite Ham; simpl; by rewrite <-!app_assoc.
Qed.

(** X2: for List and Create the id of the request is the id of the parent:
    the resolver does not look up any managed group, and the options it
    submits carry no resource id. *)
Theorem resolver_context_for_collection id a (w : World St) am :
  a = action.List ∨ a = action.Create →
  oidcRepoFn E = None →
  SubtypeFromId E id = auth.OidcSubtype →
  LookupAuthMethod E (store w) id = Ok (Some am) →
  let opts :=
    [authopt.WithType resource.ManagedGroup; authopt.WithAction a;
     authopt.WithScopeId (oidc.amScopeId am); authopt.WithPin id] in
  parentAndAuthResult E id a w =
    (Done (Some am, Verify E opts),
     {| store := store w;
        trace := trace w ++ [EvRepoFn; EvLookupAuthMethod id; EvVerify opts] |}).
Proof.
  intros Ha Hfn Hsub Ham opts. subst opts. run_resolver. rewrite Hfn.
  destruct Ha as [-> | ->]; simpl; rewrite Hsub; simpl; rewrite Ham; simpl;
    by rewrite <-!app_assoc.
Qed.

(** X3: an absent parent is NotFound before the policy engine is reached:
    for List and Create when the repository does not have the auth method of
    the request, and for the other actions when the group is there but the
    auth method it names is not. *)
Theorem absent_parent_not_found :
  oidcRepoFn E = None →
  (∀ id a (w : World St),
     a = action.List ∨ a = action.Create →
     SubtypeFromId E id = auth.OidcSubtype →
     LookupAuthMethod E (store w) id = Ok None →
     parentAndAuthResult E id a w =
       (Done (None, setError NotFoundError emptyVerifyResults),
        {| store := store w;
           trace := trace w ++ [EvRepoFn; EvLookupAuthMethod id] |})) ∧
  (∀ id a (w : World St) acct,
     a ≠ action.List → a ≠ action.Create →
     SubtypeFromId E id = auth.OidcSubtype →
     LookupManagedGroup E (store w) id = Ok (Some acct) →
     SubtypeFromId E (oidc.AuthMethodId acct) = auth.OidcSubtype →
     LookupAuthMethod E (store w) (oidc.AuthMethodId acct) = Ok None →
     parentAndAuthResult E id a w =
       (Done (None, setError NotFoundError emptyVerifyResults),
        {| store := store w;
           trace := trace w ++
             [EvRepoFn; EvLookupManagedGroup id;
              EvLookupAuthMethod (oidc.AuthMethodId acct)] |})).
Proof.
  intros Hfn. split.
  - intros id a w Ha Hsub Ham. run_resolver. rewrite Hfn.
    destruct Ha as [-> | ->]; simpl; rewrite Hsub; simpl; rewrite Ham; simpl;
      by rewrite <-!app_assoc.
  - intros id a w acct HL HC Hsub Hg Hsub' Ham. run_resolver. rewrite Hfn.
    destruct a; try done; simpl; rewrite Hsub; simpl; rewrite Hg; simpl;
      rewrite Hsub'; simpl; rewrite Ham; simpl; by rewrite <-!app_assoc.
Qed.

(** X4: the resolver returns the errors of the repository as they are,
    neither wrapped nor converted, and stops there: the error of the
    repository factory after that single call, the error of the lookup of
    the group, and the error of the lookup of the auth method, be it the
    auth method of a List or Create request or the one a group names. *)
Theorem resolver_returns_repository_errors :
  (∀ id a (w : World St) err,
     oidcRepoFn E = Some err →
     parentAndAuthResult E id a w =
       (Done (None, setError err emptyVerifyResults),
        {| store := store w; trace := trace w ++ [EvRepoFn] |})) ∧
  (∀ id a (w : World St) err,
     oidcRepoFn E = None →
     a ≠ action.List → a ≠ action.Create →
     SubtypeFromId E id = auth.OidcSubtype →
     LookupManagedGroup E (store w) id = Err err →
     parentAndAuthResult E id a w =
       (Done (None, setError err emptyVerifyResults),
        {| store := store w;
           trace := trace w ++ [EvRepoFn; EvLookupManagedGroup id] |})) ∧
  (∀ id a (w : World St) err,
     oidcRepoFn E = None →
     a = action.List ∨ a = action.Create →
     SubtypeFromId E id = auth.OidcSubtype →
     LookupAuthMethod E (store w) id = Err err →
     parentAndAuthResult E id a w =
       (Done (None, setError err emptyVerifyResults),
        {| store := store w;
           trace := trace w ++ [EvRepoFn; EvLookupAuthMethod id] |})) ∧
  (∀ id a (w : World St) acct err,
     oidcRepoFn E = None →
     a ≠ action.List → a ≠ action.Create →
     SubtypeFromId E id = auth.OidcSubtype →
     LookupManagedGroup E (store w) id = Ok (Some acct) →
     SubtypeFromId E (oidc.AuthMethodId acct) = auth.OidcSubtype →
     LookupAuthMethod E (store w) (oidc.AuthMethodId acct) = Err err →
     parentAndAuthResult E id a w =
       (Done (None, setError err emptyVerifyResults),
        {| store := store w;
           trace := trace w ++
             [EvRepoFn; EvLookupManagedGroup id;
              EvLookupAuthMethod (oidc.AuthMethodId acct)] |})).
Proof.
  split_and!.
  - intros id a w err Hfn. run_resolver. by rewrite Hfn.
  - intros id a w err Hfn HL HC Hsub Hg. run_resolver. rewrite Hfn.
    destruct a; try done; simpl; rewrite Hsub; simpl; rewrite Hg; simpl;
      by rewrite <-!app_assoc.
  - intros id a w err Hfn Ha Hsub Ham. run_resolver. rewrite Hfn.
    destruct Ha as [-> | ->]; simpl; rewrite Hsub; simpl; rewrite Ham; simpl;
      by rewrite <-!app_assoc.
  - intros id a w acct err Hfn HL HC Hsub Hg Hsub' Ham. run_resolver.
    rewrite Hfn.
    destruct a; try done; simpl; rewrite Hsub; simpl; rewrite Hg; simpl;
      rewrite Hsub'; simpl; rewrite Ham; simpl; by rewrite <-!app_assoc.
Qed.

End ResolverCases.

(** ** The shape of the handlers *)

Section Shape.
Context {St OF Flt : Type} (E : Env St OF Flt).

Lemma ListManagedGroups_guarded ctx req :
  ServiceListManagedGroups E ctx req
  = guarded E (validateListRequest E req)
      (from_option pbs.lAuthMethodId "" req) action.List (listRest E req).
Proof. reflexivity. Qed.

Lemma GetManagedGroup_guarded ctx req :
  ServiceGetManagedGroup E ctx req
  = guarded E (validateGetRequest E req)
      (from_option pbs.gId "" req) action.Read
      (getRest E ctx (from_option pbs.gId "" req)).
Proof. reflexivity. Qed.

Lemma CreateManagedGroup_guarded ctx req :
  ServiceCreateManagedGroup E ctx req
  = guarded E (validateCreateRequest E req)
      (GetItem_AuthMethodId (req ≫= pbs.cItem)) action.Create
      (createRest E ctx (req ≫= pbs.cItem)).
Proof. reflexivity. Qed.

Lemma UpdateManagedGroup_guarded ctx req :
  ServiceUpdateManagedGroup E ctx req
  = guarded E (validateUpdateRequest E req)
      (from_option pbs.uId "" req) action.Update (updateRest E ctx req).
Proof. reflexivity. Qed.

Lemma DeleteManagedGroup_guarded ctx req :
  ServiceDeleteManagedGroup E ctx req
  = guarded E (validateDeleteRequest E req)
      (from_option pbs.dId "" req) action.Delete
      (deleteRest E (from_option pbs.dId "" req)).
Proof. reflexivity. Qed.

End Shape.

(** ** What the handlers call, and when *)

Section Calls.
Context {St OF Flt : Type} (E : Env St OF Flt).

Lemma emits_ret {A} P (a : A) : emits (St:=St) P (ret a).
Proof. intros w r w' [= <- <-]. exists []. by rewrite app_nil_r. Qed.

Lemma emits_panic {A} P : emits P (@panic St A).
Proof. intros w r w' [= <- <-]. exists []. by rewrite app_nil_r. Qed.

Lemma emits_liftO {A} P (c : outcome A) : emits P (liftO (St:=St) c).
Proof. intros w r w' [= <- <-]. exists []. by rewrite app_nil_r. Qed.

Lemma emits_bind {A B} P (c : M St A) (k : A → M St B) :
  emits P c → (∀ a, emits P (k a)) → emits P (bind c k).
Proof.
  intros Hc Hk w r w' H. unfold bind in H.
  destruct (c w) as [[a|] w1] eqn:Hcw.
  - destruct (Hc _ _ _ Hcw) as (evs1 & Ht1 & Hf1).
    destruct (Hk a _ _ _ H) as (evs2 & Ht2 & Hf2).
    exists (evs1 ++ evs2). rewrite Ht2, Ht1, <-app_assoc.
    split; [done|]. by apply Forall_app.
  - injection H as <- <-. exact (Hc _ _ _ Hcw).
Qed.

Lemma emits_repoFn (P : Event → Prop) : P EvRepoFn → emits P (repoFn E).
Proof. intros HP w r w' [= <- <-]. exists [EvRepoFn]. split; [done|]. by constructor. Qed.

Lemma emits_repoLookupManagedGroup (P : Event → Prop) id :
  P (EvLookupManagedGroup id) → emits P (repoLookupManagedGroup E id).
Proof. intros HP w r w' [= <- <-]. eexists [_]. split; [done|]. by constructor. Qed.

Lemma emits_repoListManagedGroups (P : Event → Prop) id :
  P (EvListManagedGroups id) → emits P (repoListManagedGroups E id).
Proof. intros HP w r w' [= <- <-]. eexists [_]. split; [done|]. by constructor. Qed.

Lemma emits_repoCreateManagedGroup (P : Event → Prop) scopeId mg :
  P (EvCreateManagedGroup scopeId mg) → emits P (repoCreateManagedGroup E scopeId mg).
Proof.
  intros HP w r w' H. unfold repoCreateManagedGroup in H.
  destruct (CreateManagedGroup E _ _ _). injection H as <- <-.
  eexists [_]. split; [done|]. by constructor.
Qed.

Lemma emits_repoUpdateManagedGroup (P : Event → Prop) scopeId mg v m :
  P (EvUpdateManagedGroup scopeId mg v m) →
  emits P (repoUpdateManagedGroup E scopeId mg v m).
Proof.
  intros HP w r w' H. unfold repoUpdateManagedGroup in H.
  destruct (UpdateManagedGroup E _ _ _ _ _). injection H as <- <-.
  eexists [_]. split; [done|]. by constructor.
Qed.

Lemma emits_repoDeleteManagedGroup (P : Event → Prop) scopeId id :
  P (EvDeleteManagedGroup scopeId id) → emits P (repoDeleteManagedGroup E scopeId id).
Proof.
  intros HP w r w' H. unfold repoDeleteManagedGroup in H.
  destruct (DeleteManagedGroup E _ _ _). injection H as <- <-.
  eexists [_]. split; [done|]. by constructor.
Qed.

Local Ltac emits_tac :=
  repeat first
    [ apply emits_ret | apply emits_panic | apply emits_liftO
    | apply emits_repoFn; done
    | apply emits_repoLookupManagedGroup; done
    | apply emits_repoListManagedGroups; done
    | apply emits_repoCreateManagedGroup; done
    | apply emits_repoUpdateManagedGroup; done
    | apply emits_repoDeleteManagedGroup; done
    | apply emits_bind; [|intros ?]
    | match goal with
      | |- emits _ (match ?x with _ => _ end) => destruct x
      | |- emits _ (if ?x then _ else _) => destruct x
      end ].

Lemma listRest_no_verdict req am ar : emits notVerify (listRest E req am ar).
Proof. unfold listRest, listFromRepo. emits_tac. Qed.

Lemma getRest_no_verdict ctx id am ar : emits notVerify (getRest E ctx id am ar).
Proof. unfold getRest, getFromRepo. emits_tac. Qed.

Lemma createRest_no_verdict ctx item am ar :
  emits notVerify (createRest E ctx item am ar).
Proof. unfold createRest, createInRepo, createOidcInRepo. emits_tac. Qed.

Lemma updateRest_no_verdict ctx req am ar :
  emits notVerify (updateRest E ctx req am ar).
Proof. unfold updateRest, updateInRepo, updateOidcInRepo. emits_tac. Qed.

Lemma deleteRest_no_verdict id am ar : emits notVerify (deleteRest E id am ar).
Proof. unfold deleteRest, deleteFromRepo. emits_tac. Qed.

(** The four ways a run of a handler goes: rejected by the validator with
    nothing called; stopped by the resolver before the policy engine;
    stopped by a verdict that carries an error; or handed to the rest of the
    handler after a verdict without error. *)
Lemma guarded_cases {R} v id a
    (rest : option oidc.AuthMethod → VerifyResults → M St (Res R))
    (w : World St) o w' :
  guarded E v id a rest w = (o, w') →
  (∃ err, v = Some err ∧ o = Done (Err err) ∧ w' = w) ∨
  (v = None ∧ store w' = store w ∧
   ∃ pre, Forall quiet pre ∧ trace w' = trace w ++ pre ∧
          (o = Panic ∨ ∃ err, o = Done (Err err))) ∨
  (v = None ∧ store w' = store w ∧
   ∃ pre opts err,
     Forall quiet pre ∧ trace w' = trace w ++ pre ++ [EvVerify opts] ∧
     vrError (Verify E opts) = Some err ∧ o = Done (Err err)) ∨
  (v = None ∧
   ∃ pre am opts w1,
     Forall quiet pre ∧ store w1 = store w ∧
     trace w1 = trace w ++ pre ++ [EvVerify opts] ∧
     vrError (Verify E opts) = None ∧
     parentAndAuthResult E id a w = (Done (Some am, Verify E opts), w1) ∧
     rest (Some am) (Verify E opts) w1 = (o, w')).
Proof.
  unfold guarded. intros H. destruct v as [err|].
  { left. injection H as <- <-. by eauto. }
  right. unfold bind in H.
  destruct (parentAndAuthResult E id a w) as [o1 w1] eqn:Hp.
  destruct (resolver_cases E _ _ _ _ _ Hp) as (Hs1 & pre & Hpre & Hcase).
  destruct Hcase as [[-> Ht]|[(err & -> & Ht)|(am & opts & -> & Ht)]].
  - left. injection H as <- <-. split_and!; [done..|]. exists pre. by eauto.
  - left. simpl in H. injection H as <- <-. split_and!; [done..|].
    exists pre. by eauto.
  - right. simpl in H. destruct (vrError (Verify E opts)) as [err|] eqn:He.
    + left. injection H as <- <-. split_and!; [done..|].
      exists pre, opts, err. by eauto.
    + right. split; [done|]. exists pre, am, opts, w1. by eauto 10.
Qed.

Lemma quiet_not_verify pre opts : Forall quiet pre → EvVerify opts ∉ pre.
Proof.
  intros Hpre Hin. rewrite Forall_forall in Hpre.
  by destruct (Hpre _ Hin) as [_ ?].
Qed.

Lemma quiet_not_mutation pre ev :
  Forall quiet pre → ev ∈ pre → isRepoMutation ev = false.
Proof.
  intros Hpre Hin. rewrite Forall_forall in Hpre.
  by destruct (Hpre _ Hin) as [? _].
Qed.

(** A verdict that carries an error ends the run. *)
Lemma guarded_verdict_error {R} v id a
    (rest : option oidc.AuthMethod → VerifyResults → M St (Res R))
    (w : World St) o w' opts err :
  (∀ am ar, emits notVerify (rest am ar)) →
  guarded E v id a rest w = (o, w') →
  EvVerify opts ∈ added w w' →
  vrError (Verify E opts) = Some err →
  o = Done (Err err) ∧ store w' = store w ∧
  ∃ pre, added w w' = pre ++ [EvVerify opts] ∧ Forall quiet pre.
Proof.
  intros Hrest H Hin Herr.
  destruct (guarded_cases _ _ _ _ _ _ _ H)
    as [(e & _ & _ & ->)
       |[(_ & _ & pre & Hpre & Ht & _)
        |[(_ & Hs & pre & opts' & e & Hpre & Ht & He & ->)
         |(_ & pre & am & opts' & w1 & Hpre & Hs1 & Ht1 & He & _ & Hr)]]].
  - unfold added in Hin. rewrite drop_all in Hin. by apply elem_of_nil in Hin.
  - rewrite (added_app _ _ _ Ht) in Hin. by apply quiet_not_verify in Hin.
  - rewrite (added_app _ _ _ Ht) in Hin |- *.
    apply elem_of_app in Hin as [Hin|Hin]; [by apply quiet_not_verify in Hin|].
    apply list_elem_of_singleton in Hin. injection Hin as ->.
    split_and!; [congruence|done|by eauto].
  - destruct (Hrest _ _ _ _ _ Hr) as (evs & Ht & Hevs).
    rewrite (added_app w w' (pre ++ EvVerify opts' :: evs)) in Hin
      by (by rewrite Ht, Ht1, <-!app_assoc).
    apply elem_of_app in Hin as [Hin|Hin]; [by apply quiet_not_verify in Hin|].
    apply elem_of_cons in Hin as [[= ->]|Hin]; [congruence|].
    rewrite Forall_forall in Hevs. by specialize (Hevs _ Hin).
Qed.

(** Whatever changes the repository comes after the one verdict of the
    policy engine, which carries no error. *)
Lemma guarded_mutation_after_verdict {R} v id a
    (rest : option oidc.AuthMethod → VerifyResults → M St (Res R))
    (w : World St) o w' ev :
  (∀ am ar, emits notVerify (rest am ar)) →
  guarded E v id a rest w = (o, w') →
  ev ∈ added w w' → isRepoMutation ev = true →
  ∃ pre opts post,
    added w w' = pre ++ EvVerify opts :: post ∧
    Forall quiet pre ∧ Forall notVerify post ∧
    vrError (Verify E opts) = None ∧ ev ∈ post.
Proof.
  intros Hrest H Hin Hmut.
  destruct (guarded_cases _ _ _ _ _ _ _ H)
    as [(e & _ & _ & ->)
       |[(_ & _ & pre & Hpre & Ht & _)
        |[(_ & Hs & pre & opts' & e & Hpre & Ht & He & ->)
         |(_ & pre & am & opts' & w1 & Hpre & Hs1 & Ht1 & He & _ & Hr)]]].
  - unfold added in Hin. rewrite drop_all in Hin. by apply elem_of_nil in Hin.
  - rewrite (added_app _ _ _ Ht) in Hin.
    by rewrite (quiet_not_mutation _ _ Hpre Hin) in Hmut.
  - rewrite (added_app _ _ _ Ht) in Hin.
    apply elem_of_app in Hin as [Hin|Hin].
    + by rewrite (quiet_not_mutation _ _ Hpre Hin) in Hmut.
    + apply list_elem_of_singleton in Hin. by subst ev.
  - destruct (Hrest _ _ _ _ _ Hr) as (evs & Ht & Hevs).
    assert (added w w' = pre ++ EvVerify opts' :: evs) as Hadd.
    { apply added_app. by rewrite Ht, Ht1, <-!app_assoc. }
    rewrite Hadd in Hin. exists pre, opts', evs. split_and!; try done.
    apply elem_of_app in Hin as [Hin|Hin].
    + by rewrite (quiet_not_mutation _ _ Hpre Hin) in Hmut.
    + apply elem_of_cons in Hin as [->|Hin]; done.
Qed.

(** When the rest of the handler only reads the repository, so does the
    handler. *)
Lemma guarded_read_only {R} v id a
    (rest : option oidc.AuthMethod → VerifyResults → M St (Res R)) :
  (∀ am ar, readOnly (St:=St) (rest am ar)) →
  readOnly (guarded E v id a rest).
Proof.
  intros Hrest. unfold guarded. destruct v; [apply readOnly_ret|].
  apply readOnly_bind; [apply readOnly_parentAndAuthResult|].
  intros pr. destruct (vrError pr.2); [apply readOnly_ret|apply Hrest].
Qed.

End Calls.

Section HandlerCalls.
Context {St OF Flt : Type} (E : Env St OF Flt).

Local Ltac read_only :=
  repeat first
    [ apply readOnly_ret | apply readOnly_panic | apply readOnly_liftO
    | apply readOnly_getFromRepo | apply readOnly_listFromRepo
    | apply readOnly_bind; [|intros ?]
    | match goal with
      | |- readOnly (match ?x with _ => _ end) => destruct x
      | |- readOnly (if ?x then _ else _) => destruct x
      end ].

(** X5: in each of the five handlers, a verdict of the policy engine that
    carries an error (a denial, say) is returned to the caller as it is,
    and ends the run: nothing is called after it and the repository is
    unchanged. *)
Theorem verdict_error_is_final ctx :
  (∀ req, verdictErrorFinal E (ServiceListManagedGroups E ctx req)) ∧
  (∀ req, verdictErrorFinal E (ServiceGetManagedGroup E ctx req)) ∧
  (∀ req, verdictErrorFinal E (ServiceCreateManagedGroup E ctx req)) ∧
  (∀ req, verdictErrorFinal E (ServiceUpdateManagedGroup E ctx req)) ∧
  (∀ req, verdictErrorFinal E (ServiceDeleteManagedGroup E ctx req)).
Proof.
  unfold verdictErrorFinal.
  split_and!; intros req w o w' opts err H Hin Herr.
  - rewrite ListManagedGroups_guarded in H.
    eapply guarded_verdict_error; [|exact H|exact Hin|exact Herr].
    intros am ar. apply listRest_no_verdict.
  - rewrite GetManagedGroup_guarded in H.
    eapply guarded_verdict_error; [|exact H|exact Hin|exact Herr].
    intros am ar. apply getRest_no_verdict.
  - rewrite CreateManagedGroup_guarded in H.
    eapply guarded_verdict_error; [|exact H|exact Hin|exact Herr].
    intros am ar. apply createRest_no_verdict.
  - rewrite UpdateManagedGroup_guarded in H.
    eapply guarded_verdict_error; [|exact H|exact Hin|exact Herr].
    intros am ar. apply updateRest_no_verdict.
  - rewrite DeleteManagedGroup_guarded in H.
    eapply guarded_verdict_error; [|exact H|exact Hin|exact Herr].
    intros am ar. apply deleteRest_no_verdict.
Qed.

(** X6: Create, Update and Delete change the repository only after the
    policy engine has given its verdict, the only one of the run, and only
    if that verdict carries no error. *)
Theorem mutation_only_after_clean_verdict ctx :
  (∀ req, mutatesAfterVerdict E (ServiceCreateManagedGroup E ctx req)) ∧
  (∀ req, mutatesAfterVerdict E (ServiceUpdateManagedGroup E ctx req)) ∧
  (∀ req, mutatesAfterVerdict E (ServiceDeleteManagedGroup E ctx req)).
Proof.
  unfold mutatesAfterVerdict.
  split_and!; intros req w o w' ev H Hin Hmut.
  - rewrite CreateManagedGroup_guarded in H.
    eapply guarded_mutation_after_verdict; [|exact H|exact Hin|exact Hmut].
    intros am ar. apply createRest_no_verdict.
  - rewrite UpdateManagedGroup_guarded in H.
    eapply guarded_mutation_after_verdict; [|exact H|exact Hin|exact Hmut].
    intros am ar. apply updateRest_no_verdict.
  - rewrite DeleteManagedGroup_guarded in H.
    eapply guarded_mutation_after_verdict; [|exact H|exact Hin|exact Hmut].
    intros am ar. apply deleteRest_no_verdict.
Qed.

(** X7: Get and List only read: whatever the request and the outcome, the
    repository is left as it was and no create, update or delete is
    called. *)
Theorem get_and_list_read_only ctx :
  (∀ req, readOnly (St:=St) (ServiceGetManagedGroup E ctx req)) ∧
  (∀ req, readOnly (St:=St) (ServiceListManagedGroups E ctx req)).
Proof.
  split; intros req.
  - rewrite GetManagedGroup_guarded. apply guarded_read_only.
    intros am ar. unfold getRest. read_only.
  - rewrite ListManagedGroups_guarded. apply guarded_read_only.
    intros am ar. unfold listRest. read_only.
Qed.

End HandlerCalls.

(** ** The validators *)

Section Validators.
Context {St OF Flt : Type} (E : Env St OF Flt).

Lemma typeOk_decide item :
  ¬ (GetItem_Type item ≠ "" ∧ GetItem_Type item ≠ auth.String auth.OidcSubtype)
  ↔ typeOk item.
Proof.
  unfold typeOk.
  destruct (decide (GetItem_Type item = "")),
    (decide (GetItem_Type item = auth.String auth.OidcSubtype)); tauto.
Qed.

Local Ltac not_empty Hbad :=
  exfalso; revert Hbad; apply insert_non_empty.

(** X8: the check of the Create validator reports no field exactly when the
    item names a parent, the parent is recognized as Oidc, the type tag is
    empty or "oidc", the attributes decode, and the filter is not empty and
    is accepted by the filter-expression engine. For an Oidc parent,
    attributes that do not decode are reported under "attributes"; and the
    filter the validator then reads is the one of the message the decoder
    was handed, whatever the outcome of the decoding: when that filter is
    empty it is reported under "attributes.filter" as a required field. *)
Theorem createBadFields_empty_iff (item : option pb.ManagedGroup) :
  (createBadFields E item = ∅ ↔
   GetItem_AuthMethodId item ≠ "" ∧
   SubtypeFromId E (GetItem_AuthMethodId item) = auth.OidcSubtype ∧
   typeOk item ∧
   ∃ attrs, StructToProto E (GetItem_Attributes item) = Ok attrs ∧
            pb.Filter attrs ≠ "" ∧
            CreateEvaluator E (pb.Filter attrs) = None) ∧
  (SubtypeFromId E (GetItem_AuthMethodId item) = auth.OidcSubtype →
   pb.Filter (decodedAttrs E (GetItem_Attributes item)) = "" →
   createBadFields E item !! attrFilterField = Some "This field is required.") ∧
  (SubtypeFromId E (GetItem_AuthMethodId item) = auth.OidcSubtype →
   ∀ err, StructToProto E (GetItem_Attributes item) = Err err →
   createBadFields E item !! globals.AttributesField
     = Some "Attribute fields do not match the expected format.").
Proof.
  unfold createBadFields, decodedAttrs. split_and!.
  - split.
    + intros Hbad.
      destruct (SubtypeFromId E _); [by not_empty Hbad..|].
      destruct (decide (GetItem_AuthMethodId item = "")) as [Hid|Hid],
        (decide (GetItem_Type item ≠ "" ∧ _)) as [Ht|Ht],
        (StructToProto E _) as [attrs|err]; simpl in Hbad;
        try (destruct (decide (pb.Filter _ = "")) as [Hf|Hf]);
        try (destruct (CreateEvaluator E (pb.Filter _)) as [e|] eqn:He);
        try (by not_empty Hbad).
      split_and!; [done..|by apply typeOk_decide|].
      exists attrs. by split_and!.
    + intros (Hid & -> & Ht & attrs & -> & Hf & He). simpl.
      rewrite decide_False by done.
      rewrite decide_False by (by apply typeOk_decide).
      rewrite decide_False by done. by rewrite He.
  - intros -> Hf. rewrite decide_True by done. apply lookup_insert_eq.
  - intros -> err ->. simpl.
    destruct (decide (pb.Filter _ = "")) as [Hf|Hf];
      [|destruct (CreateEvaluator E (pb.Filter _))];
      rewrite ?lookup_insert_ne by done; apply lookup_insert_eq.
Qed.

(** X9: the check of the Update validator reports nothing for an id that is
    not recognized as Oidc; for an Oidc id it reports no field exactly when
    the type tag is empty or "oidc", the attributes decode, and, only if
    the update mask has the path "attributes.filter", the filter is not
    empty and is accepted by the filter-expression engine. A mask that
    touches the filter of an item without one is reported under
    "attributes.filter" as a field that cannot be empty. *)
Theorem updateBadFields_empty_iff (req : pbs.UpdateManagedGroupRequest) :
  (SubtypeFromId E (pbs.uId req) ≠ auth.OidcSubtype →
   updateBadFields E req = ∅) ∧
  (SubtypeFromId E (pbs.uId req) = auth.OidcSubtype →
   (updateBadFields E req = ∅ ↔
    typeOk (pbs.uItem req) ∧
    ∃ attrs, StructToProto E (GetItem_Attributes (pbs.uItem req)) = Ok attrs ∧
      (MaskContains E (GetPaths (pbs.uUpdateMask req)) attrFilterField = true →
       pb.Filter attrs ≠ "" ∧ CreateEvaluator E (pb.Filter attrs) = None)) ∧
   (MaskContains E (GetPaths (pbs.uUpdateMask req)) attrFilterField = true →
    pb.Filter (decodedAttrs E (GetItem_Attributes (pbs.uItem req))) = "" →
    updateBadFields E req !! attrFilterField = Some "Field cannot be empty.")).
Proof.
  unfold updateBadFields, decodedAttrs. split.
  { intros Hsub. by destruct (SubtypeFromId E _). }
  intros ->. split.
  - split.
    + intros Hbad.
      destruct (decide (GetItem_Type (pbs.uItem req) ≠ "" ∧ _)) as [Ht|Ht],
        (StructToProto E _) as [attrs|err]; simpl in Hbad;
        destruct (MaskContains E _ _);
        try (destruct (decide (pb.Filter _ = "")) as [Hf|Hf]);
        try (destruct (CreateEvaluator E (pb.Filter _)) as [e|] eqn:He);
        try (by not_empty Hbad);
        (split; [by apply typeOk_decide|]); exists attrs;
        (split; [done|]); by intros.
    + intros (Ht & attrs & -> & Hf). simpl.
      destruct (decide (GetItem_Type (pbs.uItem req) ≠ "" ∧ _)) as [Hc|_];
        [by apply typeOk_decide in Ht|].
      destruct (MaskContains E _ _); [|done].
      destruct (Hf eq_refl) as [Hne He]. rewrite decide_False by done.
      by rewrite He.
  - intros -> Hf. rewrite decide_True by done. apply lookup_insert_eq.
Qed.

(** X10: the List validator accepts a request exactly when the auth-method id
    is well formed for the Oidc prefix and the filter parses; otherwise it
    answers InvalidArgument with a detail for each of the two fields that
    is wrong, and for no other reason. *)
Theorem validateListRequest_accepts_iff (r : pbs.ListManagedGroupsRequest) :
  (validateListRequest E (Some r) = None ↔
   ValidId E (pbs.lAuthMethodId r) oidc.AuthMethodPrefix = true ∧
   ∃ f, NewFilter E (pbs.lFilter r) = Ok f) ∧
  (∀ err, validateListRequest E (Some r) = Some err →
     ∃ badFields,
       err = InvalidArgumentErrorf "Error in provided request." badFields ∧
       (is_Some (badFields !! globals.AuthMethodIdField) ↔
        ValidId E (pbs.lAuthMethodId r) oidc.AuthMethodPrefix = false) ∧
       (is_Some (badFields !! globals.FilterField) ↔
        ∃ e, NewFilter E (pbs.lFilter r) = Err e)).
Proof.
  unfold validateListRequest.
  destruct (ValidId E _ _), (NewFilter E _) as [f|e]; simpl;
    (split; [split; [intros H|intros [Hv [f' Hf']]]|intros err H]);
    try (case_decide as Hsz; [|exfalso; apply Hsz, Nat.neq_0_lt_0,
           map_size_non_empty_iff, insert_non_empty]);
    try done; try (by eauto);
    try (rewrite decide_False in H by (rewrite map_size_empty; lia); done);
    injection H as <-; eexists; (split; [done|]);
    rewrite ?lookup_insert, ?lookup_empty; repeat case_decide; try done;
    split; split; try done; try (by intros [? ?]); try (by eauto);
    try (by intros [? [=]]).
Qed.

End Validators.

(** ** The projector, field by field *)

Section ProjectorFields.
Context {St OF Flt : Type} (E : Env St OF Flt).

(** X11: on a stored Oidc group the projector never panics, and fails only
    when the attributes are requested and cannot be encoded. When it
    succeeds, each field of the message is the value of the entity if the
    field is requested and the zero value otherwise; a requested name or
    description that is empty on the entity is left out; the scope and the
    authorized actions are those of the options; the type is "oidc"; the
    attributes are the encoding of the filter. *)
Theorem toProto_projects_group (g : oidc.ManagedGroup)
    (opt : list (handlers.Option_ OF)) outputFields :
  handlers.withOutputFields (handlers.GetOpts opt) = Some outputFields →
  let has := Has E outputFields in
  let opts := handlers.GetOpts opt in
  let r := toProto E (Some (OidcGroup (Some g))) opt in
  r ≠ Panic ∧
  (∀ e, r = Done (Err e) →
     has globals.AttributesField = true ∧
     (∃ err, ProtoToStruct E {| pb.Filter := oidc.Filter g |} = Err err) ∧
     apiStatus e = Some codes.Internal) ∧
  (∀ out, r = Done (Ok out) →
     pb.Id out = (if has globals.IdField then oidc.PublicId g else "") ∧
     pb.AuthMethodId out
       = (if has globals.AuthMethodIdField then oidc.AuthMethodId g else "") ∧
     pb.Description out
       = (if has globals.DescriptionField then nonEmpty (oidc.Description g)
          else None) ∧
     pb.Name out
       = (if has globals.NameField then nonEmpty (oidc.Name g) else None) ∧
     pb.CreatedTime out
       = (if has globals.CreatedTimeField then oidc.CreateTime g else None) ∧
     pb.UpdatedTime out
       = (if has globals.UpdatedTimeField then oidc.UpdateTime g else None) ∧
     pb.Version out = (if has globals.VersionField then oidc.Version g else 0%N) ∧
     pb.Scope out
       = (if has globals.ScopeField then handlers.withScope opts else None) ∧
     pb.AuthorizedActions out
       = (if has globals.AuthorizedActionsField
          then handlers.withAuthorizedActions opts else []) ∧
     pb.Type_ out = (if has globals.TypeField then "oidc" else "") ∧
     (if has globals.AttributesField
      then ∃ st, ProtoToStruct E {| pb.Filter := oidc.Filter g |} = Ok st ∧
                 pb.Attributes out = Some st
      else pb.Attributes out = None)).
Proof.
  intros Hof has opts r. subst r opts. unfold toProto. rewrite Hof.
  fold has. simpl.
  destruct (has globals.IdField), (has globals.AuthMethodIdField),
    (has globals.DescriptionField), (has globals.NameField),
    (has globals.CreatedTimeField), (has globals.UpdatedTimeField),
    (has globals.VersionField); simpl;
    destruct (has globals.TypeField), (has globals.AttributesField) eqn:Ha;
    simpl;
    try (destruct (ProtoToStruct E _) as [st|err] eqn:Hp);
    (split_and!; [done|intros ? [= <-]; eauto|intros ? [= <-]; simpl]);
    try (split_and!; by eauto).
Qed.

(** X12: on a nil group the projector panics exactly when one of the fields
    it reads off the entity is requested; otherwise it answers a message
    that carries the scope and the authorized actions of the options, when
    requested, and nothing else. *)
Theorem toProto_nil_group (opt : list (handlers.Option_ OF)) outputFields :
  handlers.withOutputFields (handlers.GetOpts opt) = Some outputFields →
  let has := Has E outputFields in
  let opts := handlers.GetOpts opt in
  (toProto E None opt = Panic ↔ ∃ f, f ∈ entityFields ∧ has f = true) ∧
  (toProto E None opt ≠ Panic →
   toProto E None opt =
     Done (Ok {| pb.Id := ""; pb.AuthMethodId := "";
                 pb.Scope := if has globals.ScopeField
                             then handlers.withScope opts else None;
                 pb.Name := None; pb.Description := None;
                 pb.CreatedTime := None; pb.UpdatedTime := None;
                 pb.Version := 0%N; pb.Type_ := ""; pb.Attributes := None;
                 pb.AuthorizedActions :=
                   if has globals.AuthorizedActionsField
                   then handlers.withAuthorizedActions opts else [] |})).
Proof.
  intros Hof has opts. subst opts. unfold toProto. rewrite Hof. fold has.
  unfold entityFields. simpl.
  destruct (has globals.IdField) eqn:H1; simpl;
    [by split; [split; [eexists; split; [|exact H1]; set_solver|done]|]|].
  destruct (has globals.AuthMethodIdField) eqn:H2; simpl;
    [by split; [split; [eexists; split; [|exact H2]; set_solver|done]|]|].
  destruct (has globals.DescriptionField) eqn:H3; simpl;
    [by split; [split; [eexists; split; [|exact H3]; set_solver|done]|]|].
  destruct (has globals.NameField) eqn:H4; simpl;
    [by split; [split; [eexists; split; [|exact H4]; set_solver|done]|]|].
  destruct (has globals.CreatedTimeField) eqn:H5; simpl;
    [by split; [split; [eexists; split; [|exact H5]; set_solver|done]|]|].
  destruct (has globals.UpdatedTimeField) eqn:H6; simpl;
    [by split; [split; [eexists; split; [|exact H6]; set_solver|done]|]|].
  destruct (has globals.VersionField) eqn:H7; simpl;
    [by split; [split; [eexists; split; [|exact H7]; set_solver|done]|]|].
  split; [|done]. split; [done|].
  intros (f & Hf & Hhas). set_unfold in Hf. destruct_or!; subst f; congruence.
Qed.

End ProjectorFields.

(** ** The handlers on a request that passes *)

Section Composition.
Context {St OF Flt : Type} (E : Env St OF Flt).

(** Past a validator that accepts and a verdict without error, a handler is
    its rest, run in the world the resolver leaves. *)
Lemma guarded_run {R} v id a
    (rest : option oidc.AuthMethod → VerifyResults → M St (Res R))
    (w w1 : World St) am vr :
  v = None →
  parentAndAuthResult E id a w = (Done (am, vr), w1) →
  vrError vr = None →
  guarded E v id a rest w = rest am vr w1.
Proof.
  intros -> Hp He. unfold guarded, bind. rewrite Hp. simpl. by rewrite He.
Qed.

(** [getFromRepo] on a recognized id, with a repository at hand. *)
Lemma getFromRepo_run id (w : World St) :
  SubtypeFromId E id = auth.OidcSubtype →
  oidcRepoFn E = None →
  getFromRepo E id w =
    (Done match LookupManagedGroup E (store w) id with
          | Ok mg => Ok (Some (OidcGroup mg))
          | Err err =>
              if IsNotFoundError E err
              then Err (NotFoundErrorf "ManagedGroup %q doesn't exist.")
              else Err err
          end,
     {| store := store w;
        trace := trace w ++ [EvRepoFn; EvLookupManagedGroup id] |}).
Proof.
  intros Hsub Hfn. unfold getFromRepo, bind, ret, repoFn,
    repoLookupManagedGroup, log. rewrite Hsub. simpl. rewrite Hfn. simpl.
  destruct (LookupManagedGroup E (store w) id) as [mg|err]; simpl;
    [|destruct (IsNotFoundError E err)]; by rewrite <-app_assoc.
Qed.

(** X13: on a recognized id [getFromRepo] answers the error of the
    repository factory as it is, without a lookup; after the lookup, a
    not-found error of the repository becomes the NotFound API error, any
    other error is answered as it is, and whatever the repository returns
    without an error, a nil group included, is answered as a group. *)
Theorem getFromRepo_error_mapping id (w : World St) :
  SubtypeFromId E id = auth.OidcSubtype →
  let w2 := {| store := store w;
               trace := trace w ++ [EvRepoFn; EvLookupManagedGroup id] |} in
  (∀ err, oidcRepoFn E = Some err →
     getFromRepo E id w =
       (Done (Err err), {| store := store w; trace := trace w ++ [EvRepoFn] |})) ∧
  (oidcRepoFn E = None →
   (∀ err, LookupManagedGroup E (store w) id = Err err →
      IsNotFoundError E err = true →
      getFromRepo E id w =
        (Done (Err (NotFoundErrorf "ManagedGroup %q doesn't exist.")), w2)) ∧
   (∀ err, LookupManagedGroup E (store w) id = Err err →
      IsNotFoundError E err = false →
      getFromRepo E id w = (Done (Err err), w2)) ∧
   (∀ mg, LookupManagedGroup E (store w) id = Ok mg →
      getFromRepo E id w = (Done (Ok (Some (OidcGroup mg))), w2))).
Proof.
  intros Hsub w2. split.
  - intros err Hfn. unfold getFromRepo, bind, ret, repoFn, log.
    rewrite Hsub. simpl. by rewrite Hfn.
  - intros Hfn. rewrite getFromRepo_run by done. subst w2. split_and!.
    + by intros err -> ->.
    + by intros err -> ->.
    + by intros mg ->.
Qed.

(** X14: a Get request that passes the validator and the policy engine is
    answered with the projection of the group the resolver found: the
    handler looks the group up a second time, in a repository the run has
    not changed, and makes six calls in all. *)
Theorem get_projects_resolved_group ctx (req : pbs.GetManagedGroupRequest)
    (w : World St) g am :
  let id := pbs.gId req in
  let opts := groupContext action.Read id am (oidc.AuthMethodId g) in
  validateGetRequest E (Some req) = None →
  oidcRepoFn E = None →
  SubtypeFromId E id = auth.OidcSubtype →
  LookupManagedGroup E (store w) id = Ok (Some g) →
  SubtypeFromId E (oidc.AuthMethodId g) = auth.OidcSubtype →
  LookupAuthMethod E (store w) (oidc.AuthMethodId g) = Ok (Some am) →
  vrError (Verify E opts) = None →
  ServiceGetManagedGroup E ctx (Some req) w =
    (answer E "managed_groups.(Service).GetManagedGroup" ctx (Verify E opts)
       (λ item, {| pbs.gItem := item |}) (Ok (Some (OidcGroup (Some g)))),
     {| store := store w;
        trace := trace w ++
          [EvRepoFn; EvLookupManagedGroup id;
           EvLookupAuthMethod (oidc.AuthMethodId g); EvVerify opts;
           EvRepoFn; EvLookupManagedGroup id] |}).
Proof.
  intros id opts Hv Hfn Hsub Hg Hsub' Ham He.
  rewrite GetManagedGroup_guarded. simpl.
  erewrite guarded_run;
    [|exact Hv|by apply (resolver_group_run E id action.Read w g am)|exact He].
  unfold getRest, bind. rewrite getFromRepo_run by done. simpl.
  fold id. rewrite Hg. unfold answer, liftO, ret. simpl.
  destruct (buildItem E _ ctx _ _) as [[item|err]|]; simpl;
    by rewrite <-?app_assoc.
Qed.

(** X15: [createInRepo] turns down an item whose attributes do not decode,
    and an item from which no group can be built, before it asks for a
    repository: the world is as it was, the trace included; the first error
    is an InvalidArgument error on the field "attributes", the second an
    Internal error, both wrapped once. *)
Theorem create_rejected_before_repository a it (w : World St) :
  SubtypeFromId E (oidc.amPublicId a) = auth.OidcSubtype →
  let op := "managed_groups.(Service).createInRepo" in
  (∀ err, StructToProto E (pb.Attributes it) = Err err →
     createInRepo E (Some a) (Some it) w =
       (Done (Err (Wrap (InvalidArgumentErrorf "Error in provided request."
                           {[ "attributes" :=
                                "Attribute fields do not match the expected format." ]})
                     op None)), w)) ∧
  (∀ attrs err,
     StructToProto E (pb.Attributes it) = Ok attrs →
     NewManagedGroup E (oidc.amPublicId a) (pb.Filter attrs)
       ((if pb.Name it is Some n then [oidcopt.WithName n] else []) ++
        (if pb.Description it is Some d then [oidcopt.WithDescription d] else []))
       = Err err →
     createInRepo E (Some a) (Some it) w =
       (Done (Err (Wrap (ApiErrorWithCodeAndMessage codes.Internal
                           "Unable to build user for creation: %v.")
                     op None)), w)).
Proof.
  intros Hsub op. split.
  - intros err Hdec. unfold createInRepo, createOidcInRepo, bind, ret.
    rewrite Hsub. simpl. by rewrite Hdec.
  - intros attrs err Hdec Hnew. unfold createInRepo, createOidcInRepo, bind, ret.
    rewrite Hsub. simpl. by rewrite Hdec, Hnew.
Qed.

(** X16: a Create request that passes the validator and the policy engine
    inserts one group, built from the public id of the auth method the
    resolver found, the decoded filter, and the name and the description the
    item carries, in the scope of that auth method; the policy engine was
    asked about the collection, with the auth method as pin; the answer is
    the projection of the group the repository returns, with its URI. *)
Theorem create_inserts_under_parent ctx it (w : World St) am attrs mg :
  let amId := pb.AuthMethodId it in
  let opts := collectionContext action.Create am amId in
  let c := CreateManagedGroup E (store w) (oidc.amScopeId am) mg in
  validateCreateRequest E (Some {| pbs.cItem := Some it |}) = None →
  oidcRepoFn E = None →
  SubtypeFromId E amId = auth.OidcSubtype →
  LookupAuthMethod E (store w) amId = Ok (Some am) →
  vrError (Verify E opts) = None →
  SubtypeFromId E (oidc.amPublicId am) = auth.OidcSubtype →
  StructToProto E (pb.Attributes it) = Ok attrs →
  NewManagedGroup E (oidc.amPublicId am) (pb.Filter attrs)
    ((if pb.Name it is Some n then [oidcopt.WithName n] else []) ++
     (if pb.Description it is Some d then [oidcopt.WithDescription d] else []))
    = Ok mg →
  ServiceCreateManagedGroup E ctx (Some {| pbs.cItem := Some it |}) w =
    (answer E opCreate ctx (Verify E opts)
       (λ item, {| pbs.crItem := item;
                   pbs.Uri := "managed-groups/" +:+ pb.Id item |})
       (createAnswer c.1),
     {| store := c.2;
        trace := trace w ++
          [EvRepoFn; EvLookupAuthMethod amId; EvVerify opts;
           EvRepoFn; EvCreateManagedGroup (oidc.amScopeId am) mg] |}).
Proof.
  intros amId opts c Hv Hfn Hsub Ham He Hsub' Hdec Hnew.
  rewrite CreateManagedGroup_guarded. simpl.
  erewrite guarded_run;
    [|exact Hv
     |by apply (resolver_collection_run E amId action.Create w am); [right|..]
     |exact He].
  unfold createRest, bind.
  rewrite (createInRepo_success E am it _ attrs mg) by done. simpl. fold c.
  unfold answer, liftO, ret.
  destruct (createAnswer c.1) as [out|err]; simpl; [|by rewrite <-app_assoc].
  destruct (buildItem E _ ctx _ out) as [[item|err]|]; simpl;
    by rewrite <-?app_assoc.
Qed.

(** X17: an Update request that passes the validator and the policy engine,
    with attributes that decode and a mask that translates to a field, makes
    one conditional update. The group it submits carries the id of the
    request and the name, the description and the filter of the item, an
    absent one as the empty string, and nothing else; the version of the
    item and the translated mask go beside it; the scope is the scope of the
    verdict, and the auth method the resolver found is not passed on. *)
Theorem update_submits_item_fields ctx (r : pbs.UpdateManagedGroupRequest) it
    (w : World St) g am flt :
  let id := pbs.uId r in
  let opts := groupContext action.Update id am (oidc.AuthMethodId g) in
  let mg :=
    {| oidc.PublicId := id; oidc.AuthMethodId := "";
       oidc.Name := if pb.Name it is Some n then n else "";
       oidc.Description := if pb.Description it is Some d then d else "";
       oidc.CreateTime := None; oidc.UpdateTime := None;
       oidc.Version := 0%N; oidc.Filter := flt |} in
  let dbMask := Translate E (GetPaths (pbs.uUpdateMask r)) in
  let u := UpdateManagedGroup E (store w) (Scope_GetId (Verify E opts)) mg
             (pb.Version it) dbMask in
  validateUpdateRequest E (Some r) = None →
  oidcRepoFn E = None →
  SubtypeFromId E id = auth.OidcSubtype →
  LookupManagedGroup E (store w) id = Ok (Some g) →
  SubtypeFromId E (oidc.AuthMethodId g) = auth.OidcSubtype →
  LookupAuthMethod E (store w) (oidc.AuthMethodId g) = Ok (Some am) →
  vrError (Verify E opts) = None →
  pbs.uItem r = Some it →
  (pb.Attributes it = None ∧ flt = "") ∨
  (∃ apiAttr attrs, pb.Attributes it = Some apiAttr ∧
     StructToProto E (Some apiAttr) = Ok attrs ∧ flt = pb.Filter attrs) →
  dbMask ≠ [] →
  ServiceUpdateManagedGroup E ctx (Some r) w =
    (answer E opUpdate ctx (Verify E opts)
       (λ item, {| pbs.upItem := item |}) (updateAnswer u.1),
     {| store := u.2;
        trace := trace w ++
          [EvRepoFn; EvLookupManagedGroup id;
           EvLookupAuthMethod (oidc.AuthMethodId g); EvVerify opts;
           EvRepoFn;
           EvUpdateManagedGroup (Scope_GetId (Verify E opts)) mg
             (pb.Version it) dbMask] |}).
Proof.
  intros id opts mg dbMask u Hv Hfn Hsub Hg Hsub' Ham He Hit Hdec Hm.
  rewrite UpdateManagedGroup_guarded. simpl.
  erewrite guarded_run;
    [|exact Hv|by apply (resolver_group_run E id action.Update w g am)|exact He].
  unfold updateRest, bind.
  rewrite (updateInRepo_success E _ _ r it _ flt) by done. simpl.
  fold id opts mg dbMask. fold u. unfold answer, liftO, ret.
  destruct (updateAnswer u.1) as [out|err]; simpl; [|by rewrite <-app_assoc].
  destruct (buildItem E _ ctx _ out) as [[item|err]|]; simpl;
    by rewrite <-?app_assoc.
Qed.

(** X18: a Delete request that passes the validator and the policy engine
    makes one delete, in the scope of the verdict, and answers a nil
    response whatever the number of rows, and also when the repository fails
    with a not-found error; any other error of the repository is answered,
    wrapped once. *)
Theorem delete_answers_nil ctx (req : pbs.DeleteManagedGroupRequest)
    (w : World St) g am :
  let id := pbs.dId req in
  let opts := groupContext action.Delete id am (oidc.AuthMethodId g) in
  let d := DeleteManagedGroup E (store w) (Scope_GetId (Verify E opts)) id in
  validateDeleteRequest E (Some req) = None →
  oidcRepoFn E = None →
  SubtypeFromId E id = auth.OidcSubtype →
  LookupManagedGroup E (store w) id = Ok (Some g) →
  SubtypeFromId E (oidc.AuthMethodId g) = auth.OidcSubtype →
  LookupAuthMethod E (store w) (oidc.AuthMethodId g) = Ok (Some am) →
  vrError (Verify E opts) = None →
  ServiceDeleteManagedGroup E ctx (Some req) w =
    (Done match d.1 with
          | Ok _ => Ok None
          | Err err =>
              if IsNotFoundError E err then Ok None
              else Err (Wrap err "managed_groups.(Service).deleteFromRepo" None)
          end,
     {| store := d.2;
        trace := trace w ++
          [EvRepoFn; EvLookupManagedGroup id;
           EvLookupAuthMethod (oidc.AuthMethodId g); EvVerify opts;
           EvRepoFn;
           EvDeleteManagedGroup (Scope_GetId (Verify E opts)) id] |}).
Proof.
  intros id opts d Hv Hfn Hsub Hg Hsub' Ham He.
  rewrite DeleteManagedGroup_guarded. simpl.
  erewrite guarded_run;
    [|exact Hv|by apply (resolver_group_run E id action.Delete w g am)|exact He].
  unfold deleteRest, bind.
  rewrite deleteFromRepo_run by done. simpl. fold id opts. fold d. unfold ret.
  destruct d.1 as [rows|err]; simpl; [|destruct (IsNotFoundError E err)];
    by rewrite <-?app_assoc.
Qed.

End Composition.

(** ** The order of a listing, and the URI of a created group *)

Section ListingOrder.
Context {St OF Flt : Type} (E : Env St OF Flt).

(** The items the loop adds are the projections of a sublist of the groups,
    one for one and in the order of the groups. *)
Lemma listLoop_ordered authResults flt res (groups : list oidc.ManagedGroup)
    acc items :
  listLoop E authResults flt res
    ((λ a, Some (OidcGroup (Some a))) <$> groups) acc = Done (Ok items) →
  ∃ sub new, items = acc ++ new ∧ sub `sublist_of` groups ∧
    Forall2 (λ g item,
      toProto E (Some (OidcGroup (Some g)))
        (listOutputOpts E authResults (setId (oidc.PublicId g) res)
           (listAuthorizedActions E authResults res (oidc.PublicId g)))
      = Done (Ok item)) sub new.
Proof.
  revert acc. induction groups as [|g groups IH]; intros acc H.
  { injection H as <-. exists [], []. by rewrite app_nil_r. }
  rewrite fmap_cons in H. cbn [listLoop GetPublicId deref obind] in H.
  destruct (decide (length (listAuthorizedActions E authResults res
                              (oidc.PublicId g)) = 0)) as [Hz|Hz].
  - rewrite listLoop_setId in H.
    destruct (IH _ H) as (sub & new & -> & Hsub & Hall).
    exists sub, new. split_and!; [done|by apply sublist_cons|done].
  - destruct (toProto E _ _) as [[item|err]|] eqn:Hp; cbn [obind] in H;
      [|done..].
    rewrite !listLoop_setId in H. destruct (Match E flt item).
    + destruct (IH _ H) as (sub & new & -> & Hsub & Hall).
      exists (g :: sub), (item :: new).
      split_and!; [by rewrite <-app_assoc|by apply sublist_skip|].
      by constructor.
    + destruct (IH _ H) as (sub & new & -> & Hsub & Hall).
      exists sub, new. split_and!; [done|by apply sublist_cons|done].
Qed.

(** X19: the items of a List response follow the order of the repository's
    list: they are the projections, one for one and in order, of a sublist
    of the groups the repository returned, so that no group is answered
    twice and the response is never longer than the repository's list. *)
Theorem list_keeps_repository_order ctx req (w : World St) resp w' :
  ServiceListManagedGroups E ctx req w = (Done (Ok resp), w') →
  pbs.Items resp = [] ∨
  ∃ groups sub authResults res,
    ListManagedGroups E (store w) (from_option pbs.lAuthMethodId "" req)
      = Ok groups ∧
    sub `sublist_of` groups ∧
    (length (pbs.Items resp) ≤ length groups)%nat ∧
    Forall2 (λ g item,
      toProto E (Some (OidcGroup (Some g)))
        (listOutputOpts E authResults (setId (oidc.PublicId g) res)
           (listAuthorizedActions E authResults res (oidc.PublicId g)))
      = Done (Ok item)) sub (pbs.Items resp).
Proof.
  intros H. unfold ServiceListManagedGroups in H.
  destruct (validateListRequest E req); [done|].
  unfold bind in H.
  destruct (parentAndAuthResult E _ action.List w) as [[[am ar]|] w1] eqn:Hp;
    [|done].
  destruct (readOnly_parentAndAuthResult E _ _ _ _ _ Hp) as [Hs1 _].
  simpl in H. destruct (vrError ar); [done|].
  destruct (listFromRepo E _ w1) as [[[ul|err]|] w2] eqn:Hl; [|done..].
  destruct (listFromRepo_run _ _ _ _ _ Hl) as [_ Hul].
  specialize (Hul ul eq_refl). rewrite Hs1 in Hul.
  destruct (decide (length ul = 0)) as [Hz|Hz].
  { injection H as <- <-. by left. }
  destruct Hul as [->|(groups & Hgroups & ->)]; [done|].
  destruct (NewFilter E _) as [flt|]; [|done].
  destruct (vrScope ar) as [scope|]; [|done].
  unfold liftO, ret in H.
  match type of H with
  | context [listLoop E ar flt ?res ?ul []] =>
      destruct (listLoop E ar flt res ul []) as [[items|err]|] eqn:Hloop;
      [|done..];
      destruct (listLoop_ordered _ _ _ _ _ _ Hloop) as (sub & new & -> & Hsub & Hall);
      right; exists groups, sub, ar, res
  end.
  injection H as <- <-. simpl. split_and!; [done..| |done].
  rewrite <-(Forall2_length _ _ _ Hall). by apply sublist_length.
Qed.

(** X20: the List handler reads the scope of the verdict only when the
    repository returned a group. With a verdict that carries neither an
    error nor a scope, an empty listing is answered with the empty
    response, and a listing with a group ends in the dereference of the
    nil scope. *)
Theorem list_reads_scope_after_listing ctx (r : pbs.ListManagedGroupsRequest)
    (w : World St) am groups :
  let amId := pbs.lAuthMethodId r in
  let opts := collectionContext action.List am amId in
  validateListRequest E (Some r) = None →
  oidcRepoFn E = None →
  SubtypeFromId E amId = auth.OidcSubtype →
  LookupAuthMethod E (store w) amId = Ok (Some am) →
  vrError (Verify E opts) = None →
  vrScope (Verify E opts) = None →
  ListManagedGroups E (store w) amId = Ok groups →
  ServiceListManagedGroups E ctx (Some r) w =
    (if decide (groups = []) then Done (Ok {| pbs.Items := [] |}) else Panic,
     {| store := store w;
        trace := trace w ++
          [EvRepoFn; EvLookupAuthMethod amId; EvVerify opts;
           EvRepoFn; EvListManagedGroups amId] |}).
Proof.
  intros amId opts Hv Hfn Hsub Ham He Hsc Hl.
  assert (∃ flt, NewFilter E (pbs.lFilter r) = Ok flt) as [flt Hflt].
  { unfold validateListRequest in Hv.
    destruct (NewFilter E (pbs.lFilter r)) as [flt|err]; [by eexists|].
    exfalso. case_decide as Hsz; [done|].
    match type of Hsz with
    | ¬ (0 < size ?m) => assert (m = ∅) as Hm by (apply map_size_empty_inv; lia)
    end.
    revert Hm. apply insert_non_empty. }
  subst opts amId. rewrite ListManagedGroups_guarded. simpl.
  erewrite guarded_run;
    [|exact Hv
     |by apply (resolver_collection_run E _ action.List w am); [left|..]
     |exact He].
  unfold listRest, bind. rewrite (listFromRepo_success E) by done. simpl.
  rewrite Hl. simpl. rewrite length_fmap.
  destruct groups as [|g groups]; simpl.
  - unfold ret. by rewrite <-app_assoc.
  - rewrite Hflt, Hsc. unfold panic. by rewrite <-app_assoc.
Qed.

(** The projector sets the id only when the field "id" is requested. *)
Lemma toProto_id_gated in_ opt outputFields out :
  handlers.withOutputFields (handlers.GetOpts opt) = Some outputFields →
  Has E outputFields globals.IdField = false →
  toProto E in_ opt = Done (Ok out) →
  pb.Id out = "".
Proof.
  intros Hof Hid H. unfold toProto in H. rewrite Hof in H. cbv zeta in H.
  rewrite Hid in H. cbn [obind] in H.
  repeat match type of H with
         | obind ?c _ = _ => destruct c; cbn [obind] in H; [|discriminate H]
         end.
  destruct in_ as [[i|g]|]; [|by injection H as <-..].
  destruct (Has E outputFields globals.TypeField),
    (Has E outputFields globals.AttributesField); simpl in H;
    try (by injection H as <-);
    (destruct (GetFilter i) as [f|]; simpl in H; [|discriminate H]);
    (destruct (ProtoToStruct E _) as [st|]; [|discriminate H]);
    by injection H as <-.
Qed.

(** The projector sets the id to the public id of the group when the field
    "id" is requested. *)
Lemma toProto_id_value g opt outputFields out :
  handlers.withOutputFields (handlers.GetOpts opt) = Some outputFields →
  Has E outputFields globals.IdField = true →
  toProto E (Some (OidcGroup (Some g))) opt = Done (Ok out) →
  pb.Id out = oidc.PublicId g.
Proof.
  intros Hof Hid H. unfold toProto in H. rewrite Hof in H. cbv zeta in H.
  rewrite Hid in H. cbn [obind GetPublicId deref] in H.
  repeat match type of H with
         | obind ?c _ = _ => destruct c; cbn [obind] in H; [|discriminate H]
         end.
  destruct (Has E outputFields globals.TypeField),
    (Has E outputFields globals.AttributesField); simpl in H;
    try (by injection H as <-);
    (destruct (ProtoToStruct E _) as [st|]; [|discriminate H]);
    by injection H as <-.
Qed.

(** The options of the three single-item handlers, read back by the
    projector. *)
Lemma outputOpts_decoded outputFields authResults mg opts :
  outputOpts E outputFields authResults mg = Done opts →
  handlers.GetOpts opts =
    {| handlers.withOutputFields := Some outputFields;
       handlers.withScope :=
         if Has E outputFields globals.ScopeField
         then vrScope authResults else None;
       handlers.withAuthorizedActions :=
         if Has E outputFields globals.AuthorizedActionsField
         then match GetPublicId mg with
              | Done id =>
                  action.Strings
                    (FetchActionSetForId E authResults id
                       (IdActions (SubtypeFromId E id)) None)
              | Panic => []
              end
         else [] |}.
Proof.
  unfold outputOpts. intros H.
  destruct (Has E outputFields globals.ScopeField),
    (Has E outputFields globals.AuthorizedActionsField);
    try (destruct (GetPublicId mg) as [id|]; simpl in H; [|discriminate H]);
    by injection H as <-.
Qed.

(** X21: the URI of a Create response is "managed-groups/" followed by the
    id of the item of the response. When the output fields allow the field
    "id", that id is the public id of the group the repository returned
    from the insert; when they do not, the id is empty and the URI is the
    bare prefix. *)
Theorem create_uri_names_returned_id ctx req (w : World St) resp w' :
  ServiceCreateManagedGroup E ctx req w = (Done (Ok resp), w') →
  pbs.Uri resp = "managed-groups/" +:+ pb.Id (pbs.crItem resp) ∧
  ∃ outputFields, ctxOutputFields ctx = Some outputFields ∧
    if Has E outputFields globals.IdField
    then ∃ scopeId mg out,
           CreateManagedGroup E (store w) scopeId mg = (Ok (Some out), store w') ∧
           pb.Id (pbs.crItem resp) = oidc.PublicId out
    else pb.Id (pbs.crItem resp) = "".
Proof.
  intros H.
  destruct (create_handler_run E _ _ _ _ _ H)
    as [(_ & [?|[e ?]] & _)|(am & opts & pre & w1 & o2 & _ & Hs1 & _ & _ & _ & Hc & Ho)];
    [done..|].
  destruct o2 as [u|]; [|done]. unfold answer in Ho.
  destruct u as [mg|err]; [|done].
  destruct (buildItem E opCreate ctx (Verify E opts) mg) as [[item|err]|] eqn:Hb;
    [|done..].
  injection Ho as ->. simpl. split; [done|].
  unfold buildItem in Hb.
  destruct (ctxOutputFields ctx) as [outputFields|]; [|done].
  exists outputFields. split; [done|].
  destruct (outputOpts E outputFields (Verify E opts) mg) as [oo|] eqn:Hoo;
    [|done]. simpl in Hb.
  pose proof (outputOpts_decoded _ _ _ _ Hoo) as Hdec.
  assert (handlers.withOutputFields (handlers.GetOpts oo) = Some outputFields)
    as Hof by (by rewrite Hdec).
  destruct (Has E outputFields globals.IdField) eqn:Hid;
    [|by eapply toProto_id_gated].
  destruct (createInRepo_run E _ _ _ _ _ Hc)
    as [(_ & _ & [?|[[e ?]|Hnone]])|(a & g & _ & _ & Hst & Hans)]; [done..| |].
  - injection Hnone as ->. unfold toProto in Hb. rewrite Hof in Hb.
    cbv zeta in Hb. by rewrite Hid in Hb.
  - rewrite Hs1 in Hans, Hst. injection Hans as Hans.
    destruct (CreateManagedGroup E (store w) (oidc.amScopeId a) g)
      as [[[out|]|err] st] eqn:Hcr; simpl in Hans, Hst; [|done..].
    injection Hans as ->. exists (oidc.amScopeId a), g, out.
    split; [by rewrite Hst|]. by eapply toProto_id_value.
Qed.

End ListingOrder.

(** ** Requests that are turned down at once *)

Section Rejections.
Context {St OF Flt : Type} (E : Env St OF Flt).

(** X22: a request its validator rejects is answered with the error of the
    validator and nothing is called, neither the repository nor the policy
    engine; a nil request is such a request for each of the five handlers,
    and its error is a domain error that carries no API status. *)
Theorem validator_rejection_is_immediate ctx (w : World St) :
  (∀ req err, validateListRequest E req = Some err →
     ServiceListManagedGroups E ctx req w = (Done (Err err), w)) ∧
  (∀ req err, validateGetRequest E req = Some err →
     ServiceGetManagedGroup E ctx req w = (Done (Err err), w)) ∧
  (∀ req err, validateCreateRequest E req = Some err →
     ServiceCreateManagedGroup E ctx req w = (Done (Err err), w)) ∧
  (∀ req err, validateUpdateRequest E req = Some err →
     ServiceUpdateManagedGroup E ctx req w = (Done (Err err), w)) ∧
  (∀ req err, validateDeleteRequest E req = Some err →
     ServiceDeleteManagedGroup E ctx req w = (Done (Err err), w)) ∧
  (∃ e1 e2 e3 e4 e5,
     validateListRequest E None = Some e1 ∧
     validateGetRequest E None = Some e2 ∧
     validateCreateRequest E None = Some e3 ∧
     validateUpdateRequest E None = Some e4 ∧
     validateDeleteRequest E None = Some e5 ∧
     Forall (λ e, ∃ op, e = DomainError errors.InvalidParameter op "nil request" ∧
                        apiStatus e = None)
       [e1; e2; e3; e4; e5]).
Proof.
  split_and!.
  - intros req err Hv. unfold ServiceListManagedGroups. by rewrite Hv.
  - intros req err Hv. unfold ServiceGetManagedGroup. by rewrite Hv.
  - intros req err Hv. unfold ServiceCreateManagedGroup. by rewrite Hv.
  - intros req err Hv. unfold ServiceUpdateManagedGroup. by rewrite Hv.
  - intros req err Hv. unfold ServiceDeleteManagedGroup. by rewrite Hv.
  - eexists _, _, _, _, _. split_and!; [reflexivity..|].
    repeat constructor; by eexists.
Qed.

(** X23: [updateInRepo], on a recognized id, turns down a request without an
    item, and an item whose attributes do not decode, before it asks for a
    repository: the world is as it was, the trace included. The failed
    decoding is an InvalidArgument error on the field "attributes", and it
    is answered whatever the update mask. *)
Theorem update_rejected_before_repository scopeId amId
    (r : pbs.UpdateManagedGroupRequest) (w : World St) :
  SubtypeFromId E (pbs.uId r) = auth.OidcSubtype →
  let op := "managed_groups.(Service).updateInRepo" in
  (pbs.uItem r = None →
   updateInRepo E scopeId amId (Some r) w =
     (Done (Err (Wrap (DomainError errors.InvalidParameter
                         "managed_groups.(Service).updateOidcInRepo"
                         "nil managed group.") op None)), w)) ∧
  (∀ it apiAttr err,
     pbs.uItem r = Some it →
     pb.Attributes it = Some apiAttr →
     StructToProto E (Some apiAttr) = Err err →
     updateInRepo E scopeId amId (Some r) w =
       (Done (Err (Wrap (InvalidArgumentErrorf "Error in provided request."
                           {[ globals.AttributesField :=
                                "Attribute fields do not match the expected format." ]})
                     op None)), w)).
Proof.
  intros Hsub op. split.
  - intros Hit. unfold updateInRepo, updateOidcInRepo, bind, ret. simpl.
    by rewrite Hsub, Hit.
  - intros it apiAttr err Hit Hattr Hdec.
    unfold updateInRepo, updateOidcInRepo, bind, ret. simpl.
    rewrite Hsub, Hit. simpl. by rewrite Hattr, Hdec.
Qed.

End Rejections.

(** ** The further properties on the sample data *)

Section Samples2.
Import sample sample2.

(** The resolver on a Read of the first group. *)
Lemma resolver_context_for_group_witness :
  LookupManagedGroup E0 (store w0) "mgoidc_a" = Ok (Some g1) ∧
  LookupAuthMethod E0 (store w0) "amoidc_1" = Ok (Some am1) ∧
  parentAndAuthResult E0 "mgoidc_a" action.Read w0 =
    (Done (Some am1, Verify E0 (optsOn action.Read)),
     {| store := store w0;
        trace := trace w0 ++
          [EvRepoFn; EvLookupManagedGroup "mgoidc_a";
           EvLookupAuthMethod "amoidc_1"; EvVerify (optsOn action.Read)] |}).
Proof.
  split_and!; [reflexivity..|].
  apply (resolver_context_for_group E0 "mgoidc_a" action.Read w0 g1 am1);
    [discriminate | discriminate | reflexivity..].
Defined.

(** The resolver on a List of the groups of the first auth method. *)
Lemma resolver_context_for_collection_witness :
  LookupAuthMethod E0 (store w0) "amoidc_1" = Ok (Some am1) ∧
  parentAndAuthResult E0 "amoidc_1" action.List w0 =
    (Done (Some am1, Verify E0 (collectionContext action.List am1 "amoidc_1")),
     {| store := store w0;
        trace := trace w0 ++
          [EvRepoFn; EvLookupAuthMethod "amoidc_1";
           EvVerify (collectionContext action.List am1 "amoidc_1")] |}).
Proof.
  split; [reflexivity|].
  apply (resolver_context_for_collection E0 "amoidc_1" action.List w0 am1);
    [by left | reflexivity..].
Defined.

(** A List under an auth method the repository does not have, and a Read of
    a group whose auth method is gone. *)
Lemma absent_parent_not_found_witness :
  oidcRepoFn E0 = None ∧
  parentAndAuthResult E0 "amoidc_gone" action.List w0 =
    (Done (None, setError NotFoundError emptyVerifyResults),
     {| store := store w0;
        trace := trace w0 ++ [EvRepoFn; EvLookupAuthMethod "amoidc_gone"] |}) ∧
  parentAndAuthResult E0 "mgoidc_o" action.Read wOrphan =
    (Done (None, setError NotFoundError emptyVerifyResults),
     {| store := store wOrphan;
        trace := trace wOrphan ++
          [EvRepoFn; EvLookupManagedGroup "mgoidc_o";
           EvLookupAuthMethod "amoidc_gone"] |}).
Proof.
  pose proof (absent_parent_not_found E0 eq_refl) as [Hcoll Hgroup].
  split_and!; [reflexivity| |].
  - apply Hcoll; [by left | reflexivity..].
  - apply (Hgroup "mgoidc_o" action.Read wOrphan gOrphan);
      [discriminate | discriminate | reflexivity..].
Defined.

(** The resolver when the repository cannot be reached, when the lookup of
    the group fails, and when the lookup of the auth method fails, for a
    List and for a Read. *)
Lemma resolver_returns_repository_errors_witness :
  let failed := Done (None, setError unavailable emptyVerifyResults) in
  oidcRepoFn EDown = Some unavailable ∧
  parentAndAuthResult EDown "mgoidc_a" action.Update w0 =
    (failed, {| store := store w0; trace := trace w0 ++ [EvRepoFn] |}) ∧
  LookupManagedGroup EGroupLookupFails (store w0) "mgoidc_a"
    = Err unavailable ∧
  parentAndAuthResult EGroupLookupFails "mgoidc_a" action.Read w0 =
    (failed,
     {| store := store w0;
        trace := trace w0 ++ [EvRepoFn; EvLookupManagedGroup "mgoidc_a"] |}) ∧
  LookupAuthMethod EMethodLookupFails (store w0) "amoidc_1"
    = Err unavailable ∧
  parentAndAuthResult EMethodLookupFails "amoidc_1" action.List w0 =
    (failed,
     {| store := store w0;
        trace := trace w0 ++ [EvRepoFn; EvLookupAuthMethod "amoidc_1"] |}) ∧
  parentAndAuthResult EMethodLookupFails "mgoidc_a" action.Read w0 =
    (failed,
     {| store := store w0;
        trace := trace w0 ++
          [EvRepoFn; EvLookupManagedGroup "mgoidc_a";
           EvLookupAuthMethod "amoidc_1"] |}).
Proof.
  intros failed.
  pose proof (resolver_returns_repository_errors EDown) as (Hfactory & _).
  pose proof (resolver_returns_repository_errors EGroupLookupFails)
    as (_ & Hgroup & _).
  pose proof (resolver_returns_repository_errors EMethodLookupFails)
    as (_ & _ & Hcoll & Hparent).
  split_and!; [reflexivity| |reflexivity| |reflexivity| |].
  - apply Hfactory. reflexivity.
  - apply Hgroup; [reflexivity|discriminate|discriminate|reflexivity..].
  - apply Hcoll; [reflexivity|by left|reflexivity..].
  - apply (Hparent "mgoidc_a" action.Read w0 g1);
      [reflexivity|discriminate|discriminate|reflexivity..].
Defined.

(** A Get of the first group that the policy engine refuses. *)
Lemma verdict_error_is_final_witness :
  let run := ServiceGetManagedGroup EDeny ctx0 (Some {| pbs.gId := "mgoidc_a" |}) w0 in
  EvVerify (optsOn action.Read) ∈ added w0 run.2 ∧
  vrError (Verify EDeny (optsOn action.Read)) = Some forbidden ∧
  run.1 = Done (Err forbidden) ∧ store run.2 = store w0 ∧
  ∃ pre, added w0 run.2 = pre ++ [EvVerify (optsOn action.Read)] ∧
         Forall quiet pre.
Proof.
  intros run.
  assert (EvVerify (optsOn action.Read) ∈ added w0 run.2) as Hin.
  { apply (list_elem_of_lookup_2 _ 3). reflexivity. }
  split; [exact Hin|]. split; [reflexivity|].
  apply (proj1 (proj2 (verdict_error_is_final EDeny ctx0))
           (Some {| pbs.gId := "mgoidc_a" |}) w0 run.1 run.2
           (optsOn action.Read) forbidden);
    [apply surjective_pairing | exact Hin | reflexivity].
Defined.

(** A Delete of the first group: the delete comes after the verdict. *)
Lemma mutation_only_after_clean_verdict_witness :
  let run := ServiceDeleteManagedGroup E0 ctx0 (Some {| pbs.dId := "mgoidc_a" |}) w0 in
  let ev := EvDeleteManagedGroup "o_1" "mgoidc_a" in
  ev ∈ added w0 run.2 ∧
  ∃ pre opts post,
    added w0 run.2 = pre ++ EvVerify opts :: post ∧
    Forall quiet pre ∧ Forall notVerify post ∧
    vrError (Verify E0 opts) = None ∧ ev ∈ post.
Proof.
  intros run ev.
  assert (ev ∈ added w0 run.2) as Hin.
  { apply (list_elem_of_lookup_2 _ 5). reflexivity. }
  split; [exact Hin|].
  apply (proj2 (proj2 (mutation_only_after_clean_verdict E0 ctx0))
           (Some {| pbs.dId := "mgoidc_a" |}) w0 run.1 run.2 ev);
    [apply surjective_pairing | exact Hin | reflexivity].
Defined.

(** A listing of the two groups leaves the repository as it was. *)
Lemma get_and_list_read_only_witness :
  let run := ServiceListManagedGroups E0 ctx0 (Some listReq) w0 in
  store run.2 = store w0 ∧
  ∃ evs, trace run.2 = trace w0 ++ evs ∧
         Forall (λ ev, isRepoMutation ev = false) evs.
Proof.
  intros run.
  apply (proj2 (get_and_list_read_only E0 ctx0) (Some listReq) w0 run.1 run.2).
  apply surjective_pairing.
Defined.

(** The item of the sample Create request passes the check; an item without
    a filter is reported; and an item whose attributes do not decode is
    reported under "attributes", and not for its filter, which the decoder
    had read. *)
Lemma createBadFields_empty_iff_witness :
  createBadFields E0 (Some createItem) = ∅ ∧
  createBadFields E0 (Some itemNoFilter) !! attrFilterField
    = Some "This field is required." ∧
  StructToProto E0 (GetItem_Attributes (Some itemOddFilter))
    = Err codec.malformed ∧
  createBadFields E0 (Some itemOddFilter) !! globals.AttributesField
    = Some "Attribute fields do not match the expected format." ∧
  createBadFields E0 (Some itemOddFilter) !! attrFilterField = None.
Proof.
  split_and!; [| |reflexivity| |reflexivity].
  - apply (proj1 (createBadFields_empty_iff E0 (Some createItem))).
    split_and!; [discriminate|reflexivity|by left|].
    exists {| pb.Filter := "f" |}. split_and!; [reflexivity|discriminate|reflexivity].
  - apply (proj1 (proj2 (createBadFields_empty_iff E0 (Some itemNoFilter))));
      reflexivity.
  - apply (proj2 (proj2 (createBadFields_empty_iff E0 (Some itemOddFilter)))
             eq_refl codec.malformed).
    reflexivity.
Defined.

(** The sample Update request, whose mask does not touch the filter. *)
Lemma updateBadFields_empty_iff_witness :
  SubtypeFromId E0 (pbs.uId updName) = auth.OidcSubtype ∧
  updateBadFields E0 updName = ∅.
Proof.
  split; [reflexivity|].
  apply (proj1 (proj2 (updateBadFields_empty_iff E0 updName) eq_refl)).
  split; [by left|]. exists {| pb.Filter := "" |}. split; [reflexivity|].
  intros Hm. discriminate Hm.
Defined.

(** The sample List request is accepted. *)
Lemma validateListRequest_accepts_iff_witness :
  ValidId E0 (pbs.lAuthMethodId listReq) oidc.AuthMethodPrefix = true ∧
  validateListRequest E0 (Some listReq) = None.
Proof.
  split; [reflexivity|].
  apply (proj1 (validateListRequest_accepts_iff E0 listReq)).
  split; [reflexivity|]. by exists ().
Defined.

(** The first group projected on its id, its name and its attributes. *)
Lemma toProto_projects_group_witness :
  let opt := [handlers.WithOutputFields
                [globals.IdField; globals.NameField; globals.AttributesField]] in
  ∃ out,
    toProto E0 (Some (OidcGroup (Some g1))) opt = Done (Ok out) ∧
    pb.Id out = "mgoidc_a" ∧ pb.Name out = Some "admins" ∧
    pb.Version out = 0%N ∧ pb.Type_ out = "" ∧
    pb.Attributes out
      = Some {[ globals.FilterField := structpb.StringValue "f" ]}.
Proof.
  intros opt.
  pose proof (toProto_projects_group E0 g1 opt _ eq_refl) as (_ & _ & Hok).
  eexists. split; [reflexivity|].
  destruct (Hok _ eq_refl)
    as (Hid & _ & _ & Hname & _ & _ & Hver & _ & _ & Hty & Hattr).
  split_and!; [exact Hid|exact Hname|exact Hver|exact Hty|].
  destruct Hattr as (st & Hst & ->). by injection Hst as <-.
Defined.

(** A nil group projected on the scope alone, and on its id. *)
Lemma toProto_nil_group_witness :
  toProto E0 None [handlers.WithOutputFields [globals.ScopeField];
                   handlers.WithScope (Some inmem.scope)]
    = Done (Ok {| pb.Id := ""; pb.AuthMethodId := "";
                  pb.Scope := Some inmem.scope;
                  pb.Name := None; pb.Description := None;
                  pb.CreatedTime := None; pb.UpdatedTime := None;
                  pb.Version := 0%N; pb.Type_ := ""; pb.Attributes := None;
                  pb.AuthorizedActions := [] |}) ∧
  toProto E0 None [handlers.WithOutputFields [globals.IdField]] = Panic.
Proof.
  split.
  - apply (proj2 (toProto_nil_group E0
             [handlers.WithOutputFields [globals.ScopeField];
              handlers.WithScope (Some inmem.scope)] _ eq_refl)).
    discriminate.
  - apply (proj1 (toProto_nil_group E0
             [handlers.WithOutputFields [globals.IdField]] _ eq_refl)).
    exists globals.IdField. split; [by left|reflexivity].
Defined.

(** [getFromRepo] on the first group, and when the repository cannot be
    reached. *)
Lemma getFromRepo_error_mapping_witness :
  SubtypeFromId E0 "mgoidc_a" = auth.OidcSubtype ∧
  getFromRepo E0 "mgoidc_a" w0 =
    (Done (Ok (Some (OidcGroup (Some g1)))),
     {| store := store w0;
        trace := trace w0 ++ [EvRepoFn; EvLookupManagedGroup "mgoidc_a"] |}) ∧
  getFromRepo EDown "mgoidc_a" w0 =
    (Done (Err unavailable),
     {| store := store w0; trace := trace w0 ++ [EvRepoFn] |}).
Proof.
  split_and!; [reflexivity| |].
  - apply (proj2 (getFromRepo_error_mapping E0 "mgoidc_a" w0 eq_refl) eq_refl).
    reflexivity.
  - apply (proj1 (getFromRepo_error_mapping EDown "mgoidc_a" w0 eq_refl)).
    reflexivity.
Defined.

(** A Get of the first group. *)
Lemma get_projects_resolved_group_witness :
  let req := {| pbs.gId := "mgoidc_a" |} in
  validateGetRequest E0 (Some req) = None ∧
  vrError (Verify E0 (optsOn action.Read)) = None ∧
  ServiceGetManagedGroup E0 ctx0 (Some req) w0 =
    (answer E0 "managed_groups.(Service).GetManagedGroup" ctx0
       (Verify E0 (optsOn action.Read))
       (λ item, {| pbs.gItem := item |}) (Ok (Some (OidcGroup (Some g1)))),
     {| store := store w0;
        trace := trace w0 ++
          [EvRepoFn; EvLookupManagedGroup "mgoidc_a";
           EvLookupAuthMethod "amoidc_1"; EvVerify (optsOn action.Read);
           EvRepoFn; EvLookupManagedGroup "mgoidc_a"] |}).
Proof.
  intros req. split_and!; [reflexivity..|].
  apply (get_projects_resolved_group E0 ctx0 req w0 g1 am1); reflexivity.
Defined.

(** The create helper on an item with a field the attributes do not have,
    and on an item without a filter. *)
Lemma create_rejected_before_repository_witness :
  SubtypeFromId E0 (oidc.amPublicId am1) = auth.OidcSubtype ∧
  (∃ e, createInRepo E0 (Some am1) (Some itemOddAttributes) w0
          = (Done (Err e), w0) ∧
        apiStatus e = Some codes.InvalidArgument) ∧
  (∃ e, createInRepo E0 (Some am1) (Some itemNoFilter) w0
          = (Done (Err e), w0) ∧
        apiStatus e = Some codes.Internal).
Proof.
  split_and!; [reflexivity| |].
  - eexists. split.
    + apply (proj1 (create_rejected_before_repository E0 am1 itemOddAttributes
                      w0 eq_refl) codec.malformed).
      reflexivity.
    + reflexivity.
  - eexists. split.
    + eapply (proj2 (create_rejected_before_repository E0 am1 itemNoFilter w0
                       eq_refl) {| pb.Filter := "" |}); reflexivity.
    + reflexivity.
Defined.

(** The sample Create request. *)
Lemma create_inserts_under_parent_witness :
  let c := CreateManagedGroup E0 (store w0) "o_1" draftOps in
  validateCreateRequest E0 (Some createReq) = None ∧
  LookupAuthMethod E0 (store w0) "amoidc_1" = Ok (Some am1) ∧
  ServiceCreateManagedGroup E0 ctx0 (Some createReq) w0 =
    (answer E0 opCreate ctx0
       (Verify E0 (collectionContext action.Create am1 "amoidc_1"))
       (λ item, {| pbs.crItem := item;
                   pbs.Uri := "managed-groups/" +:+ pb.Id item |})
       (createAnswer c.1),
     {| store := c.2;
        trace := trace w0 ++
          [EvRepoFn; EvLookupAuthMethod "amoidc_1";
           EvVerify (collectionContext action.Create am1 "amoidc_1");
           EvRepoFn; EvCreateManagedGroup "o_1" draftOps] |}).
Proof.
  intros c. split_and!; [reflexivity..|].
  apply (create_inserts_under_parent E0 ctx0 createItem w0 am1
           {| pb.Filter := "f" |} draftOps); reflexivity.
Defined.

(** The sample Update request, which renames the first group. *)
Lemma update_submits_item_fields_witness :
  let mg :=
    {| oidc.PublicId := "mgoidc_a"; oidc.AuthMethodId := "";
       oidc.Name := "ops"; oidc.Description := "";
       oidc.CreateTime := None; oidc.UpdateTime := None;
       oidc.Version := 0%N; oidc.Filter := "" |} in
  let u := UpdateManagedGroup E0 (store w0) "o_1" mg 1%N ["Name"] in
  validateUpdateRequest E0 (Some updName) = None ∧
  Translate E0 (GetPaths (pbs.uUpdateMask updName)) = ["Name"] ∧
  ServiceUpdateManagedGroup E0 ctx0 (Some updName) w0 =
    (answer E0 opUpdate ctx0 (Verify E0 (optsOn action.Update))
       (λ item, {| pbs.upItem := item |}) (updateAnswer u.1),
     {| store := u.2;
        trace := trace w0 ++
          [EvRepoFn; EvLookupManagedGroup "mgoidc_a";
           EvLookupAuthMethod "amoidc_1"; EvVerify (optsOn action.Update);
           EvRepoFn; EvUpdateManagedGroup "o_1" mg 1%N ["Name"]] |}).
Proof.
  intros mg u. split_and!; [reflexivity..|].
  apply (update_submits_item_fields E0 ctx0 updName (item 1 "ops") w0 g1 am1 "");
    [reflexivity..|by left|discriminate].
Defined.

(** A Delete of the first group. *)
Lemma delete_answers_nil_witness :
  let req := {| pbs.dId := "mgoidc_a" |} in
  validateDeleteRequest E0 (Some req) = None ∧
  ServiceDeleteManagedGroup E0 ctx0 (Some req) w0 =
    (Done (Ok None),
     {| store := {| inmem.groups := [g2]; inmem.methods := [am1] |};
        trace := trace w0 ++
          [EvRepoFn; EvLookupManagedGroup "mgoidc_a";
           EvLookupAuthMethod "amoidc_1"; EvVerify (optsOn action.Delete);
           EvRepoFn; EvDeleteManagedGroup "o_1" "mgoidc_a"] |}).
Proof.
  intros req. split; [reflexivity|].
  apply (delete_answers_nil E0 ctx0 req w0 g1 am1); reflexivity.
Defined.

(** A listing of the two groups: both are answered, in the order of the
    repository. *)
Lemma list_keeps_repository_order_witness :
  let run := ServiceListManagedGroups E0 ctx0 (Some listReq) w0 in
  ∃ resp, run.1 = Done (Ok resp) ∧
    pb.Id <$> pbs.Items resp = ["mgoidc_a"; "mgoidc_b"] ∧
    (pbs.Items resp = [] ∨
     ∃ groups sub authResults res,
       ListManagedGroups E0 (store w0) "amoidc_1" = Ok groups ∧
       sub `sublist_of` groups ∧
       (length (pbs.Items resp) ≤ length groups)%nat ∧
       Forall2 (λ g item,
         toProto E0 (Some (OidcGroup (Some g)))
           (listOutputOpts E0 authResults (setId (oidc.PublicId g) res)
              (listAuthorizedActions E0 authResults res (oidc.PublicId g)))
         = Done (Ok item)) sub (pbs.Items resp)).
Proof.
  intros run.
  assert (∃ resp, run.1 = Done (Ok resp) ∧
                  pb.Id <$> pbs.Items resp = ["mgoidc_a"; "mgoidc_b"])
    as (resp & Hr & Hids) by (vm_compute; by eexists).
  exists resp. split_and!; [exact Hr|exact Hids|].
  apply (list_keeps_repository_order E0 ctx0 (Some listReq) w0 resp run.2).
  rewrite <-Hr. apply surjective_pairing.
Defined.

(** A listing under a verdict that names no scope. *)
Lemma list_reads_scope_after_listing_witness :
  vrScope (Verify ENoScope (collectionContext action.List am1 "amoidc_1")) = None ∧
  ListManagedGroups ENoScope (store w0) "amoidc_1" = Ok [g1; g2] ∧
  ServiceListManagedGroups ENoScope ctx0 (Some listReq) w0 =
    (Panic,
     {| store := store w0;
        trace := trace w0 ++
          [EvRepoFn; EvLookupAuthMethod "amoidc_1";
           EvVerify (collectionContext action.List am1 "amoidc_1");
           EvRepoFn; EvListManagedGroups "amoidc_1"] |}).
Proof.
  split_and!; [reflexivity..|].
  apply (list_reads_scope_after_listing ENoScope ctx0 listReq w0 am1 [g1; g2]);
    reflexivity.
Defined.

(** The sample Create request: the URI names the id the repository gave. *)
Lemma create_uri_names_returned_id_witness :
  let run := ServiceCreateManagedGroup E0 ctx0 (Some createReq) w0 in
  ∃ resp, run.1 = Done (Ok resp) ∧
    pbs.Uri resp = "managed-groups/mgoidc_2" ∧
    pbs.Uri resp = "managed-groups/" +:+ pb.Id (pbs.crItem resp) ∧
    ∃ outputFields, ctxOutputFields ctx0 = Some outputFields ∧
      if Has E0 outputFields globals.IdField
      then ∃ scopeId mg out,
             CreateManagedGroup E0 (store w0) scopeId mg
               = (Ok (Some out), store run.2) ∧
             pb.Id (pbs.crItem resp) = oidc.PublicId out
      else pb.Id (pbs.crItem resp) = "".
Proof.
  intros run.
  assert (∃ resp, run.1 = Done (Ok resp) ∧
                  pbs.Uri resp = "managed-groups/mgoidc_2")
    as (resp & Hr & Huri) by (vm_compute; by eexists).
  exists resp. split_and!; [exact Hr|exact Huri|..];
    apply (create_uri_names_returned_id E0 ctx0 (Some createReq) w0 resp run.2);
    rewrite <-Hr; apply surjective_pairing.
Defined.

(** A nil List request, and a Get of an id without a known prefix. *)
Lemma validator_rejection_is_immediate_witness :
  ServiceListManagedGroups E0 ctx0 None w0 =
    (Done (Err (DomainError errors.InvalidParameter
                  "managed_groups.validateListRequest" "nil request")), w0) ∧
  ∃ err,
    validateGetRequest E0 (Some {| pbs.gId := "bogus_1" |}) = Some err ∧
    ServiceGetManagedGroup E0 ctx0 (Some {| pbs.gId := "bogus_1" |}) w0
      = (Done (Err err), w0).
Proof.
  pose proof (validator_rejection_is_immediate E0 ctx0 w0)
    as (Hlist & Hget & _).
  split; [apply Hlist; reflexivity|].
  eexists. split; [reflexivity|]. apply Hget. reflexivity.
Defined.

(** An update of the first group with attributes that carry a field the
    Oidc attributes do not have, and an update without an item. *)
Lemma update_rejected_before_repository_witness :
  let odd := {| pbs.uId := "mgoidc_a"; pbs.uItem := Some itemOddAttributes;
                pbs.uUpdateMask := Some ["name"] |} in
  let bare := {| pbs.uId := "mgoidc_a"; pbs.uItem := None;
                 pbs.uUpdateMask := Some ["name"] |} in
  SubtypeFromId E0 "mgoidc_a" = auth.OidcSubtype ∧
  (∃ e, updateInRepo E0 "o_1" "amoidc_1" (Some odd) w0 = (Done (Err e), w0) ∧
        apiStatus e = Some codes.InvalidArgument) ∧
  (∃ e, updateInRepo E0 "o_1" "amoidc_1" (Some bare) w0 = (Done (Err e), w0) ∧
        apiStatus e = None).
Proof.
  intros odd bare. split_and!; [reflexivity| |].
  - eexists. split.
    + eapply (proj2 (update_rejected_before_repository E0 "o_1" "amoidc_1" odd
                       w0 eq_refl) itemOddAttributes _ codec.malformed);
        reflexivity.
    + reflexivity.
  - eexists. split.
    + apply (proj1 (update_rejected_before_repository E0 "o_1" "amoidc_1" bare
                      w0 eq_refl)).
      reflexivity.
    + reflexivity.
Defined.

End Samples2.
